(** * License server: validation and lifecycle of license records

    A shallow embedding of the license core of [server.js]:
    [generateLicenseKey], [calculateExpirationDate], the handler of
    [POST /api/licenses/check] and the pause, unpause and extend handlers,
    together with the properties the specification states about them; then
    the routes that ban, reset, delete and generate licenses, set the
    hardware lock and the version of an application, pause and resume the
    licenses of an application, and save the key format and the custom
    messages.

    Conventions of the embedding.
    - A number of the program is a double.  The numbers the model meets
      (durations, time values) have integer values and are held in [Z];
      where the code computes with them, the sum or product is rounded to
      the nearest double ([JSNumber]).  A duration with a fractional value
      is outside the model.
    - An instant is its time value: milliseconds since the epoch.  A [Date]
      computed from a duration is a time value or the invalid date, as
      TimeClip decides; the setters of [Date] work on local time, so the
      time zone of the server process is a parameter ([TimeZone]), whose
      offsets are below one day ([proper_zone]).  Clock readings and the
      instants held in the store are valid time values; the span between
      two of them is below [2 ^ 53] ms, so the handlers of pause and
      resume and the count of remaining days compute with it exactly, and
      a stored instant moved by the span between two clock readings is a
      valid time value.
    - A [DATETIME] column holding the text of [toISOString()] is modelled by
      the instant it denotes, [NULL] by [None].  [toISOString()] of the
      invalid date throws; a handler that throws sends no answer.
    - Strings are sequences of one-byte characters.
    - [db.run] is modelled as an immediate update of the store. *)

From Stdlib Require Import ZArith Lia String Ascii List Bool.
From stdpp Require Import gmap strings list fin_maps.

Local Open Scope Z_scope.

(** ** Numbers *)

Module JSNumber.

Definition two53 : Z := 9007199254740992.

(** The double nearest to an integer, ties to the even significand: the
    value a number takes when it is read from JSON or from an [INTEGER]
    column, and the result of a sum or a product. *)
Definition round53 (x : Z) : Z :=
  let a := Z.abs x in
  if a <? two53 then x
  else
    let k := Z.log2 a - 52 in
    let q := a / 2 ^ k in
    let r := a mod 2 ^ k in
    let half := 2 ^ (k - 1) in
    let q' :=
      if r <? half then q
      else if half <? r then q + 1
      else if Z.even q then q else q + 1 in
    Z.sgn x * (q' * 2 ^ k).

Definition add (a b : Z) : Z := round53 (a + b).
Definition sub (a b : Z) : Z := round53 (a - b).
Definition mul (a b : Z) : Z := round53 (a * b).

(** [a + b] where [b] may be [NaN] ([None]). *)
Definition plus (a : Z) (b : option Z) : option Z := add a <$> b.

(** The exponent [m] with [10 ^ m <= a < 10 ^ (m + 1)], searched upwards
    from [m]. *)
Fixpoint magnitude (fuel : nat) (a m : Z) : Z :=
  match fuel with
  | O => m
  | S fuel' => if a <? 10 ^ (m + 1) then m else magnitude fuel' a (m + 1)
  end.

(** The first digit of the text of a double [a >= 10 ^ 21], which is in
    exponent form with the fewest digits that read back as [a]: the digit
    [d] when some [d * 10 ^ m] reads back as [a], else the leading digit of
    [a]. *)
Definition first_digit (a : Z) : Z :=
  let m := magnitude 310 a 21 in
  let l := a / 10 ^ m in
  if round53 (l * 10 ^ m) =? a then l
  else if round53 ((l + 1) * 10 ^ m) =? a then (if l =? 9 then 1 else l + 1)
  else l.

(** [parseInt(n)] at a number with an integer value: the text of the
    number is read up to its first character that is not a digit.  Below
    [10 ^ 21] the text is the digits of the number; from there on it is in
    exponent form and only its first digit is read; the text of an
    infinity has no digit and gives [NaN] ([None]). *)
Definition parseInt (n : Z) : option Z :=
  let x := round53 n in
  let a := Z.abs x in
  if a <? 10 ^ 21 then Some x
  else if 2 ^ 1024 <=? a then None
  else Some (Z.sgn x * first_digit a).

End JSNumber.

(** ** Time values and the [Date] operations used by the server *)

Module JSDate.

Definition msPerSecond : Z := 1000.
Definition msPerMinute : Z := 60000.
Definition msPerHour : Z := 3600000.
Definition msPerDay : Z := 86400000.

Definition Day (t : Z) : Z := t / msPerDay.
Definition TimeWithinDay (t : Z) : Z := t mod msPerDay.

Definition DayFromYear (y : Z) : Z :=
  365 * (y - 1970) + (y - 1969) / 4 - (y - 1901) / 100 + (y - 1601) / 400.

Definition DaysInYear (y : Z) : Z :=
  if negb (y mod 4 =? 0) then 365
  else if negb (y mod 100 =? 0) then 366
  else if negb (y mod 400 =? 0) then 365
  else 366.

(** The largest year whose first day is not after the day of [t]: an
    estimate from the mean length of a year, moved by one where needed. *)
Definition YearFromTime (t : Z) : Z :=
  let d := Day t in
  let y := 1970 + (d * 400) / 146097 in
  if d <? DayFromYear y then y - 1
  else if DayFromYear (y + 1) <=? d then y + 1
  else y.

Definition InLeapYear (t : Z) : Z :=
  if DaysInYear (YearFromTime t) =? 366 then 1 else 0.

Definition DayWithinYear (t : Z) : Z := Day t - DayFromYear (YearFromTime t).

(** Day number within the year of the first day of month [m] (0 to 11);
    [leap] is 1 in a leap year and 0 otherwise. *)
Definition MonthStart (m leap : Z) : Z :=
  match m with
  | 0 => 0
  | 1 => 31
  | 2 => 59 + leap
  | 3 => 90 + leap
  | 4 => 120 + leap
  | 5 => 151 + leap
  | 6 => 181 + leap
  | 7 => 212 + leap
  | 8 => 243 + leap
  | 9 => 273 + leap
  | 10 => 304 + leap
  | _ => 334 + leap
  end.

Definition MonthFromTime (t : Z) : Z :=
  let d := DayWithinYear t in
  let leap := InLeapYear t in
  if d <? 31 then 0
  else if d <? 59 + leap then 1
  else if d <? 90 + leap then 2
  else if d <? 120 + leap then 3
  else if d <? 151 + leap then 4
  else if d <? 181 + leap then 5
  else if d <? 212 + leap then 6
  else if d <? 243 + leap then 7
  else if d <? 273 + leap then 8
  else if d <? 304 + leap then 9
  else if d <? 334 + leap then 10
  else 11.

Definition DateFromTime (t : Z) : Z :=
  DayWithinYear t - MonthStart (MonthFromTime t) (InLeapYear t) + 1.

Definition HourFromTime (t : Z) : Z := (t / msPerHour) mod 24.
Definition MinFromTime (t : Z) : Z := (t / msPerMinute) mod 60.
Definition SecFromTime (t : Z) : Z := (t / msPerSecond) mod 60.
Definition msFromTime (t : Z) : Z := t mod msPerSecond.

Definition MakeTime (hour min sec ms : Z) : Z :=
  JSNumber.add
    (JSNumber.add
       (JSNumber.add (JSNumber.mul hour msPerHour) (JSNumber.mul min msPerMinute))
       (JSNumber.mul sec msPerSecond))
    ms.

Definition MakeDay (year month date : Z) : Z :=
  let ym := year + month / 12 in
  let mn := month mod 12 in
  let leap := if DaysInYear ym =? 366 then 1 else 0 in
  JSNumber.sub (JSNumber.add (DayFromYear ym + MonthStart mn leap) date) 1.

Definition MakeDate (day time : Z) : Z :=
  JSNumber.add (JSNumber.mul day msPerDay) time.

(** A [Date] object: a time value, or the invalid date ([NaN]). *)
Inductive Date : Type :=
| TimeValue (t : Z)
| InvalidDate.

Definition maxTime : Z := 8640000000000000.

Definition TimeClip (t : Z) : Date :=
  if Z.abs t <=? maxTime then TimeValue t else InvalidDate.

Definition valid_time (t : Z) : Prop := Z.abs t <= maxTime.

(** [toISOString()]: the text, here the instant, of a valid date; [None]
    when the call throws a [RangeError]. *)
Definition toISOString (d : Date) : option Z :=
  match d with
  | TimeValue t => Some t
  | InvalidDate => None
  end.

(** The local time zone adjustment of the server process: the offset that
    applies at a UTC instant, and the offset that applies to a local time
    value. *)
Record TimeZone : Type := {
  tza_of_utc : Z -> Z;
  tza_of_local : Z -> Z
}.

Definition LocalTime (tz : TimeZone) (t : Z) : Z :=
  JSNumber.add t (tza_of_utc tz t).
Definition UTC (tz : TimeZone) (t : Z) : Z :=
  JSNumber.sub t (tza_of_local tz t).

(** The offsets of a zone are below one day. *)
Definition proper_zone (tz : TimeZone) : Prop :=
  forall t, Z.abs (tza_of_utc tz t) <= msPerDay
            /\ Z.abs (tza_of_local tz t) <= msPerDay.

(** A zone whose offset never changes (no daylight saving). *)
Definition fixed_zone (off : Z) : TimeZone :=
  {| tza_of_utc := fun _ => off; tza_of_local := fun _ => off |}.

Definition fixed_offset (tz : TimeZone) : Prop :=
  exists off, forall t, tza_of_utc tz t = off /\ tza_of_local tz t = off.

Section Accessors.
Variable tz : TimeZone.

Definition getDate (d : Z) : Z := DateFromTime (LocalTime tz d).
Definition getHours (d : Z) : Z := HourFromTime (LocalTime tz d).
Definition getMinutes (d : Z) : Z := MinFromTime (LocalTime tz d).
Definition getSeconds (d : Z) : Z := SecFromTime (LocalTime tz d).

(** The setters, on a date with time value [d]; the argument is [None]
    when it is [NaN]. *)
Definition setDate (d : Z) (dt : option Z) : Date :=
  match dt with
  | None => InvalidDate
  | Some dt =>
      let t := LocalTime tz d in
      TimeClip
        (UTC tz (MakeDate (MakeDay (YearFromTime t) (MonthFromTime t) dt)
                          (TimeWithinDay t)))
  end.

Definition setHours (d : Z) (hour : option Z) : Date :=
  match hour with
  | None => InvalidDate
  | Some hour =>
      let t := LocalTime tz d in
      TimeClip
        (UTC tz (MakeDate (Day t)
                   (MakeTime hour (MinFromTime t) (SecFromTime t)
                      (msFromTime t))))
  end.

Definition setMinutes (d : Z) (min : option Z) : Date :=
  match min with
  | None => InvalidDate
  | Some min =>
      let t := LocalTime tz d in
      TimeClip
        (UTC tz (MakeDate (Day t)
                   (MakeTime (HourFromTime t) min (SecFromTime t)
                      (msFromTime t))))
  end.

Definition setSeconds (d : Z) (sec : option Z) : Date :=
  match sec with
  | None => InvalidDate
  | Some sec =>
      let t := LocalTime tz d in
      TimeClip
        (UTC tz (MakeDate (Day t)
                   (MakeTime (HourFromTime t) (MinFromTime t) sec
                      (msFromTime t))))
  end.
End Accessors.

End JSDate.

Import JSDate.

(** ** [calculateExpirationDate] *)

Definition parseInt : Z -> option Z := JSNumber.parseInt.

(** The clock is read once, inside the function: [now] is that reading.
    The result is [None] for [null]. *)
Definition calculateExpirationDate (tz : TimeZone) (now : Z)
    (durationValue : Z) (durationUnit : string) (isUnlimited : bool)
    : option Date :=
  if isUnlimited then None
  else
    let expiresAt := now in
    Some
      (if String.eqb durationUnit "seconds" then
         setSeconds tz expiresAt
           (JSNumber.plus (getSeconds tz expiresAt) (parseInt durationValue))
       else if String.eqb durationUnit "minutes" then
         setMinutes tz expiresAt
           (JSNumber.plus (getMinutes tz expiresAt) (parseInt durationValue))
       else if String.eqb durationUnit "hours" then
         setHours tz expiresAt
           (JSNumber.plus (getHours tz expiresAt) (parseInt durationValue))
       else if String.eqb durationUnit "days" then
         setDate tz expiresAt
           (JSNumber.plus (getDate tz expiresAt) (parseInt durationValue))
       else
         setDate tz expiresAt
           (JSNumber.plus (getDate tz expiresAt) (parseInt durationValue))).

(** Length in milliseconds of one unit of a duration; any unit other than
    seconds, minutes and hours counts as days. *)
Definition unit_ms (u : string) : Z :=
  if String.eqb u "seconds" then msPerSecond
  else if String.eqb u "minutes" then msPerMinute
  else if String.eqb u "hours" then msPerHour
  else msPerDay.

(** The instant the specification names: [now] moved by [v] units on the
    local clock of the server, in exact arithmetic. *)
Definition add_duration (tz : TimeZone) (now v : Z) (u : string) : Z :=
  let local := now + tza_of_utc tz now + v * unit_ms u in
  local - tza_of_local tz local.

(** ** JavaScript values as the handlers test them *)

Module JS.

(** Truthiness of a nullable string: [null], [undefined] and the empty
    string are falsy. *)
Definition truthy_str (o : option string) : bool :=
  match o with
  | Some s => negb (String.eqb s "")
  | None => false
  end.

(** Truthiness of a nullable number: [null] and [0] are falsy. *)
Definition truthy_num (o : option Z) : bool :=
  match o with
  | Some n => negb (n =? 0)
  | None => false
  end.

(** [a || b] on nullable numbers. *)
Definition or_num (a b : option Z) : option Z :=
  if truthy_num a then a else b.

(** White space removed by [String.prototype.trim], among the characters
    below U+0100. *)
Definition is_white_space (c : ascii) : bool :=
  let n := nat_of_ascii c in
  ((9 <=? n)%nat && (n <=? 13)%nat) || (n =? 32)%nat || (n =? 160)%nat.

Fixpoint trimStart (s : string) : string :=
  match s with
  | EmptyString => EmptyString
  | String c r => if is_white_space c then trimStart r else s
  end.

Definition reverse (s : string) : string :=
  string_of_list_ascii (List.rev (list_ascii_of_string s)).

Definition trimEnd (s : string) : string := reverse (trimStart (reverse s)).

Definition trim (s : string) : string := trimEnd (trimStart s).

(** [!hwid || hwid.trim() === ''] *)
Definition missing_or_blank (o : option string) : bool :=
  match o with
  | Some s => String.eqb s "" || String.eqb (trim s) ""
  | None => true
  end.

(** [url && url.trim()] *)
Definition present_and_not_blank (o : option string) : bool :=
  match o with
  | Some s => negb (String.eqb s "") && negb (String.eqb (trim s) "")
  | None => false
  end.

End JS.

(** ** The record store *)

Definition UserId := Z.

(** A row of [applications], keyed by its [app_id]. *)
Record Application : Type := {
  name : string;
  version : option string;
  hwid_lock_enabled : option Z;
  webhook_url : option string;
  app_created_by : option UserId
}.

(** A row of [licenses], keyed by its [license_key].  The flag columns are
    [INTEGER DEFAULT 0] (or [1]) and are never [NULL]. *)
Record License : Type := {
  app_id : string;
  duration_value : option Z;
  duration_unit : option string;
  is_unlimited : Z;
  expires_at : option Z;
  is_active : Z;
  locked_hwid : option string;
  is_banned : Z;
  is_paused : Z;
  paused_at : option Z;
  paused_expires_at : option Z;
  created_by : option UserId
}.

(** A row of [license_usage]; the table has no uniqueness constraint on
    [license_key], so [INSERT OR REPLACE] adds a row. *)
Record UsageRow : Type := {
  usage_license_key : string;
  usage_hwid : option string
}.

(** A row of [custom_messages] with [app_id = 'global']. *)
Record MessageRow : Type := {
  msg_user_id : option UserId;
  message_key : string;
  message_value : string
}.

Record Store : Type := {
  applications : gmap string Application;
  licenses : gmap string License;
  license_usage : list UsageRow;
  custom_messages : list MessageRow
}.

Definition set_licenses (st : Store) (ls : gmap string License) : Store :=
  {| applications := applications st;
     licenses := ls;
     license_usage := license_usage st;
     custom_messages := custom_messages st |}.

Definition add_usage (st : Store) (row : UsageRow) : Store :=
  {| applications := applications st;
     licenses := licenses st;
     license_usage := license_usage st ++ [row];
     custom_messages := custom_messages st |}.

(** [UPDATE licenses SET ... WHERE license_key = ?] *)
Definition update_license (f : License -> License) (key : string) (st : Store)
    : Store :=
  set_licenses st (alter f key (licenses st)).

Definition with_expires_at (e : option Z) (l : License) : License :=
  {| app_id := app_id l; duration_value := duration_value l;
     duration_unit := duration_unit l; is_unlimited := is_unlimited l;
     expires_at := e; is_active := is_active l;
     locked_hwid := locked_hwid l; is_banned := is_banned l;
     is_paused := is_paused l; paused_at := paused_at l;
     paused_expires_at := paused_expires_at l; created_by := created_by l |}.

Definition with_locked_hwid (h : option string) (l : License) : License :=
  {| app_id := app_id l; duration_value := duration_value l;
     duration_unit := duration_unit l; is_unlimited := is_unlimited l;
     expires_at := expires_at l; is_active := is_active l;
     locked_hwid := h; is_banned := is_banned l;
     is_paused := is_paused l; paused_at := paused_at l;
     paused_expires_at := paused_expires_at l; created_by := created_by l |}.

Definition with_duration_value (v : option Z) (l : License) : License :=
  {| app_id := app_id l; duration_value := v;
     duration_unit := duration_unit l; is_unlimited := is_unlimited l;
     expires_at := expires_at l; is_active := is_active l;
     locked_hwid := locked_hwid l; is_banned := is_banned l;
     is_paused := is_paused l; paused_at := paused_at l;
     paused_expires_at := paused_expires_at l; created_by := created_by l |}.

Definition with_pause (flag : Z) (at_ snapshot : option Z) (l : License)
    : License :=
  {| app_id := app_id l; duration_value := duration_value l;
     duration_unit := duration_unit l; is_unlimited := is_unlimited l;
     expires_at := expires_at l; is_active := is_active l;
     locked_hwid := locked_hwid l; is_banned := is_banned l;
     is_paused := flag; paused_at := at_;
     paused_expires_at := snapshot; created_by := created_by l |}.

(** ** Rejection reasons and their messages *)

Inductive ReasonCode : Type :=
| invalid_license
| version_mismatch
| license_banned
| license_paused
| license_inactive
| hwid_required
| hwid_mismatch
| license_expired
| database_error.

Definition reason_key (c : ReasonCode) : string :=
  match c with
  | invalid_license => "invalid-license"
  | version_mismatch => "version-mismatch"
  | license_banned => "license-banned"
  | license_paused => "license-paused"
  | license_inactive => "license-inactive"
  | hwid_required => "hwid-required"
  | hwid_mismatch => "hwid-mismatch"
  | license_expired => "license-expired"
  | database_error => "database-error"
  end.

(** The hardcoded text of each reason, used when no override is stored.
    The text for a version mismatch is built from the two versions. *)
Definition default_message (c : ReasonCode) (current required : string)
    : string :=
  match c with
  | invalid_license => "Invalid license key or application ID"
  | version_mismatch =>
      "Version mismatch. Application version " ++ current
      ++ " does not match required version " ++ required
      ++ ". Please update your application."
  | license_banned => "License has been banned"
  | license_paused => "License is paused"
  | license_inactive => "License is inactive"
  | hwid_required =>
      "HWID is required to activate license. Time starts counting from activation moment."
  | hwid_mismatch => "License is locked to different hardware"
  | license_expired => "License has expired"
  | database_error => "Database error"
  end%string.

(** A resolved reason: the text found for the key, and the replacements
    [text.replace(from, to)] applied to it, in order. *)
Record Message : Type := {
  text : string;
  replacements : list (string * string)
}.

Definition plain (s : string) : Message :=
  {| text := s; replacements := [] |}.

Definition same_user (row_user : option UserId) (userId : option UserId)
    : bool :=
  match row_user, userId with
  | Some a, Some b => a =? b
  | _, _ => false
  end.

Definition usable (r : option MessageRow) : option string :=
  match r with
  | Some row =>
      if String.eqb (message_value row) "" then None
      else Some (message_value row)
  | None => None
  end.

(** The override of the owner, else the global override, else the given
    default. *)
Definition getCustomMessageForUser (st : Store) (userId : option UserId)
    (key : string) (defaultMessage : string) : string :=
  let own :=
    List.find (fun r => same_user (msg_user_id r) userId
                        && String.eqb (message_key r) key)
              (custom_messages st) in
  match usable own with
  | Some m => m
  | None =>
      let global :=
        List.find (fun r => match msg_user_id r with None => true | _ => false end
                            && String.eqb (message_key r) key)
                  (custom_messages st) in
      match usable global with
      | Some m => m
      | None => defaultMessage
      end
  end.

(** ** [POST /api/licenses/check] *)

Record CheckRequest : Type := {
  body_app_id : option string;
  body_license_key : option string;
  body_hwid : option string;
  body_app_version : option string
}.

Record CheckSuccess : Type := {
  ok_app_id : string;
  ok_app_name : string;
  ok_app_version : option string;
  ok_expires_at : option Z;
  ok_is_unlimited : bool;
  ok_is_activated : bool;
  ok_days_remaining : option Z
}.

(** What the handler sends; [HandlerThrew] when it sends nothing because
    [toISOString()] threw on an invalid date. *)
Inductive CheckResponse : Type :=
| MissingFields
| Rejected (code : ReasonCode) (reason : Message)
| ConfigurationError
| Accepted (data : CheckSuccess)
| HandlerThrew.

(** The event handed to [sendDiscordWebhook]. *)
Record Notification : Type := {
  to_url : string;
  event_success : bool;
  event_hwid : string;
  event_expires_at : option Z;
  event_reason : option Message;
  event_owner : option UserId
}.

Record CheckOutcome : Type := {
  response : CheckResponse;
  notification : option Notification;
  store_after : Store
}.

Definition or_na (o : option string) : string :=
  if JS.truthy_str o then default "N/A"%string o else "N/A"%string.

(** [if (url && url.trim()) setImmediate(() => sendDiscordWebhook(...))] *)
Definition notify (url : option string) (ok : bool) (hw : string)
    (e : option Z) (reason : option Message) (owner : option UserId)
    : option Notification :=
  if JS.present_and_not_blank url then
    Some {| to_url := default ""%string url; event_success := ok;
            event_hwid := hw; event_expires_at := e;
            event_reason := reason; event_owner := owner |}
  else None.

(** A rejection whose text goes through the message lookup; the store is
    left as it is at that point. *)
Definition reject (st : Store) (a : Application) (owner : option UserId)
    (code : ReasonCode) (hw : string) (e : option Z) : CheckOutcome :=
  let msg :=
    plain (getCustomMessageForUser st owner (reason_key code)
             (default_message code "" "")) in
  {| response := Rejected code msg;
     notification := notify (webhook_url a) false hw e (Some msg) owner;
     store_after := st |}.

(** [SELECT l.*, a.* FROM licenses l JOIN applications a ON l.app_id = a.app_id
     WHERE l.license_key = ? AND l.app_id = ? AND l.is_active = 1] *)
Definition find_license_for_check (st : Store) (license_key app : string)
    : option (License * Application) :=
  match licenses st !! license_key with
  | Some l =>
      if String.eqb (app_id l) app && (is_active l =? 1) then
        match applications st !! app with
        | Some a => Some (l, a)
        | None => None
        end
      else None
  | None => None
  end.

Definition hwid_lock_on (a : Application) : bool :=
  match hwid_lock_enabled a with
  | Some v => v =? 1
  | None => false
  end.

(** [Math.ceil((expiresAt - now) / (1000 * 60 * 60 * 24))] *)
Definition days_remaining (expiresAt now : Z) : Z :=
  - ((now - expiresAt) / msPerDay).

(** The part of the handler after the expiration has been resolved: the
    usage row, the remaining time, the response and the notification. *)
Definition accept (st : Store) (license_key : string) (l : License)
    (a : Application) (owner : option UserId) (hwid : option string)
    (now : Z) (expiresAt : option Z) : CheckOutcome :=
  let st' :=
    add_usage st
      {| usage_license_key := license_key;
         usage_hwid := if JS.truthy_str hwid then hwid else None |} in
  let timeRemaining :=
    match expiresAt with
    | Some e => if negb (is_unlimited l =? 0) then None
                else Some (days_remaining e now)
    | None => None
    end in
  {| response :=
       Accepted {| ok_app_id := app_id l; ok_app_name := name a;
                   ok_app_version := version a; ok_expires_at := expiresAt;
                   ok_is_unlimited := is_unlimited l =? 1;
                   ok_is_activated := true;
                   ok_days_remaining := timeRemaining |};
     notification :=
       notify (webhook_url a) true (or_na hwid) expiresAt None owner;
     store_after := st' |}.

(** [app_version && license.app_version && license.app_version !== app_version] *)
Definition version_mismatched (req : CheckRequest) (a : Application) : bool :=
  JS.truthy_str (body_app_version req) && JS.truthy_str (version a)
  && negb (String.eqb (default ""%string (version a))
                      (default ""%string (body_app_version req))).

(** [!license.is_unlimited && !license.expires_at && license.duration_value
     && license.duration_unit] *)
Definition awaits_activation (l : License) : bool :=
  (is_unlimited l =? 0) && negb (bool_decide (is_Some (expires_at l)))
  && JS.truthy_num (duration_value l) && JS.truthy_str (duration_unit l).

(** The hardware lock on a license that has an expiration: the store after
    the write to [locked_hwid], or [None] when the license is locked to
    another hardware id. *)
Definition lock_activated (st : Store) (license_key : string) (l : License)
    (hwidLockEnabled : bool) (hwid : option string) : option Store :=
  if hwidLockEnabled then
    if negb (JS.truthy_str (locked_hwid l)) then
      if JS.truthy_str hwid then
        Some (update_license (with_locked_hwid hwid) license_key st)
      else Some st
    else if negb (bool_decide (locked_hwid l = hwid)) then None
    else Some st
  else
    if JS.truthy_str (locked_hwid l) then
      Some (update_license (with_locked_hwid None) license_key st)
    else Some st.

(** The hardware lock on an unlimited license. *)
Definition lock_unlimited (st : Store) (license_key : string) (l : License)
    (hwidLockEnabled : bool) (hwid : option string) : Store :=
  if hwidLockEnabled then
    if negb (JS.truthy_str (locked_hwid l)) && JS.truthy_str hwid then
      update_license (with_locked_hwid hwid) license_key st
    else st
  else
    if JS.truthy_str (locked_hwid l) then
      update_license (with_locked_hwid None) license_key st
    else st.

(** The handler once the joined row [l], [a] has been found.  [now] is the
    clock read by the handler, [nowActivation] the clock read inside
    [calculateExpirationDate] when the license is activated. *)
Definition check_row (tz : TimeZone) (now nowActivation : Z) (st : Store)
    (req : CheckRequest) (license_key : string) (l : License)
    (a : Application) : CheckOutcome :=
  let hwid := body_hwid req in
  let owner := JS.or_num (JS.or_num (created_by l) (app_created_by a)) None in
  if version_mismatched req a then
    let current := default ""%string (body_app_version req) in
    let required := default ""%string (version a) in
    let msg :=
      {| text :=
           getCustomMessageForUser st owner (reason_key version_mismatch)
             (default_message version_mismatch current required);
         replacements :=
           [("{current}"%string, current); ("{required}"%string, required)] |} in
    {| response := Rejected version_mismatch msg;
       notification :=
         notify (webhook_url a) false (or_na hwid) None (Some msg) owner;
       store_after := st |}
  else if is_banned l =? 1 then
    reject st a owner license_banned (or_na hwid) None
  else if is_paused l =? 1 then
    reject st a owner license_paused (or_na hwid) None
  else if is_active l =? 0 then
    reject st a owner license_inactive (or_na hwid) None
  else
    let hwidLockEnabled := hwid_lock_on a in
    if awaits_activation l then
      if hwidLockEnabled && JS.missing_or_blank hwid then
        reject st a owner hwid_required "N/A" None
      else
        let expiresAt :=
          calculateExpirationDate tz nowActivation
            (default 0 (duration_value l))
            (default ""%string (duration_unit l)) false in
        match expiresAt ≫= toISOString with
        | None =>
            {| response := HandlerThrew; notification := None;
               store_after := st |}
        | Some e =>
            let st1 :=
              if hwidLockEnabled && JS.truthy_str hwid then
                update_license
                  (fun r => with_locked_hwid hwid (with_expires_at (Some e) r))
                  license_key st
              else
                update_license
                  (fun r => with_locked_hwid None (with_expires_at (Some e) r))
                  license_key st in
            accept st1 license_key l a owner hwid now (Some e)
        end
    else
      match expires_at l with
      | Some e =>
          match lock_activated st license_key l hwidLockEnabled hwid with
          | None => reject st a owner hwid_mismatch (or_na hwid) None
          | Some st1 =>
              if e <? now then
                reject st1 a owner license_expired (or_na hwid) (Some e)
              else accept st1 license_key l a owner hwid now (Some e)
          end
      | None =>
          if negb (is_unlimited l =? 0) then
            accept (lock_unlimited st license_key l hwidLockEnabled hwid)
              license_key l a owner hwid now None
          else
            {| response := ConfigurationError; notification := None;
               store_after := st |}
      end.

(** The row the handler works on: none when a required field is missing
    or the lookup finds nothing. *)
Definition row_found (st : Store) (req : CheckRequest)
    : option (License * Application) :=
  if JS.truthy_str (body_app_id req) && JS.truthy_str (body_license_key req)
  then
    find_license_for_check st (default ""%string (body_license_key req))
      (default ""%string (body_app_id req))
  else None.

Definition checkLicense (tz : TimeZone) (now nowActivation : Z) (st : Store)
    (req : CheckRequest) : CheckOutcome :=
  if negb (JS.truthy_str (body_app_id req))
     || negb (JS.truthy_str (body_license_key req)) then
    {| response := MissingFields; notification := None; store_after := st |}
  else
    let app := default ""%string (body_app_id req) in
    let license_key := default ""%string (body_license_key req) in
    let hwid := body_hwid req in
    match find_license_for_check st license_key app with
    | None =>
        let found := applications st !! app in
        let owner :=
          match found with
          | Some a => JS.or_num (app_created_by a) None
          | None => None
          end in
        let msg :=
          plain (getCustomMessageForUser st owner (reason_key invalid_license)
                   (default_message invalid_license "" "")) in
        {| response := Rejected invalid_license msg;
           notification :=
             match found with
             | Some a =>
                 notify (webhook_url a) false (or_na hwid) None (Some msg) owner
             | None => None
             end;
           store_after := st |}
    | Some (l, a) => check_row tz now nowActivation st req license_key l a
    end.

(** ** The administrative mutators *)

(** What the session and the permission resolver report about the caller:
    [req.session.userId], [isAdminUser] and the [licenses.pause] and
    [licenses.extend] entries of [getUserPermissions]. *)
Record Caller : Type := {
  session_user : option UserId;
  is_admin : bool;
  may_pause : bool;
  may_extend : bool
}.

(** The answer of a route of the panel; [Thrown] when the handler sends
    nothing because [toISOString()] threw on an invalid date. *)
Inductive AdminResponse : Type :=
| Failure (status : Z) (error : string)
| Success (new_expires_at : option Z)
| Thrown.

Record AdminOutcome : Type := {
  admin_response : AdminResponse;
  admin_store : Store
}.

Definition refuse (st : Store) (status : Z) (error : string) : AdminOutcome :=
  {| admin_response := Failure status error; admin_store := st |}.

(** [SELECT ... FROM licenses WHERE license_key = ?], with
    [AND created_by = ?] unless the caller is the administrator. *)
Definition select_license (st : Store) (any_owner : bool)
    (user : option UserId) (license_key : string) : option License :=
  match licenses st !! license_key with
  | Some l =>
      if any_owner || same_user (created_by l) user then Some l else None
  | None => None
  end.

(** [POST /api/licenses/:licenseKey/pause] *)
Definition pauseLicense (now : Z) (c : Caller) (licenseKey : string)
    (st : Store) : AdminOutcome :=
  if negb (JS.truthy_num (session_user c)) then refuse st 401 "Unauthorized"
  else if negb (is_admin c) && negb (may_pause c) then
    refuse st 403 "You do not have permission to pause licenses"
  else
    match select_license st (is_admin c) (session_user c) licenseKey with
    | None => refuse st 404 "License not found"
    | Some license =>
        if negb (is_active license =? 1) then
          refuse st 400 "Only active licenses can be paused"
        else if is_banned license =? 1 then
          refuse st 400 "Banned licenses cannot be paused"
        else if negb (is_unlimited license =? 1)
                && match expires_at license with
                   | Some expiresAt => expiresAt <=? now
                   | None => false
                   end then
          refuse st 400 "Expired licenses cannot be paused"
        else
          {| admin_response := Success None;
             admin_store :=
               update_license
                 (fun r => with_pause 1 (Some now) (expires_at r) r)
                 licenseKey st |}
    end.

(** Whether the pause of all the licenses of an application selects a row
    of that application:
    [is_active = 1 AND is_banned = 0 AND is_paused = 0
     AND (expires_at > ? OR is_unlimited = 1)].  The comparison is made on
    the texts of the instants, which are ordered as the instants are for
    the years 0 to 9999. *)
Definition bulk_pausable (now : Z) (l : License) : bool :=
  (is_active l =? 1) && (is_banned l =? 0) && (is_paused l =? 0)
  && (match expires_at l with Some e => now <? e | None => false end
      || (is_unlimited l =? 1)).

(** [POST /api/licenses/:licenseKey/unpause].  [nowFallback] is the clock
    read in place of a missing [paused_at], [now] the clock read after it. *)
Definition unpauseLicense (nowFallback now : Z) (c : Caller)
    (licenseKey : string) (st : Store) : AdminOutcome :=
  if negb (JS.truthy_num (session_user c)) then refuse st 401 "Unauthorized"
  else if negb (is_admin c) && negb (may_pause c) then
    refuse st 403 "You do not have permission to unpause licenses"
  else
    match select_license st (is_admin c) (session_user c) licenseKey with
    | None => refuse st 404 "License not found"
    | Some license =>
        let newExpiresAt :=
          match paused_expires_at license with
          | Some pausedExpires =>
              let pausedAt := default nowFallback (paused_at license) in
              let pausedDuration := now - pausedAt in
              Some (pausedExpires + pausedDuration)
          | None => expires_at license
          end in
        {| admin_response := Success None;
           admin_store :=
             update_license
               (fun r => with_expires_at newExpiresAt (with_pause 0 None None r))
               licenseKey st |}
    end.

(** [POST /api/licenses/extend], for the rows of the caller.
    [nowActivation] is the clock read inside [calculateExpirationDate],
    [now] the clock read after it.  A comparison with the invalid date is
    false, so an expiration that cannot be calculated is not refused and
    the days are added to [now]. *)
Definition extendLicense (tz : TimeZone) (nowActivation now : Z) (c : Caller)
    (license_key : option string) (additional_days : option Z) (st : Store)
    : AdminOutcome :=
  if negb (JS.truthy_num (session_user c)) then refuse st 401 "Unauthorized"
  else if negb (may_extend c) then
    refuse st 403 "You do not have permission to extend licenses"
  else if negb (JS.truthy_str license_key)
          || negb (JS.truthy_num additional_days) then
    refuse st 400 "license_key and additional_days are required"
  else
    let key := default ""%string license_key in
    let days := default 0 additional_days in
    match select_license st false (session_user c) key with
    | None => refuse st 404 "License not found"
    | Some license =>
        if is_unlimited license =? 1 then
          refuse st 400 "Cannot extend unlimited license"
        else
          let activated :=
            match expires_at license with
            | Some e => Some (TimeValue e)
            | None =>
                if JS.truthy_num (duration_value license)
                   && JS.truthy_str (duration_unit license) then
                  calculateExpirationDate tz nowActivation
                    (default 0 (duration_value license))
                    (default ""%string (duration_unit license)) false
                else None
            end in
          match activated with
          | None => refuse st 400 "License has no duration set"
          | Some currentExpiry =>
              if match currentExpiry with
                 | TimeValue t => t <=? now
                 | InvalidDate => false
                 end then
                refuse st 400 "Cannot extend expired license"
              else
                let baseDate :=
                  match currentExpiry with
                  | TimeValue t => if now <? t then t else now
                  | InvalidDate => now
                  end in
                let newExpiry :=
                  setDate tz baseDate
                    (JSNumber.plus (getDate tz baseDate) (parseInt days)) in
                match toISOString newExpiry with
                | None => {| admin_response := Thrown; admin_store := st |}
                | Some t =>
                    {| admin_response := Success (Some t);
                       admin_store :=
                         update_license
                           (fun r =>
                              with_duration_value
                                (Some
                                   (JSNumber.add (default 0 (duration_value r))
                                      days))
                                (with_expires_at (Some t) r))
                           key st |}
                end
          end
    end.

(** [POST /api/licenses/:licenseKey/extend].  [now] is the clock read by the
    handler, [nowCalc] the one read inside [calculateExpirationDate] and
    [nowDiff] the one read to turn its result back into a length of time.
    The requested value goes through [parseInt] in the handler and again
    in [calculateExpirationDate], which gets [NaN] when the first reading
    fails and then returns the invalid date. *)
Definition extendLicenseByKey (tz : TimeZone) (now nowCalc nowDiff : Z)
    (c : Caller) (licenseKey : string) (duration_value_arg : option Z)
    (duration_unit_arg : option string) (st : Store) : AdminOutcome :=
  if negb (JS.truthy_num (session_user c)) then refuse st 401 "Unauthorized"
  else if negb (is_admin c) && negb (may_extend c) then
    refuse st 403 "You do not have permission to extend licenses"
  else if negb (JS.truthy_num duration_value_arg)
          || negb (JS.truthy_str duration_unit_arg) then
    refuse st 400 "duration_value and duration_unit are required"
  else
    match select_license st (is_admin c) (session_user c) licenseKey with
    | None => refuse st 404 "License not found"
    | Some license =>
        if is_unlimited license =? 1 then
          refuse st 400 "Cannot extend unlimited license"
        else if match expires_at license with
                | Some currentExpires => currentExpires <=? now
                | None => false
                end then
          refuse st 400 "Cannot extend expired license"
        else
          let additionalTime :=
            match parseInt (default 0 duration_value_arg) with
            | Some value =>
                default InvalidDate
                  (calculateExpirationDate tz nowCalc value
                     (default ""%string duration_unit_arg) false)
            | None => InvalidDate
            end in
          let newExpiresAt :=
            match expires_at license with
            | Some currentExpires =>
                match additionalTime with
                | TimeValue t =>
                    TimeClip
                      (JSNumber.add currentExpires (JSNumber.sub t nowDiff))
                | InvalidDate => InvalidDate
                end
            | None => additionalTime
            end in
          match toISOString newExpiresAt with
          | None => {| admin_response := Thrown; admin_store := st |}
          | Some t =>
              {| admin_response := Success None;
                 admin_store :=
                   update_license (with_expires_at (Some t)) licenseKey st |}
          end
    end.

(** ** [generateLicenseKey] *)

(** The parsed [options] of the format row; a field is [true] when the
    property is exactly [true] in the stored JSON. *)
Record FormatOptions : Type := {
  bigLetters : bool;
  digits : bool;
  specialChars : bool
}.

(** The row of [license_format_config] with [id = 1]; [options] is [None]
    when the stored text is empty or does not parse. *)
Record FormatConfig : Type := {
  format : string;
  options : option FormatOptions
}.

(** [crypto.randomBytes(n)]: the buffer of the first [n] bytes of the
    random source. *)
Definition randomBytes (source : nat -> Byte.byte) (n : nat) : list Byte.byte :=
  List.map source (List.seq 0 n).

Definition character_set (o : FormatOptions) : string :=
  let chars := "abcdefghijklmnopqrstuvwxyz"%string in
  let chars :=
    if bigLetters o then (chars ++ "ABCDEFGHIJKLMNOPQRSTUVWXYZ")%string
    else chars in
  let chars := if digits o then (chars ++ "0123456789")%string else chars in
  let chars := if specialChars o then (chars ++ "!@#$%^&*")%string else chars in
  if String.eqb chars "" then "abcdefghijklmnopqrstuvwxyz0123456789"%string
  else chars.

(** [chars[randomBytes[i] % chars.length]], as the text appended to the
    key; an index outside the string reads [undefined]. *)
Definition random_character (chars : string) (buffer : list Byte.byte)
    (i : nat) : string :=
  let randomIndex :=
    (Byte.to_nat (List.nth i buffer Byte.x00) mod String.length chars)%nat in
  match String.get randomIndex chars with
  | Some c => String c EmptyString
  | None => "undefined"%string
  end.

(** The loop over the positions of the format: [rest] is the part of the
    format from position [i] on, [licenseKey] the key built so far. *)
Fixpoint fill_format (rest : string) (i : nat) (chars : string)
    (buffer : list Byte.byte) (licenseKey : string) : string :=
  match rest with
  | EmptyString => licenseKey
  | String c rest' =>
      fill_format rest' (S i) chars buffer
        (licenseKey ++
           (if Ascii.eqb c "*" then random_character chars buffer i
            else String c EmptyString))%string
  end.

Definition default_options : FormatOptions :=
  {| bigLetters := false; digits := true; specialChars := false |}.

(** The format in effect: the stored one, or ten wildcards when the row is
    missing or its format is empty. *)
Definition effective_format (config : option FormatConfig) : string :=
  match config with
  | Some cfg =>
      if String.eqb (format cfg) "" then "**********"%string else format cfg
  | None => "**********"%string
  end.

Definition effective_options (config : option FormatConfig) : FormatOptions :=
  match config with
  | Some cfg => default default_options (options cfg)
  | None => default_options
  end.

Definition generateLicenseKey (config : option FormatConfig)
    (source : nat -> Byte.byte) : string :=
  let format := effective_format config in
  let options := effective_options config in
  let chars := character_set options in
  let buffer := randomBytes source (String.length format) in
  fill_format format 0 chars buffer EmptyString.

(** The classes of characters a wildcard may be filled from. *)
Definition is_lowercase (c : ascii) : bool :=
  let n := nat_of_ascii c in ((97 <=? n) && (n <=? 122))%nat.

Definition is_uppercase (c : ascii) : bool :=
  let n := nat_of_ascii c in ((65 <=? n) && (n <=? 90))%nat.

Definition is_digit (c : ascii) : bool :=
  let n := nat_of_ascii c in ((48 <=? n) && (n <=? 57))%nat.

Definition is_special (c : ascii) : bool :=
  existsb (Ascii.eqb c) (list_ascii_of_string "!@#$%^&*").

Definition allowed (o : FormatOptions) (c : ascii) : bool :=
  is_lowercase c
  || (bigLetters o && is_uppercase c)
  || (digits o && is_digit c)
  || (specialChars o && is_special c).

(** ** Sample records used by the examples *)

Module Sample.

(** 2023-11-14T22:13:20.000Z *)
Definition t0 : Z := 1700000000000.

Definition day : Z := 86400000.

Definition demo_app (lock : option Z) : Application :=
  {| name := "Demo"; version := Some "1.0.0"%string;
     hwid_lock_enabled := lock; webhook_url := None;
     app_created_by := Some 7 |}.

(** A thirty day license of application [app-1], owned by user 7. *)
Definition license (unlimited banned paused : Z) (expires : option Z)
    (locked : option string) (pausedAt pausedExpires : option Z) : License :=
  {| app_id := "app-1"; duration_value := Some 30;
     duration_unit := Some "days"%string; is_unlimited := unlimited;
     expires_at := expires; is_active := 1; locked_hwid := locked;
     is_banned := banned; is_paused := paused; paused_at := pausedAt;
     paused_expires_at := pausedExpires; created_by := Some 7 |}.

Definition fresh : License := license 0 0 0 None None None None.

Definition store (lock : option Z) (l : License) : Store :=
  {| applications := {[ "app-1"%string := demo_app lock ]};
     licenses := {[ "KEY-1"%string := l ]};
     license_usage := [];
     custom_messages := [] |}.

Definition request (hwid version : option string) : CheckRequest :=
  {| body_app_id := Some "app-1"%string;
     body_license_key := Some "KEY-1"%string;
     body_hwid := hwid; body_app_version := version |}.

Definition owner : Caller :=
  {| session_user := Some 7; is_admin := false; may_pause := true;
     may_extend := true |}.

Definition administrator : Caller :=
  {| session_user := Some 1; is_admin := true; may_pause := true;
     may_extend := true |}.

Definition utc : TimeZone := fixed_zone 0.

End Sample.

(** ** Further routes on licenses and applications

    Routes of [server.js] around the ones above.  A route that asks the
    permission resolver for one entry takes the answer as [permitted]. *)

Definition with_is_banned (flag : Z) (l : License) : License :=
  {| app_id := app_id l; duration_value := duration_value l;
     duration_unit := duration_unit l; is_unlimited := is_unlimited l;
     expires_at := expires_at l; is_active := is_active l;
     locked_hwid := locked_hwid l; is_banned := flag;
     is_paused := is_paused l; paused_at := paused_at l;
     paused_expires_at := paused_expires_at l; created_by := created_by l |}.

Definition set_applications (st : Store) (apps : gmap string Application)
    : Store :=
  {| applications := apps;
     licenses := licenses st;
     license_usage := license_usage st;
     custom_messages := custom_messages st |}.

Definition set_usage (st : Store) (rows : list UsageRow) : Store :=
  {| applications := applications st;
     licenses := licenses st;
     license_usage := rows;
     custom_messages := custom_messages st |}.

Definition set_messages (st : Store) (rows : list MessageRow) : Store :=
  {| applications := applications st;
     licenses := licenses st;
     license_usage := license_usage st;
     custom_messages := rows |}.

Definition with_hwid_lock (v : option Z) (a : Application) : Application :=
  {| name := name a; version := version a; hwid_lock_enabled := v;
     webhook_url := webhook_url a; app_created_by := app_created_by a |}.

Definition with_version (v : option string) (a : Application) : Application :=
  {| name := name a; version := v; hwid_lock_enabled := hwid_lock_enabled a;
     webhook_url := webhook_url a; app_created_by := app_created_by a |}.

(** [generateDefaultLicenseKey]: nine characters from the letters and
    digits. *)
Definition generateDefaultLicenseKey (source : nat -> Byte.byte) : string :=
  let chars :=
    "ABCDEFGHIJKLMNOPQRSTUVWXYZabcdefghijklmnopqrstuvwxyz0123456789"%string in
  fill_format "*********" 0 chars (randomBytes source 9) EmptyString.

(** The character set of [POST /api/admin/license-format/test]: lowercase
    letters and digits always, the other two classes by their toggle;
    [options] is [None] when the body carries none. *)
Definition test_character_set (o : option FormatOptions) : string :=
  let chars := "abcdefghijklmnopqrstuvwxyz0123456789"%string in
  let chars :=
    if match o with Some opts => bigLetters opts | None => false end
    then (chars ++ "ABCDEFGHIJKLMNOPQRSTUVWXYZ")%string else chars in
  if match o with Some opts => specialChars opts | None => false end
  then (chars ++ "!@#$%^&*")%string else chars.

Inductive FormatResponse : Type :=
| FormatFailure (status : Z) (error : string)
| FormatSaved
| FormatTestKey (test_key : string).

(** [POST /api/admin/license-format/test]; [admin] tells whether the
    session belongs to the administrator, [format] is [None] when the body
    field is not a string. *)
Definition testLicenseFormat (session : option UserId) (admin : bool)
    (format : option string) (o : option FormatOptions)
    (source : nat -> Byte.byte) : FormatResponse :=
  if negb (JS.truthy_num session) then FormatFailure 401 "Unauthorized"
  else if negb admin then FormatFailure 403 "Admin access required"
  else if negb (JS.truthy_str format) then FormatFailure 400 "Format is required"
  else
    let fmt := default ""%string format in
    FormatTestKey
      (fill_format fmt 0 (test_character_set o)
         (randomBytes source (String.length fmt)) EmptyString).

(** [format.includes('*')] *)
Fixpoint includes_wildcard (s : string) : bool :=
  match s with
  | EmptyString => false
  | String c r => Ascii.eqb c "*" || includes_wildcard r
  end.

(** [POST /api/admin/license-format]: the answer and the row with [id = 1]
    after the request. *)
Definition saveLicenseFormat (session : option UserId) (admin : bool)
    (format : option string) (o : option FormatOptions)
    (stored : option FormatConfig) : FormatResponse * option FormatConfig :=
  if negb (JS.truthy_num session) then (FormatFailure 401 "Unauthorized", stored)
  else if negb admin then (FormatFailure 403 "Admin access required", stored)
  else if negb (JS.truthy_str format) then
    (FormatFailure 400 "Format is required", stored)
  else if negb (includes_wildcard (default ""%string format)) then
    (FormatFailure 400 "Format must contain at least one * character", stored)
  else
    (FormatSaved,
     Some {| format := default ""%string format;
             options := Some (default default_options o) |}).


(** [POST /api/licenses/:licenseKey/ban] and [.../unban], for the
    administrator; [flag] is the value written, 1 or 0. *)
Definition setBanByKey (flag : Z) (c : Caller) (licenseKey : string)
    (st : Store) : AdminOutcome :=
  if negb (JS.truthy_num (session_user c)) then refuse st 401 "Unauthorized"
  else if negb (is_admin c) then refuse st 403 "Admin access required"
  else
    match licenses st !! licenseKey with
    | None => refuse st 404 "License not found"
    | Some _ =>
        {| admin_response := Success None;
           admin_store := update_license (with_is_banned flag) licenseKey st |}
    end.

Definition banLicenseByKey : Caller -> string -> Store -> AdminOutcome :=
  setBanByKey 1.

Definition unbanLicenseByKey : Caller -> string -> Store -> AdminOutcome :=
  setBanByKey 0.

(** [DELETE FROM license_usage WHERE license_key = ?] *)
Definition delete_usage (license_key : string) (st : Store) : Store :=
  set_usage st
    (List.filter
       (fun row => negb (String.eqb (usage_license_key row) license_key))
       (license_usage st)).


(** [POST /api/licenses/:licenseKey/reset-hwid], for the administrator. *)
Definition resetHwidByKey (c : Caller) (licenseKey : string) (st : Store)
    : AdminOutcome :=
  if negb (JS.truthy_num (session_user c)) then refuse st 401 "Unauthorized"
  else if negb (is_admin c) then refuse st 403 "Admin access required"
  else
    match licenses st !! licenseKey with
    | None => refuse st 404 "License not found"
    | Some _ =>
        {| admin_response := Success None;
           admin_store :=
             delete_usage licenseKey
               (update_license (with_locked_hwid None) licenseKey st) |}
    end.


(** [POST /api/applications/:app_id/update-hwid-lock]; [permitted] is the
    [applications.edit.hwid] entry, [allowed] the answer of
    [userHasAppAccess], [enabled] is [None] when the body field is not a
    boolean. *)
Definition updateHwidLock (c : Caller) (permitted allowed : bool)
    (app : string) (enabled : option bool) (st : Store) : AdminOutcome :=
  if negb (JS.truthy_num (session_user c)) then refuse st 401 "Unauthorized"
  else if negb permitted then
    refuse st 403 "You do not have permission to edit HWID Lock"
  else if negb allowed then refuse st 403 "Access denied"
  else
    match enabled with
    | None => refuse st 400 "hwid_lock_enabled must be a boolean"
    | Some b =>
        match applications st !! app with
        | None => refuse st 404 "Application not found"
        | Some _ =>
            {| admin_response := Success None;
               admin_store :=
                 set_applications st
                   (alter (with_hwid_lock (Some (if b then 1 else 0))) app
                      (applications st)) |}
        end
    end.

(** [POST /api/applications/:app_id/update-version] *)
Definition updateVersion (c : Caller) (permitted allowed : bool)
    (app : string) (new_version : option string) (st : Store) : AdminOutcome :=
  if negb (JS.truthy_num (session_user c)) then refuse st 401 "Unauthorized"
  else if negb permitted then
    refuse st 403 "You do not have permission to edit application version"
  else if negb allowed then refuse st 403 "Access denied"
  else if negb (JS.truthy_str new_version) then
    refuse st 400 "version is required"
  else
    match applications st !! app with
    | None => refuse st 404 "Application not found"
    | Some _ =>
        {| admin_response := Success None;
           admin_store :=
             set_applications st
               (alter (with_version new_version) app (applications st)) |}
    end.

(** ** Bulk routes *)

(** The expiration a resume writes: the snapshot moved by the time spent
    paused, else the current expiration. *)
Definition resumed_expiry (nowFallback now : Z) (l : License) : option Z :=
  match paused_expires_at l with
  | Some pausedExpires =>
      let pausedAt := default nowFallback (paused_at l) in
      let pausedDuration := now - pausedAt in
      Some (pausedExpires + pausedDuration)
  | None => expires_at l
  end.

(** [POST /api/applications/:app_id/pause-all]: the rows of one
    application, whoever created them. *)
Definition pauseAllForApp (now : Z) (c : Caller) (app : string) (st : Store)
    : AdminOutcome :=
  if negb (JS.truthy_num (session_user c)) then refuse st 401 "Unauthorized"
  else if negb (is_admin c) && negb (may_pause c) then
    refuse st 403 "You do not have permission to pause licenses"
  else
    {| admin_response := Success None;
       admin_store :=
         set_licenses st
           ((fun l =>
               if String.eqb (app_id l) app && bulk_pausable now l
               then with_pause 1 (Some now) (expires_at l) l
               else l) <$> licenses st) |}.

(** [POST /api/applications/:app_id/unpause-all]: the paused rows of one
    application, whoever created them.  The clock is read while each row is
    handled: [nowFallbackAt k] and [nowAt k] are the readings made for the
    row with key [k]. *)
Definition unpauseAllForApp (nowFallbackAt nowAt : string -> Z) (c : Caller)
    (app : string) (st : Store) : AdminOutcome :=
  if negb (JS.truthy_num (session_user c)) then refuse st 401 "Unauthorized"
  else if negb (is_admin c) && negb (may_pause c) then
    refuse st 403 "You do not have permission to unpause licenses"
  else
    {| admin_response := Success None;
       admin_store :=
         set_licenses st
           (map_imap
              (fun k l =>
                 Some
                   (if String.eqb (app_id l) app && (is_paused l =? 1)
                    then
                      with_expires_at
                        (resumed_expiry (nowFallbackAt k) (nowAt k) l)
                        (with_pause 0 None None l)
                    else l))
              (licenses st)) |}.

(** ** Custom messages *)

Definition validKeys : list string :=
  ["invalid-app-id"; "invalid-license"; "version-mismatch"; "license-banned";
   "license-inactive"; "hwid-required"; "hwid-mismatch"; "license-expired";
   "license-paused"; "database-error"; "missing-params"]%string.

(** [INSERT OR REPLACE INTO custom_messages (user_id, app_id, message_key,
    message_value) VALUES (?, 'global', ?, ?)] under the uniqueness of
    (user_id, app_id, message_key). *)
Definition replace_message (user : UserId) (key value : string)
    (rows : list MessageRow) : list MessageRow :=
  List.filter
    (fun r => negb (same_user (msg_user_id r) (Some user)
                    && String.eqb (message_key r) key))
    rows
  ++ [{| msg_user_id := Some user; message_key := key;
         message_value := value |}].

(** The [updates] of the route: the valid keys the body carries, in the
    order of [validKeys]. *)
Definition message_updates (messages : gmap string string)
    : list (string * string) :=
  omap (fun key => (fun value => (key, value)) <$> messages !! key) validKeys.

(** [POST /api/messages]; [messages] is [None] when the body field is
    missing or not an object. *)
Definition saveMessages (c : Caller) (permitted : bool)
    (messages : option (gmap string string)) (st : Store) : AdminOutcome :=
  match session_user c with
  | Some user =>
      if user =? 0 then refuse st 401 "Unauthorized"
      else if negb permitted then
        refuse st 403 "You do not have permission to edit custom messages"
      else
        match messages with
        | None => refuse st 400 "Messages object is required"
        | Some msgs =>
            match message_updates msgs with
            | [] => refuse st 400 "No valid messages provided"
            | updates =>
                {| admin_response := Success None;
                   admin_store :=
                     set_messages st
                       (List.fold_left
                          (fun rows kv => replace_message user kv.1 kv.2 rows)
                          updates (custom_messages st)) |}
            end
        end
  | None => refuse st 401 "Unauthorized"
  end.

(** ** [POST /api/licenses/generate] *)

Record GenerateRequest : Type := {
  gen_app_id : option string;
  gen_duration_value : option Z;
  gen_duration_unit : option string;
  gen_is_unlimited : bool;
  gen_quantity : option Z
}.

Inductive GenerateResponse : Type :=
| GenerateFailure (status : Z) (error : string)
| Generated (license_keys : list string).

Record GenerateOutcome : Type := {
  generate_response : GenerateResponse;
  generate_store : Store
}.

(** [Math.max(1, Math.min(parseInt(quantity) || 1, 100))], with the default
    [quantity = 1] of the destructuring. *)
Definition numLicenses (quantity : option Z) : Z :=
  let q :=
    match parseInt (default 1 quantity) with
    | Some n => if n =? 0 then 1 else n
    | None => 1
    end in
  Z.max 1 (Z.min q 100).

(** The row the route inserts: no expiration, the column defaults
    elsewhere. *)
Definition new_license (app : string) (req : GenerateRequest)
    (user : option UserId) : License :=
  {| app_id := app;
     duration_value :=
       if JS.truthy_num (gen_duration_value req) then gen_duration_value req
       else None;
     duration_unit :=
       if JS.truthy_str (gen_duration_unit req) then gen_duration_unit req
       else None;
     is_unlimited := if gen_is_unlimited req then 1 else 0;
     expires_at := None; is_active := 1; locked_hwid := None;
     is_banned := 0; is_paused := 0; paused_at := None;
     paused_expires_at := None; created_by := user |}.

(** [tryInsert]: keys are generated until one is not in the table, at most
    [attempts] times.  [random n] is the random source of the [n]-th call
    of [generateLicenseKey] in the request; the result carries the number
    of calls made so far. *)
Fixpoint tryInsert (attempts : nat) (config : option FormatConfig)
    (random : nat -> nat -> Byte.byte) (calls : nat)
    (table : gmap string License) : option string * nat :=
  match attempts with
  | O => (None, calls)
  | S attempts' =>
      let licenseKey := generateLicenseKey config (random calls) in
      match table !! licenseKey with
      | Some _ => tryInsert attempts' config random (S calls) table
      | None => (Some licenseKey, S calls)
      end
  end.

(** [generateNextLicense]: [remaining] licenses are still to be inserted,
    [licenseKeys] are the keys inserted so far. *)
Fixpoint generateNextLicense (remaining : nat) (config : option FormatConfig)
    (random : nat -> nat -> Byte.byte) (calls : nat) (row : License)
    (licenseKeys : list string) (st : Store) : GenerateOutcome :=
  match remaining with
  | O => {| generate_response := Generated licenseKeys; generate_store := st |}
  | S remaining' =>
      match tryInsert 10 config random calls (licenses st) with
      | (None, _) =>
          {| generate_response :=
               GenerateFailure 500
                 "Failed to generate unique license key after multiple attempts";
             generate_store := st |}
      | (Some licenseKey, calls') =>
          generateNextLicense remaining' config random calls' row
            (licenseKeys ++ [licenseKey])
            (set_licenses st (<[licenseKey := row]> (licenses st)))
      end
  end.

(** [permitted] is the [licenses.create] entry, [allowed] the answer of
    [userHasAppAccess]. *)
Definition generateLicenses (c : Caller) (permitted allowed : bool)
    (config : option FormatConfig) (random : nat -> nat -> Byte.byte)
    (req : GenerateRequest) (st : Store) : GenerateOutcome :=
  let fail status error :=
    {| generate_response := GenerateFailure status error;
       generate_store := st |} in
  if negb (JS.truthy_num (session_user c)) then fail 401 "Unauthorized"%string
  else if negb permitted then
    fail 403 "You do not have permission to create licenses"%string
  else if negb (JS.truthy_str (gen_app_id req)) then
    fail 400 "app_id is required"%string
  else if negb (gen_is_unlimited req)
          && (negb (JS.truthy_num (gen_duration_value req))
              || negb (JS.truthy_str (gen_duration_unit req))) then
    fail 400
      "duration_value and duration_unit are required (or set is_unlimited to true)"%string
  else if negb allowed then fail 403 "Access denied"%string
  else
    let app := default ""%string (gen_app_id req) in
    match applications st !! app with
    | None => fail 404 "Application not found"%string
    | Some _ =>
        generateNextLicense (Z.to_nat (numLicenses (gen_quantity req))) config
          random 0 (new_license app req (session_user c)) [] st
    end.

(** ** Vocabulary of the further properties *)

(** [l'] is [l] up to its expiration and its locked hwid. *)
Definition same_but_expiry_and_lock (l l' : License) : Prop :=
  l' = with_locked_hwid (locked_hwid l') (with_expires_at (expires_at l') l).

Definition is_accepted (r : CheckResponse) : bool :=
  match r with
  | Accepted _ => true
  | _ => false
  end.

(** The usage row an accepted check writes. *)
Definition usage_row_of (req : CheckRequest) : UsageRow :=
  {| usage_license_key := default ""%string (body_license_key req);
     usage_hwid :=
       if JS.truthy_str (body_hwid req) then body_hwid req else None |}.

(** The tests that come before the hardware lock pass: the version gate
    does not reject and the license is neither banned nor paused. *)
Definition gates_pass (req : CheckRequest) (l : License) (a : Application)
    : Prop :=
  version_mismatched req a = false /\ is_banned l <> 1 /\ is_paused l <> 1.

Definition is_alphanumeric (c : ascii) : bool :=
  is_lowercase c || is_uppercase c || is_digit c.

(** The stores a check of the license [key] can end in, starting from
    [st]: the store itself, the store after a write to the expiration or
    the lock of that license, and either of them with a usage row added. *)
Inductive reached (key : string) (st : Store) : Store -> Prop :=
| reached_same : reached key st st
| reached_update f :
    (forall l, same_but_expiry_and_lock l (f l)) ->
    reached key st (update_license f key st)
| reached_usage st' row :
    reached key st st' -> reached key st (add_usage st' row).
(** * Properties *)

(** ** Numbers *)

Module NumberFacts.

Import JSNumber.

Lemma round53_exact x : Z.abs x < two53 -> round53 x = x.
Proof.
  intros H. unfold round53.
  destruct (Z.ltb_spec (Z.abs x) two53); [reflexivity | lia].
Qed.

Lemma add_exact a b : Z.abs (a + b) < two53 -> add a b = a + b.
Proof. apply round53_exact. Qed.

Lemma sub_exact a b : Z.abs (a - b) < two53 -> sub a b = a - b.
Proof. apply round53_exact. Qed.

Lemma mul_exact a b : Z.abs (a * b) < two53 -> mul a b = a * b.
Proof. apply round53_exact. Qed.

Lemma parseInt_exact n : Z.abs n < two53 -> parseInt n = Some n.
Proof.
  intros H. unfold parseInt. rewrite (round53_exact n H).
  assert (two53 < 10 ^ 21) by reflexivity.
  destruct (Z.ltb_spec (Z.abs n) (10 ^ 21)); [reflexivity | lia].
Qed.

(** Removes the roundings of the goal whose argument [lia] finds below
    [2 ^ 53], innermost first. *)
Ltac exact_arithmetic :=
  unfold add, sub, mul;
  repeat match goal with
         | |- context [round53 ?x] =>
             rewrite (round53_exact x) by (unfold two53; lia)
         end.

(** [parseInt(1e21)] reads the text [1e+21]. *)
Example parseInt_exponent_form :
  parseInt (10 ^ 21) = Some 1 /\ parseInt (25 * 10 ^ 20) = Some 2
  /\ parseInt (- 10 ^ 22) = Some (-1) /\ parseInt (2 ^ 1024) = None.
Proof. vm_compute. repeat split; reflexivity. Qed.

(** Above [2 ^ 53] a double is even: [2 ^ 53 + 1] is read as [2 ^ 53] and
    [2 ^ 53 + 3] as [2 ^ 53 + 4]. *)
Example round53_ties_to_even :
  round53 (two53 + 1) = two53 /\ round53 (two53 + 3) = two53 + 4.
Proof. vm_compute. split; reflexivity. Qed.

End NumberFacts.

(** ** Calendar arithmetic *)

Module DateFacts.

Import NumberFacts.

Example year_epoch : YearFromTime 0 = 1970.
Proof. reflexivity. Qed.

Example date_leap_day :
  (* 2024-02-29T12:00:00.000Z *)
  (YearFromTime 1709208000000, MonthFromTime 1709208000000,
   DateFromTime 1709208000000, HourFromTime 1709208000000) = (2024, 1, 29, 12).
Proof. vm_compute. reflexivity. Qed.

Example date_before_epoch :
  (* 1969-12-31T23:59:59.999Z *)
  (YearFromTime (-1), MonthFromTime (-1), DateFromTime (-1),
   HourFromTime (-1), MinFromTime (-1), SecFromTime (-1), msFromTime (-1))
  = (1969, 11, 31, 23, 59, 59, 999).
Proof. vm_compute. reflexivity. Qed.

Lemma YearFromTime_spec t :
  DayFromYear (YearFromTime t) <= Day t < DayFromYear (YearFromTime t + 1).
Proof.
  unfold YearFromTime. set (d := Day t). clearbody d.
  set (y := 1970 + d * 400 / 146097).
  destruct (Z.ltb_spec d (DayFromYear y)).
  - replace (y - 1 + 1) with y by lia. split; [|lia].
    unfold DayFromYear in *. subst y. Z.to_euclidean_division_equations. lia.
  - destruct (Z.leb_spec (DayFromYear (y + 1)) d).
    + split; [lia|].
      unfold DayFromYear in *. subst y. Z.to_euclidean_division_equations. lia.
    + lia.
Qed.

Lemma MonthFromTime_range t : 0 <= MonthFromTime t < 12.
Proof.
  unfold MonthFromTime.
  repeat match goal with |- context [if ?b then _ else _] => destruct b end; lia.
Qed.

Lemma DayWithinYear_range t : 0 <= DayWithinYear t < 366.
Proof.
  pose proof (YearFromTime_spec t) as H. unfold DayWithinYear.
  set (y := YearFromTime t) in *. clearbody y.
  assert (DayFromYear (y + 1) - DayFromYear y <= 366).
  { unfold DayFromYear. Z.to_euclidean_division_equations. lia. }
  lia.
Qed.

Lemma DateFromTime_range t : -400 < DateFromTime t < 400.
Proof.
  pose proof (DayWithinYear_range t) as H.
  pose proof (MonthFromTime_range t) as Hm.
  unfold DateFromTime, InLeapYear.
  set (m := MonthFromTime t) in *. clearbody m.
  assert (0 <= MonthStart m (if DaysInYear (YearFromTime t) =? 366 then 1 else 0)
          <= 335).
  { destruct (DaysInYear (YearFromTime t) =? 366);
      assert (m = 0 \/ m = 1 \/ m = 2 \/ m = 3 \/ m = 4 \/ m = 5 \/ m = 6
              \/ m = 7 \/ m = 8 \/ m = 9 \/ m = 10 \/ m = 11) as Hc by lia;
      repeat (destruct Hc as [-> | Hc]; [simpl; lia|]); subst m; simpl; lia. }
  lia.
Qed.

Lemma time_fields t :
  HourFromTime t * msPerHour + MinFromTime t * msPerMinute
  + SecFromTime t * msPerSecond + msFromTime t = TimeWithinDay t
  /\ 0 <= HourFromTime t < 24 /\ 0 <= MinFromTime t < 60
  /\ 0 <= SecFromTime t < 60 /\ 0 <= msFromTime t < 1000
  /\ 0 <= TimeWithinDay t < msPerDay
  /\ Day t * msPerDay + TimeWithinDay t = t.
Proof.
  unfold HourFromTime, MinFromTime, SecFromTime, msFromTime,
    TimeWithinDay, Day, msPerHour, msPerMinute, msPerSecond, msPerDay.
  Z.to_euclidean_division_equations. lia.
Qed.

(** The day number [MakeDay] finds for the year and the month of [t] and a
    date moved by [n], in exact arithmetic. *)
Lemma MakeDay_days t n :
  let ym := YearFromTime t + MonthFromTime t / 12 in
  let mn := MonthFromTime t mod 12 in
  let leap := if DaysInYear ym =? 366 then 1 else 0 in
  DayFromYear ym + MonthStart mn leap + (DateFromTime t + n) - 1 = Day t + n.
Proof.
  pose proof (MonthFromTime_range t) as Hm.
  rewrite (Z.div_small (MonthFromTime t) 12) by lia.
  rewrite (Z.mod_small (MonthFromTime t) 12) by lia.
  rewrite Z.add_0_r.
  unfold DateFromTime, DayWithinYear, InLeapYear. lia.
Qed.

Lemma MakeDay_shift t n :
  Z.abs (Day t) + Z.abs n + 1 < JSNumber.two53 ->
  MakeDay (YearFromTime t) (MonthFromTime t) (DateFromTime t + n) = Day t + n.
Proof.
  intros Hb. pose proof (MakeDay_days t n) as H. unfold MakeDay.
  cbv zeta in H.
  rewrite add_exact by lia. rewrite sub_exact by lia. exact H.
Qed.

Section Setters.
Variable tz : TimeZone.
Hypothesis proper : proper_zone tz.

Lemma LocalTime_exact d :
  valid_time d -> LocalTime tz d = d + tza_of_utc tz d.
Proof.
  intros Hd. destruct (proper d) as [H _].
  unfold LocalTime. apply add_exact.
  unfold valid_time, maxTime, msPerDay, JSNumber.two53 in *. lia.
Qed.

Lemma UTC_exact x :
  Z.abs x <= maxTime + 2 * msPerDay -> UTC tz x = x - tza_of_local tz x.
Proof.
  intros Hx. destruct (proper x) as [_ H].
  unfold UTC. apply sub_exact.
  unfold maxTime, msPerDay, JSNumber.two53 in *. lia.
Qed.

Lemma TimeClip_valid t : valid_time t -> TimeClip t = TimeValue t.
Proof.
  unfold valid_time, TimeClip. intros H.
  destruct (Z.leb_spec (Z.abs t) maxTime); [reflexivity | lia].
Qed.

(** What the hypotheses of the setter lemmas give: the local time of the
    clock reading and the local time of the result are below [2 ^ 53] with
    room for one more day. *)
Lemma local_bounds d span :
  valid_time d ->
  valid_time (d + tza_of_utc tz d + span
              - tza_of_local tz (d + tza_of_utc tz d + span)) ->
  Z.abs (d + tza_of_utc tz d) <= maxTime + msPerDay
  /\ Z.abs (d + tza_of_utc tz d + span) <= maxTime + msPerDay.
Proof.
  intros Hd Hr. destruct (proper d) as [H1 _].
  destruct (proper (d + tza_of_utc tz d + span)) as [_ H2].
  unfold valid_time in *. lia.
Qed.

Lemma setDate_add d n :
  valid_time d -> Z.abs (n * msPerDay) <= maxTime ->
  valid_time (add_duration tz d n "days") ->
  setDate tz d (JSNumber.plus (getDate tz d) (Some n))
  = TimeValue (add_duration tz d n "days").
Proof.
  intros Hd Hn Hr. unfold add_duration, unit_ms in *. simpl in Hr |- *.
  destruct (local_bounds d _ Hd Hr) as [Hl Hl'].
  unfold setDate, getDate. rewrite (LocalTime_exact d Hd).
  set (t := d + tza_of_utc tz d) in *.
  pose proof (time_fields t) as (_ & _ & _ & _ & _ & Hw & Ht).
  pose proof (DateFromTime_range t) as Hdt.
  unfold maxTime, msPerDay, JSNumber.two53 in *.
  rewrite add_exact by (unfold JSNumber.two53; lia).
  rewrite MakeDay_shift by (unfold JSNumber.two53; lia).
  unfold MakeDate.
  rewrite mul_exact by (unfold msPerDay, JSNumber.two53; lia).
  rewrite add_exact by (unfold msPerDay, JSNumber.two53; lia).
  replace ((Day t + n) * msPerDay + TimeWithinDay t) with (t + n * 86400000)
    by (unfold msPerDay; lia).
  rewrite UTC_exact by (unfold maxTime, msPerDay; lia).
  apply TimeClip_valid. exact Hr.
Qed.

Lemma setHours_add d n :
  valid_time d -> Z.abs (n * msPerHour) <= maxTime ->
  valid_time (add_duration tz d n "hours") ->
  setHours tz d (JSNumber.plus (getHours tz d) (Some n))
  = TimeValue (add_duration tz d n "hours").
Proof.
  intros Hd Hn Hr. unfold add_duration, unit_ms in *. simpl in Hr |- *.
  destruct (local_bounds d _ Hd Hr) as [Hl Hl'].
  unfold setHours, getHours. rewrite (LocalTime_exact d Hd).
  set (t := d + tza_of_utc tz d) in *.
  pose proof (time_fields t) as (Hf & Hh & Hm & Hs & Hms & Hw & Ht).
  unfold MakeDate, MakeTime. simpl.
  unfold maxTime, msPerDay, msPerHour, msPerMinute, msPerSecond in *.
  exact_arithmetic.
  replace (Day t * 86400000
           + ((HourFromTime t + n) * 3600000 + MinFromTime t * 60000
              + SecFromTime t * 1000 + msFromTime t))
    with (t + n * 3600000) by lia.
  rewrite UTC_exact by (unfold maxTime, msPerDay; lia).
  apply TimeClip_valid. exact Hr.
Qed.

Lemma setMinutes_add d n :
  valid_time d -> Z.abs (n * msPerMinute) <= maxTime ->
  valid_time (add_duration tz d n "minutes") ->
  setMinutes tz d (JSNumber.plus (getMinutes tz d) (Some n))
  = TimeValue (add_duration tz d n "minutes").
Proof.
  intros Hd Hn Hr. unfold add_duration, unit_ms in *. simpl in Hr |- *.
  destruct (local_bounds d _ Hd Hr) as [Hl Hl'].
  unfold setMinutes, getMinutes. rewrite (LocalTime_exact d Hd).
  set (t := d + tza_of_utc tz d) in *.
  pose proof (time_fields t) as (Hf & Hh & Hm & Hs & Hms & Hw & Ht).
  unfold MakeDate, MakeTime. simpl.
  unfold maxTime, msPerDay, msPerHour, msPerMinute, msPerSecond in *.
  exact_arithmetic.
  replace (Day t * 86400000
           + (HourFromTime t * 3600000 + (MinFromTime t + n) * 60000
              + SecFromTime t * 1000 + msFromTime t))
    with (t + n * 60000) by lia.
  rewrite UTC_exact by (unfold maxTime, msPerDay; lia).
  apply TimeClip_valid. exact Hr.
Qed.

Lemma setSeconds_add d n :
  valid_time d -> Z.abs (n * msPerSecond) <= maxTime ->
  valid_time (add_duration tz d n "seconds") ->
  setSeconds tz d (JSNumber.plus (getSeconds tz d) (Some n))
  = TimeValue (add_duration tz d n "seconds").
Proof.
  intros Hd Hn Hr. unfold add_duration, unit_ms in *. simpl in Hr |- *.
  destruct (local_bounds d _ Hd Hr) as [Hl Hl'].
  unfold setSeconds, getSeconds. rewrite (LocalTime_exact d Hd).
  set (t := d + tza_of_utc tz d) in *.
  pose proof (time_fields t) as (Hf & Hh & Hm & Hs & Hms & Hw & Ht).
  unfold MakeDate, MakeTime. simpl.
  unfold maxTime, msPerDay, msPerHour, msPerMinute, msPerSecond in *.
  exact_arithmetic.
  replace (Day t * 86400000
           + (HourFromTime t * 3600000 + MinFromTime t * 60000
              + (SecFromTime t + n) * 1000 + msFromTime t))
    with (t + n * 1000) by lia.
  rewrite UTC_exact by (unfold maxTime, msPerDay; lia).
  apply TimeClip_valid. exact Hr.
Qed.

End Setters.

Lemma fixed_zone_fixed off : fixed_offset (fixed_zone off).
Proof. exists off. intros t. split; reflexivity. Qed.

Lemma fixed_zone_proper off : Z.abs off <= msPerDay -> proper_zone (fixed_zone off).
Proof. intros H t. split; exact H. Qed.

Lemma add_duration_fixed tz now v u :
  fixed_offset tz -> add_duration tz now v u = now + v * unit_ms u.
Proof.
  intros [off Hoff]. unfold add_duration.
  destruct (Hoff now) as [-> _].
  destruct (Hoff (now + off + v * unit_ms u)) as [_ ->]. lia.
Qed.

Lemma unit_ms_cases u :
  unit_ms u = msPerSecond \/ unit_ms u = msPerMinute
  \/ unit_ms u = msPerHour \/ unit_ms u = msPerDay.
Proof.
  unfold unit_ms.
  repeat match goal with |- context [String.eqb ?a ?b] => destruct (String.eqb a b) end;
    auto.
Qed.

Lemma duration_below_two53 v u :
  Z.abs (v * unit_ms u) <= maxTime -> Z.abs v < JSNumber.two53.
Proof.
  intros H.
  destruct (unit_ms_cases u) as [E | [E | [E | E]]]; rewrite E in H;
    unfold msPerSecond, msPerMinute, msPerHour, msPerDay, maxTime,
      JSNumber.two53 in *; lia.
Qed.

(** The result for a unit that is none of the four is computed by the
    [default] case, which is the case of days. *)
Lemma calculateExpirationDate_default tz now v u unlimited :
  u <> "seconds"%string -> u <> "minutes"%string -> u <> "hours"%string ->
  calculateExpirationDate tz now v u unlimited
  = calculateExpirationDate tz now v "days" unlimited.
Proof.
  intros Hs Hm Hh. apply String.eqb_neq in Hs, Hm, Hh.
  unfold calculateExpirationDate. rewrite Hs, Hm, Hh.
  change (String.eqb "days" "seconds") with false.
  change (String.eqb "days" "minutes") with false.
  change (String.eqb "days" "hours") with false.
  change (String.eqb "days" "days") with true.
  cbv iota. destruct (String.eqb u "days"); reflexivity.
Qed.

Lemma calculateExpirationDate_add tz now v u :
  proper_zone tz -> valid_time now -> Z.abs (v * unit_ms u) <= maxTime ->
  valid_time (add_duration tz now v u) ->
  calculateExpirationDate tz now v u false
  = Some (TimeValue (add_duration tz now v u)).
Proof.
  intros Hz Hnow Hv Hr.
  pose proof (parseInt_exact v (duration_below_two53 v u Hv)) as Hp.
  unfold calculateExpirationDate, parseInt. rewrite Hp. clear Hp.
  destruct (String.eqb_spec u "seconds") as [-> | Hs];
    [f_equal; apply setSeconds_add; assumption|].
  destruct (String.eqb_spec u "minutes") as [-> | Hm];
    [f_equal; apply setMinutes_add; assumption|].
  destruct (String.eqb_spec u "hours") as [-> | Hh];
    [f_equal; apply setHours_add; assumption|].
  assert (unit_ms u = msPerDay) as Hu.
  { apply String.eqb_neq in Hs, Hm, Hh. unfold unit_ms.
    rewrite Hs, Hm, Hh. reflexivity. }
  assert (add_duration tz now v u = add_duration tz now v "days") as Ha.
  { unfold add_duration. rewrite Hu. reflexivity. }
  rewrite Ha in *. rewrite Hu in Hv.
  destruct (String.eqb u "days"); f_equal; apply setDate_add; assumption.
Qed.

End DateFacts.

(** ** The expiration calculator *)

(** C8.  [calculateExpirationDate] returns [null] exactly when
    [isUnlimited] holds.  Otherwise, for a whole number [v] of units, a
    clock reading in the range of [Date], a span of at most 8.64e15 ms and
    a result in the range of [Date], it returns the instant [v] units
    after [now] on the local clock of the server; where the zone keeps one
    offset this is [now] plus [v] times 1000, 60000, 3600000 or 86400000
    milliseconds for seconds, minutes, hours and days, so with unit days
    and now = T exactly T + v days.  Any other unit gives the result of
    days, for every [v]. *)
Theorem calculateExpirationDate_spec :
  forall (tz : TimeZone) (now v : Z) (u : string),
    (forall unlimited,
        calculateExpirationDate tz now v u unlimited = None <-> unlimited = true)
    /\ (proper_zone tz -> valid_time now ->
        Z.abs (v * unit_ms u) <= maxTime ->
        valid_time (add_duration tz now v u) ->
        calculateExpirationDate tz now v u false
        = Some (TimeValue (add_duration tz now v u)))
    /\ (proper_zone tz -> fixed_offset tz -> valid_time now ->
        (Z.abs (v * 1000) <= maxTime -> valid_time (now + v * 1000) ->
         calculateExpirationDate tz now v "seconds" false
         = Some (TimeValue (now + v * 1000)))
        /\ (Z.abs (v * 60000) <= maxTime -> valid_time (now + v * 60000) ->
            calculateExpirationDate tz now v "minutes" false
            = Some (TimeValue (now + v * 60000)))
        /\ (Z.abs (v * 3600000) <= maxTime -> valid_time (now + v * 3600000) ->
            calculateExpirationDate tz now v "hours" false
            = Some (TimeValue (now + v * 3600000)))
        /\ (Z.abs (v * 86400000) <= maxTime -> valid_time (now + v * 86400000) ->
            calculateExpirationDate tz now v "days" false
            = Some (TimeValue (now + v * 86400000))))
    /\ (u <> "seconds"%string -> u <> "minutes"%string -> u <> "hours"%string ->
        forall unlimited,
          calculateExpirationDate tz now v u unlimited
          = calculateExpirationDate tz now v "days" unlimited).
Proof.
  intros tz now v u. split; [|split; [|split]].
  - intros unlimited. split.
    + destruct unlimited; [reflexivity | discriminate].
    + intros ->. reflexivity.
  - apply DateFacts.calculateExpirationDate_add.
  - intros Hz Hf Hnow.
    assert (forall w, Z.abs (v * unit_ms w) <= maxTime ->
                      valid_time (now + v * unit_ms w) ->
                      calculateExpirationDate tz now v w false
                      = Some (TimeValue (now + v * unit_ms w))) as H.
    { intros w Hv Hr. rewrite <- (DateFacts.add_duration_fixed tz now v w Hf) in *.
      apply DateFacts.calculateExpirationDate_add; assumption. }
    split; [|split; [|split]]; intros Hv Hr.
    + exact (H "seconds"%string Hv Hr).
    + exact (H "minutes"%string Hv Hr).
    + exact (H "hours"%string Hv Hr).
    + exact (H "days"%string Hv Hr).
  - intros Hs Hm Hh unlimited.
    apply DateFacts.calculateExpirationDate_default; assumption.
Qed.

(** At 2023-11-14T22:13:20Z on a server running in UTC, three days. *)
Lemma calculateExpirationDate_spec_witness :
  calculateExpirationDate (fixed_zone 0) 1700000000000 3 "days" false
  = Some (TimeValue (1700000000000 + 3 * 86400000)).
Proof.
  destruct (calculateExpirationDate_spec (fixed_zone 0) 1700000000000 3 "days")
    as (_ & _ & H & _).
  assert (proper_zone (fixed_zone 0)) as Hz.
  { apply DateFacts.fixed_zone_proper. vm_compute. discriminate. }
  assert (valid_time 1700000000000) as Hnow.
  { vm_compute. discriminate. }
  destruct (H Hz (DateFacts.fixed_zone_fixed 0) Hnow) as (_ & _ & _ & Hdays).
  apply Hdays.
  - vm_compute. discriminate.
  - vm_compute. discriminate.
Defined.

(** Where the statement of the specification fails.  A license of
    [10 ^ 9] days leads beyond the range of [Date]: the result is the
    invalid date.  A duration of [10 ^ 21] days is read by [parseInt] from
    its text [1e+21] and counts as one day.  On a server whose zone moves
    its clock forward by an hour at [t0 + 12h], one day added at [t0] is
    twenty-three hours of elapsed time. *)
Lemma calculateExpirationDate_beyond_range :
  calculateExpirationDate Sample.utc Sample.t0 (10 ^ 9) "days" false
  = Some InvalidDate
  /\ calculateExpirationDate Sample.utc Sample.t0 (10 ^ 21) "days" false
     = Some (TimeValue (Sample.t0 + 1 * 86400000))
  /\ (let shift := Sample.t0 + 12 * msPerHour in
      let zone :=
        {| tza_of_utc := fun t => if t <? shift then 0 else msPerHour;
           tza_of_local := fun t => if t <? shift then 0 else msPerHour |} in
      calculateExpirationDate zone Sample.t0 1 "days" false
      = Some (TimeValue (Sample.t0 + 23 * msPerHour))).
Proof. vm_compute. repeat split; reflexivity. Qed.

(** ** The key generator *)

Module KeyFacts.

Lemma append_nil_l (b : string) : ("" ++ b)%string = b.
Proof. reflexivity. Qed.

Lemma append_cons (x : ascii) (a b : string) :
  (String x a ++ b)%string = String x (a ++ b)%string.
Proof. reflexivity. Qed.

Lemma append_assoc (a b c : string) : ((a ++ b) ++ c = a ++ (b ++ c))%string.
Proof.
  induction a as [|x a IH]; [reflexivity|].
  rewrite !append_cons, IH. reflexivity.
Qed.

Lemma append_empty_r (a : string) : (a ++ "")%string = a.
Proof.
  induction a as [|x a IH]; [reflexivity|].
  rewrite append_cons, IH. reflexivity.
Qed.

Lemma get_lt (s : string) (n : nat) :
  (n < String.length s)%nat -> exists c, String.get n s = Some c.
Proof.
  revert n. induction s as [|x s IH]; intros n Hn; simpl in *; [lia|].
  destruct n as [|n]; [eauto | apply IH; lia].
Qed.

Lemma get_In (s : string) (n : nat) (c : ascii) :
  String.get n s = Some c -> In c (list_ascii_of_string s).
Proof.
  revert n. induction s as [|x s IH]; intros n Hn; simpl in *; [discriminate|].
  destruct n as [|n]; [left; congruence | right; eauto].
Qed.

(** What one position of the format adds to the key. *)
Definition piece (chars : string) (buffer : list Byte.byte) (i : nat)
    (c : ascii) : string :=
  if Ascii.eqb c "*" then random_character chars buffer i
  else String c EmptyString.

Lemma fill_format_acc rest : forall i chars buffer acc,
  fill_format rest i chars buffer acc
  = (acc ++ fill_format rest i chars buffer "")%string.
Proof.
  induction rest as [|c rest IH]; intros i chars buffer acc; simpl.
  - now rewrite append_empty_r.
  - rewrite append_nil_l, IH.
    rewrite (IH _ _ _ (if Ascii.eqb c "*" then _ else _)).
    now rewrite append_assoc.
Qed.

Lemma fill_format_step c rest i chars buffer :
  fill_format (String c rest) i chars buffer ""
  = (piece chars buffer i c ++ fill_format rest (S i) chars buffer "")%string.
Proof. simpl. rewrite append_nil_l. apply fill_format_acc. Qed.

Lemma piece_single chars buffer i c :
  chars <> ""%string ->
  exists k, piece chars buffer i c = String k EmptyString
            /\ (c <> "*"%char -> k = c)
            /\ (c = "*"%char -> In k (list_ascii_of_string chars)).
Proof.
  intros Hne. unfold piece.
  destruct (Ascii.eqb_spec c "*") as [->|Hc].
  - unfold random_character.
    destruct (get_lt chars
                (Byte.to_nat (nth i buffer Byte.x00) mod String.length chars))
      as [k Hk].
    { apply Nat.mod_upper_bound. destruct chars; simpl; [congruence | lia]. }
    rewrite Hk. exists k. split; [reflexivity|]. split; [congruence|].
    intros _. eapply get_In; eauto.
  - exists c. split; [reflexivity|]. split; [reflexivity | congruence].
Qed.

Lemma fill_format_shape chars buffer :
  chars <> ""%string ->
  forall rest i,
    String.length (fill_format rest i chars buffer "") = String.length rest
    /\ forall j c, String.get j rest = Some c ->
         exists k, String.get j (fill_format rest i chars buffer "") = Some k
                   /\ (c <> "*"%char -> k = c)
                   /\ (c = "*"%char -> In k (list_ascii_of_string chars)).
Proof.
  intros Hne. induction rest as [|x rest IH]; intros i.
  - split; [reflexivity | intros j c Hj; destruct j; discriminate].
  - rewrite fill_format_step.
    destruct (piece_single chars buffer i x Hne) as (k & -> & Hlit & Hwild).
    destruct (IH (S i)) as [Hlen Hpos].
    rewrite append_cons, append_nil_l. simpl. split; [now rewrite Hlen|].
    intros [|j] c Hj; simpl in Hj.
    + injection Hj as <-. exists k. auto.
    + apply Hpos, Hj.
Qed.

Lemma character_set_allowed (o : FormatOptions) (k : ascii) :
  existsb (Ascii.eqb k) (list_ascii_of_string (character_set o)) = allowed o k.
Proof.
  destruct o as [[|] [|] [|]];
    destruct k as [[|] [|] [|] [|] [|] [|] [|] [|]]; reflexivity.
Qed.

Lemma character_set_In (o : FormatOptions) (k : ascii) :
  In k (list_ascii_of_string (character_set o)) <-> allowed o k = true.
Proof.
  rewrite <- character_set_allowed, existsb_exists. split.
  - intros H. exists k. split; [assumption | apply Ascii.eqb_refl].
  - intros (x & Hx & Heq). apply Ascii.eqb_eq in Heq. now subst.
Qed.

Lemma character_set_nonempty (o : FormatOptions) : character_set o <> ""%string.
Proof. destruct o as [[|] [|] [|]]; discriminate. Qed.

End KeyFacts.

(** C9, as amended.  For every format that is not empty and every setting
    of the three toggles, the key has the length of the format, carries
    every character of the format other than the wildcard at its position,
    and has at every wildcard position a character that is a lowercase
    letter, or an uppercase letter, digit or special character whose toggle
    is on; each such character is in the set the wildcards are filled
    from. *)
Theorem generateLicenseKey_shape :
  forall (template : string) (o : FormatOptions) (source : nat -> Byte.byte),
    template <> ""%string ->
    let key :=
      generateLicenseKey (Some {| format := template; options := Some o |})
        source in
    String.length key = String.length template
    /\ (forall i c, String.get i template = Some c -> c <> "*"%char ->
          String.get i key = Some c)
    /\ (forall i, String.get i template = Some "*"%char ->
          exists k, String.get i key = Some k /\ allowed o k = true)
    /\ (forall k, allowed o k = true <->
          In k (list_ascii_of_string (character_set o))).
Proof.
  intros template o source Hne key. subst key.
  unfold generateLicenseKey, effective_format, effective_options. simpl.
  apply String.eqb_neq in Hne. rewrite Hne.
  destruct (KeyFacts.fill_format_shape (character_set o)
              (randomBytes source (String.length template))
              (KeyFacts.character_set_nonempty o) template 0%nat)
    as [Hlen Hpos].
  repeat split.
  - exact Hlen.
  - intros i c Hi Hc. destruct (Hpos i c Hi) as (k & Hk & Hlit & _).
    rewrite Hk, (Hlit Hc). reflexivity.
  - intros i Hi. destruct (Hpos i _ Hi) as (k & Hk & _ & Hwild).
    exists k. split; [exact Hk|]. apply KeyFacts.character_set_In. auto.
  - apply KeyFacts.character_set_In.
  - apply KeyFacts.character_set_In.
Qed.

(** The format [VARP-**] with the digits toggle on and a source of zero
    bytes. *)
Lemma generateLicenseKey_shape_witness :
  String.length
    (generateLicenseKey
       (Some {| format := "VARP-**"; options := Some default_options |})
       (fun _ => Byte.x00))
  = String.length "VARP-**".
Proof.
  apply (generateLicenseKey_shape "VARP-**" default_options (fun _ => Byte.x00)).
  discriminate.
Defined.

(** C9 as stated fails at the empty format: the generator then fills the
    default format of ten wildcards. *)
Lemma generateLicenseKey_empty_format :
  let cfg := {| format := ""; options := Some default_options |} in
  generateLicenseKey (Some cfg) (fun _ => Byte.x00) = "aaaaaaaaaa"%string
  /\ String.length (generateLicenseKey (Some cfg) (fun _ => Byte.x00))
     <> String.length (format cfg).
Proof. split; [reflexivity | discriminate]. Qed.

(** ** The check handler *)

Module CheckFacts.

Lemma checkLicense_found tz now nowActivation st req l a :
  row_found st req = Some (l, a) ->
  checkLicense tz now nowActivation st req
  = check_row tz now nowActivation st req
      (default ""%string (body_license_key req)) l a.
Proof.
  unfold row_found, checkLicense. intros H.
  destruct (JS.truthy_str (body_app_id req)); [|discriminate].
  destruct (JS.truthy_str (body_license_key req)); [|discriminate].
  simpl in *. rewrite H. reflexivity.
Qed.

Lemma row_found_lookup st req l a :
  row_found st req = Some (l, a) ->
  licenses st !! default ""%string (body_license_key req) = Some l
  /\ is_active l = 1.
Proof.
  unfold row_found, find_license_for_check. intros H.
  destruct (_ && _); [|discriminate].
  destruct (licenses st !! _) as [l0|]; [|discriminate].
  destruct (String.eqb _ _); [|discriminate].
  destruct (Z.eqb_spec (is_active l0) 1); [|discriminate]. simpl in H.
  destruct (applications st !! _); [|discriminate].
  injection H as -> ->. auto.
Qed.

Lemma lookup_update_license f key st :
  licenses (update_license f key st) !! key = f <$> licenses st !! key.
Proof. unfold update_license. simpl. apply lookup_alter_eq. Qed.

Lemma awaits_activation_intro l :
  is_unlimited l = 0 -> expires_at l = None ->
  JS.truthy_num (duration_value l) = true ->
  JS.truthy_str (duration_unit l) = true ->
  awaits_activation l = true.
Proof.
  intros Hu He Hv Hd. unfold awaits_activation.
  rewrite Hu, He, Hv, Hd. reflexivity.
Qed.

Lemma trim_empty_not_blank (s : string) : JS.trim s <> ""%string -> s <> ""%string.
Proof. intros H ->. apply H. reflexivity. Qed.

End CheckFacts.

(** C1, as amended.  When the row found for a check is banned and its
    expiration lies in the past, the check never answers with the expired
    reason and writes nothing; it answers with the banned reason whenever
    the version gate, which is tested first, does not reject. *)
Theorem banned_precedes_expired :
  forall (tz : TimeZone) (now nowActivation : Z) (st : Store)
         (req : CheckRequest) (l : License) (a : Application) (e : Z),
    row_found st req = Some (l, a) ->
    is_banned l = 1 ->
    expires_at l = Some e ->
    e < now ->
    let out := checkLicense tz now nowActivation st req in
    (forall msg, response out <> Rejected license_expired msg)
    /\ (version_mismatched req a = false ->
        exists msg, response out = Rejected license_banned msg)
    /\ store_after out = st.
Proof.
  intros tz now nowActivation st req l a e Hfound Hban He Hpast out.
  subst out. rewrite (CheckFacts.checkLicense_found _ _ _ _ _ _ _ Hfound).
  unfold check_row. rewrite Hban. simpl.
  destruct (version_mismatched req a); simpl.
  - split; [intros msg; discriminate|]. split; [discriminate | reflexivity].
  - split; [intros msg; discriminate|]. split; [eauto | reflexivity].
Qed.

(** A banned license that expired a day ago, checked without a version. *)
Lemma banned_precedes_expired_witness :
  exists msg,
    response
      (checkLicense Sample.utc Sample.t0 Sample.t0
         (Sample.store (Some 1)
            (Sample.license 0 1 0 (Some (Sample.t0 - Sample.day)) None None None))
         (Sample.request (Some "H1"%string) None))
    = Rejected license_banned msg.
Proof.
  refine (proj1 (proj2 (banned_precedes_expired Sample.utc Sample.t0 Sample.t0
            (Sample.store (Some 1)
               (Sample.license 0 1 0 (Some (Sample.t0 - Sample.day)) None None None))
            (Sample.request (Some "H1"%string) None)
            _ _ (Sample.t0 - Sample.day) _ _ _ _)) _).
  - vm_compute. reflexivity.
  - reflexivity.
  - reflexivity.
  - vm_compute. reflexivity.
  - reflexivity.
Defined.

(** C1 as stated fails when the request carries a version other than the
    one the application requires: the version gate answers first. *)
Lemma banned_and_expired_version_gate :
  let l := Sample.license 0 1 0 (Some (Sample.t0 - Sample.day)) None None None in
  let st := Sample.store (Some 1) l in
  let req := Sample.request (Some "H1"%string) (Some "0.9.0"%string) in
  row_found st req = Some (l, Sample.demo_app (Some 1))
  /\ is_banned l = 1
  /\ expires_at l = Some (Sample.t0 - Sample.day)
  /\ Sample.t0 - Sample.day < Sample.t0
  /\ (forall msg,
        response (checkLicense Sample.utc Sample.t0 Sample.t0 st req)
        <> Rejected license_banned msg)
  /\ exists msg,
       response (checkLicense Sample.utc Sample.t0 Sample.t0 st req)
       = Rejected version_mismatch msg.
Proof.
  cbv zeta. split; [vm_compute; reflexivity|].
  split; [reflexivity|]. split; [reflexivity|]. split; [reflexivity|]. split.
  - intros msg H. vm_compute in H. discriminate.
  - vm_compute. eauto.
Qed.

(** C6, as amended.  A check of a duration license that has no expiration
    yet, on an application with the hardware lock on, with a missing or
    empty hwid writes nothing: the store is the one before the check, so
    [expires_at] stays null and [locked_hwid] stays as it was.  The answer
    is the hwid-required rejection whenever none of the earlier tests
    (version gate, ban, pause) rejects. *)
Theorem missing_hwid_leaves_license_unactivated :
  forall (tz : TimeZone) (now nowActivation : Z) (st : Store)
         (req : CheckRequest) (l : License) (a : Application),
    row_found st req = Some (l, a) ->
    is_unlimited l = 0 ->
    expires_at l = None ->
    JS.truthy_num (duration_value l) = true ->
    JS.truthy_str (duration_unit l) = true ->
    hwid_lock_on a = true ->
    (body_hwid req = None \/ body_hwid req = Some ""%string) ->
    let out := checkLicense tz now nowActivation st req in
    store_after out = st
    /\ licenses (store_after out) !! default ""%string (body_license_key req)
       = Some l
    /\ (version_mismatched req a = false ->
        is_banned l <> 1 -> is_paused l <> 1 ->
        exists msg, response out = Rejected hwid_required msg).
Proof.
  intros tz now nowActivation st req l a Hfound Hu He Hv Hd Hlock Hhwid out.
  subst out. rewrite (CheckFacts.checkLicense_found _ _ _ _ _ _ _ Hfound).
  destruct (CheckFacts.row_found_lookup _ _ _ _ Hfound) as [Hl Hact].
  assert (Hblank : JS.missing_or_blank (body_hwid req) = true)
    by (destruct Hhwid as [-> | ->]; reflexivity).
  assert (Hstore :
    store_after (check_row tz now nowActivation st req
                   (default ""%string (body_license_key req)) l a) = st).
  { unfold check_row.
    rewrite (CheckFacts.awaits_activation_intro l Hu He Hv Hd), Hlock, Hblank.
    destruct (version_mismatched req a); [reflexivity|].
    destruct (is_banned l =? 1); [reflexivity|].
    destruct (is_paused l =? 1); [reflexivity|].
    destruct (is_active l =? 0); reflexivity. }
  split; [exact Hstore|]. split; [rewrite Hstore; exact Hl|].
  intros Hver Hban Hpause. unfold check_row.
  rewrite Hver, (CheckFacts.awaits_activation_intro l Hu He Hv Hd), Hlock, Hblank.
  apply Z.eqb_neq in Hban, Hpause. rewrite Hban, Hpause, Hact. simpl. eauto.
Qed.

(** A fresh thirty day license checked without a hwid. *)
Lemma missing_hwid_leaves_license_unactivated_witness :
  store_after
    (checkLicense Sample.utc Sample.t0 Sample.t0
       (Sample.store (Some 1) Sample.fresh) (Sample.request None None))
  = Sample.store (Some 1) Sample.fresh.
Proof.
  refine (proj1 (missing_hwid_leaves_license_unactivated Sample.utc Sample.t0
            Sample.t0 (Sample.store (Some 1) Sample.fresh)
            (Sample.request None None) Sample.fresh (Sample.demo_app (Some 1))
            _ _ _ _ _ _ _)).
  - vm_compute. reflexivity.
  - reflexivity.
  - reflexivity.
  - reflexivity.
  - reflexivity.
  - reflexivity.
  - left. reflexivity.
Defined.

(** C6 as stated fails for a banned license: the ban is tested before the
    hardware lock, so the answer carries the banned reason. *)
Lemma missing_hwid_on_banned_license :
  let l := Sample.license 0 1 0 None None None None in
  let st := Sample.store (Some 1) l in
  let req := Sample.request None None in
  row_found st req = Some (l, Sample.demo_app (Some 1))
  /\ awaits_activation l = true
  /\ hwid_lock_on (Sample.demo_app (Some 1)) = true
  /\ body_hwid req = None
  /\ (forall msg,
        response (checkLicense Sample.utc Sample.t0 Sample.t0 st req)
        <> Rejected hwid_required msg)
  /\ exists msg,
       response (checkLicense Sample.utc Sample.t0 Sample.t0 st req)
       = Rejected license_banned msg.
Proof.
  cbv zeta. split; [vm_compute; reflexivity|].
  split; [reflexivity|]. split; [reflexivity|]. split; [reflexivity|]. split.
  - intros msg H. vm_compute in H. discriminate.
  - vm_compute. eauto.
Qed.

(** C7, as amended.  A check that passes the version gate, of a duration
    license that is neither banned nor paused and has no expiration yet, on
    an application with the hardware lock on, with a hwid that is not blank
    (not empty once trimmed), where the configured duration spans at most
    8.64e15 ms and leads from the activation instant to an instant in the
    range of [Date], succeeds and activates the license in that one call:
    [expires_at] becomes the activation instant plus the configured
    duration and [locked_hwid] becomes the hwid. *)
Theorem first_check_activates :
  forall (tz : TimeZone) (now nowActivation : Z) (st : Store)
         (req : CheckRequest) (l : License) (a : Application)
         (H : string) (dv : Z) (du : string),
    row_found st req = Some (l, a) ->
    is_unlimited l = 0 ->
    expires_at l = None ->
    duration_value l = Some dv -> dv <> 0 ->
    duration_unit l = Some du -> du <> ""%string ->
    is_banned l <> 1 ->
    is_paused l <> 1 ->
    hwid_lock_on a = true ->
    body_hwid req = Some H -> JS.trim H <> ""%string ->
    version_mismatched req a = false ->
    proper_zone tz -> valid_time nowActivation ->
    Z.abs (dv * unit_ms du) <= maxTime ->
    valid_time (add_duration tz nowActivation dv du) ->
    let out := checkLicense tz now nowActivation st req in
    let activated := add_duration tz nowActivation dv du in
    (exists data, response out = Accepted data
                  /\ ok_expires_at data = Some activated
                  /\ ok_is_activated data = true)
    /\ licenses (store_after out) !! default ""%string (body_license_key req)
       = Some (with_locked_hwid (Some H) (with_expires_at (Some activated) l))
    /\ (fixed_offset tz -> activated = nowActivation + dv * unit_ms du).
Proof.
  intros tz now nowActivation st req l a H dv du Hfound Hu He Hdv Hdv0 Hdu Hdu0
    Hban Hpause Hlock Hhwid Htrim Hver Hzone Hnow Hspan Hrange out activated.
  subst out activated.
  rewrite (CheckFacts.checkLicense_found _ _ _ _ _ _ _ Hfound).
  destruct (CheckFacts.row_found_lookup _ _ _ _ Hfound) as [Hl Hact].
  pose proof (CheckFacts.trim_empty_not_blank H Htrim) as Hne.
  apply String.eqb_neq in Htrim, Hne, Hdu0.
  apply Z.eqb_neq in Hban, Hpause, Hdv0.
  assert (Hawait : awaits_activation l = true).
  { apply CheckFacts.awaits_activation_intro; auto.
    - rewrite Hdv. simpl. now rewrite Hdv0.
    - rewrite Hdu. simpl. now rewrite Hdu0. }
  unfold check_row.
  rewrite Hver, Hban, Hpause, Hact, Hawait, Hlock, Hhwid, Hdv, Hdu.
  simpl default.
  rewrite (DateFacts.calculateExpirationDate_add _ _ _ _ Hzone Hnow Hspan Hrange).
  simpl. rewrite Hne, Htrim. simpl.
  split; [eexists; repeat split; reflexivity|]. split.
  - rewrite lookup_alter_eq, Hl. reflexivity.
  - apply DateFacts.add_duration_fixed.
Qed.

(** A fresh thirty day license checked with hwid [H1]. *)
Lemma first_check_activates_witness :
  licenses
    (store_after
       (checkLicense Sample.utc Sample.t0 Sample.t0
          (Sample.store (Some 1) Sample.fresh)
          (Sample.request (Some "H1"%string) None))) !! "KEY-1"%string
  = Some (with_locked_hwid (Some "H1"%string)
            (with_expires_at (Some (add_duration Sample.utc Sample.t0 30 "days"))
               Sample.fresh)).
Proof.
  refine (proj1 (proj2 (first_check_activates Sample.utc Sample.t0 Sample.t0
            (Sample.store (Some 1) Sample.fresh)
            (Sample.request (Some "H1"%string) None)
            Sample.fresh (Sample.demo_app (Some 1)) "H1" 30 "days"
            _ _ _ _ _ _ _ _ _ _ _ _ _ _ _ _ _))).
  - vm_compute. reflexivity.
  - reflexivity.
  - reflexivity.
  - reflexivity.
  - discriminate.
  - reflexivity.
  - discriminate.
  - discriminate.
  - discriminate.
  - reflexivity.
  - reflexivity.
  - vm_compute. discriminate.
  - reflexivity.
  - apply DateFacts.fixed_zone_proper. vm_compute. discriminate.
  - vm_compute. discriminate.
  - vm_compute. discriminate.
  - vm_compute. discriminate.
Defined.

(** C7 as stated fails for a hwid of white space only, which is not empty
    but is rejected as missing, for a request whose version differs from
    the required one, and for a license of [10 ^ 9] days, whose expiration
    is beyond the range of [Date]: [toISOString()] throws before anything
    is written. *)
Lemma first_check_without_activation :
  let st := Sample.store (Some 1) Sample.fresh in
  let blank := Sample.request (Some " "%string) None in
  let old := Sample.request (Some "H1"%string) (Some "0.9.0"%string) in
  let long := with_duration_value (Some (10 ^ 9)) Sample.fresh in
  let first := Sample.request (Some "H1"%string) None in
  row_found st blank = Some (Sample.fresh, Sample.demo_app (Some 1))
  /\ body_hwid blank <> None /\ body_hwid blank <> Some ""%string
  /\ (exists msg,
        response (checkLicense Sample.utc Sample.t0 Sample.t0 st blank)
        = Rejected hwid_required msg)
  /\ store_after (checkLicense Sample.utc Sample.t0 Sample.t0 st blank) = st
  /\ (exists msg,
        response (checkLicense Sample.utc Sample.t0 Sample.t0 st old)
        = Rejected version_mismatch msg)
  /\ store_after (checkLicense Sample.utc Sample.t0 Sample.t0 st old) = st
  /\ row_found (Sample.store (Some 1) long) first
     = Some (long, Sample.demo_app (Some 1))
  /\ awaits_activation long = true
  /\ checkLicense Sample.utc Sample.t0 Sample.t0 (Sample.store (Some 1) long)
       first
     = {| response := HandlerThrew; notification := None;
          store_after := Sample.store (Some 1) long |}.
Proof.
  cbv zeta. split; [vm_compute; reflexivity|].
  split; [discriminate|]. split; [discriminate|].
  split; [vm_compute; eauto|]. split; [vm_compute; reflexivity|].
  split; [vm_compute; eauto|]. split; [vm_compute; reflexivity|].
  split; [vm_compute; reflexivity|]. split; vm_compute; reflexivity.
Qed.

(** C10.  When a check is rejected with the expired reason, the row has an
    expiration in the past and is neither banned nor paused, and the store
    after the check is the one the hardware lock produced: the provided
    hwid is bound when the lock is on and no hwid was locked, [locked_hwid]
    is cleared when the lock is off, and no usage row is added.  The same
    check made before the expiration leaves that store plus one usage row:
    the usage row is the only write the expired path skips. *)
Theorem expired_check_keeps_hwid_writes :
  forall (tz : TimeZone) (now nowActivation : Z) (st : Store)
         (req : CheckRequest) (l : License) (a : Application) (msg : Message),
    row_found st req = Some (l, a) ->
    response (checkLicense tz now nowActivation st req)
    = Rejected license_expired msg ->
    let out := checkLicense tz now nowActivation st req in
    let key := default ""%string (body_license_key req) in
    let hwid := body_hwid req in
    exists e,
      expires_at l = Some e /\ e < now
      /\ is_banned l <> 1 /\ is_paused l <> 1
      /\ lock_activated st key l (hwid_lock_on a) hwid = Some (store_after out)
      /\ license_usage (store_after out) = license_usage st
      /\ (hwid_lock_on a = true -> JS.truthy_str (locked_hwid l) = false ->
          JS.truthy_str hwid = true ->
          licenses (store_after out) !! key = Some (with_locked_hwid hwid l))
      /\ (hwid_lock_on a = false -> JS.truthy_str (locked_hwid l) = true ->
          licenses (store_after out) !! key = Some (with_locked_hwid None l))
      /\ (forall now', now' <= e ->
          store_after (checkLicense tz now' nowActivation st req)
          = add_usage (store_after out)
              {| usage_license_key := key;
                 usage_hwid := if JS.truthy_str hwid then hwid else None |}).
Proof.
  intros tz now nowActivation st req l a msg Hfound Hresp out key hwid.
  subst out key hwid.
  destruct (CheckFacts.row_found_lookup _ _ _ _ Hfound) as [Hl Hact].
  rewrite (CheckFacts.checkLicense_found _ _ _ _ _ _ _ Hfound) in *.
  unfold check_row in Hresp |- *.
  destruct (version_mismatched req a) eqn:Hver; [simpl in Hresp; discriminate|].
  destruct (Z.eqb_spec (is_banned l) 1) as [|Hban];
    [simpl in Hresp; discriminate|].
  destruct (Z.eqb_spec (is_paused l) 1) as [|Hpause];
    [simpl in Hresp; discriminate|].
  destruct (is_active l =? 0) eqn:Hactive; [simpl in Hresp; discriminate|].
  destruct (awaits_activation l) eqn:Hawait.
  { destruct (hwid_lock_on a && JS.missing_or_blank (body_hwid req));
      [simpl in Hresp; discriminate|].
    destruct (calculateExpirationDate _ _ _ _ _ ≫= toISOString);
      simpl in Hresp; discriminate. }
  destruct (expires_at l) as [e|] eqn:He.
  2:{ destruct (negb (is_unlimited l =? 0)); simpl in Hresp; discriminate. }
  destruct (lock_activated st _ l (hwid_lock_on a) (body_hwid req))
    as [st1|] eqn:Hlock; [|simpl in Hresp; discriminate].
  destruct (Z.ltb_spec e now) as [Hpast|]; [|simpl in Hresp; discriminate].
  exists e. simpl.
  split; [reflexivity|]. split; [exact Hpast|].
  split; [exact Hban|]. split; [exact Hpause|]. split; [reflexivity|].
  split; [|split; [|split]].
  - unfold lock_activated in Hlock.
    repeat match type of Hlock with
           | context [if ?b then _ else _] => destruct b
           end; inversion Hlock; reflexivity.
  - intros Hon Hfree Hgiven. unfold lock_activated in Hlock.
    rewrite Hon, Hfree, Hgiven in Hlock. simpl in Hlock.
    injection Hlock as <-. rewrite CheckFacts.lookup_update_license, Hl.
    reflexivity.
  - intros Hoff Hlocked. unfold lock_activated in Hlock.
    rewrite Hoff, Hlocked in Hlock. injection Hlock as <-.
    rewrite CheckFacts.lookup_update_license, Hl. reflexivity.
  - intros now' Hbefore.
    rewrite (CheckFacts.checkLicense_found _ _ _ _ _ _ _ Hfound).
    unfold check_row. rewrite Hver, Hactive, Hawait, He, Hlock.
    destruct (Z.eqb_spec (is_banned l) 1); [contradiction|].
    destruct (Z.eqb_spec (is_paused l) 1); [contradiction|].
    destruct (Z.ltb_spec e now'); [lia|]. reflexivity.
Qed.

(** A license locked to [H0] that expired a day ago, checked from [H1]
    after the hardware lock of its application was turned off. *)
Lemma expired_check_keeps_hwid_writes_witness :
  licenses
    (store_after
       (checkLicense Sample.utc Sample.t0 Sample.t0
          (Sample.store (Some 0)
             (Sample.license 0 0 0 (Some (Sample.t0 - Sample.day))
                (Some "H0"%string) None None))
          (Sample.request (Some "H1"%string) None))) !! "KEY-1"%string
  = Some (with_locked_hwid None
            (Sample.license 0 0 0 (Some (Sample.t0 - Sample.day))
               (Some "H0"%string) None None)).
Proof.
  destruct (expired_check_keeps_hwid_writes Sample.utc Sample.t0 Sample.t0
              (Sample.store (Some 0)
                 (Sample.license 0 0 0 (Some (Sample.t0 - Sample.day))
                    (Some "H0"%string) None None))
              (Sample.request (Some "H1"%string) None)
              (Sample.license 0 0 0 (Some (Sample.t0 - Sample.day))
                 (Some "H0"%string) None None)
              (Sample.demo_app (Some 0))
              (plain "License has expired"))
    as (e & _ & _ & _ & _ & _ & _ & _ & Hclear & _).
  - vm_compute. reflexivity.
  - vm_compute. reflexivity.
  - apply Hclear; reflexivity.
Defined.

(** On that check the lock is cleared although the answer is a rejection,
    and the usage table stays empty. *)
Example expired_check_clears_lock :
  let l := Sample.license 0 0 0 (Some (Sample.t0 - Sample.day))
             (Some "H0"%string) None None in
  let out := checkLicense Sample.utc Sample.t0 Sample.t0
               (Sample.store (Some 0) l)
               (Sample.request (Some "H1"%string) None) in
  response out = Rejected license_expired (plain "License has expired")
  /\ licenses (store_after out) !! "KEY-1"%string
     = Some (with_locked_hwid None l)
  /\ license_usage (store_after out) = [].
Proof. cbv zeta. repeat split; vm_compute; reflexivity. Qed.

(** ** Pause and resume *)

Module PauseFacts.

Lemma select_license_lookup st any user key l :
  select_license st any user key = Some l -> licenses st !! key = Some l.
Proof.
  unfold select_license. destruct (licenses st !! key) as [l0|]; [|discriminate].
  destruct (any || same_user (created_by l0) user); [|discriminate].
  congruence.
Qed.



(** Every refusal of the pause handler leaves the store as it was. *)
Lemma pause_failure_keeps_store now c key st status error :
  admin_response (pauseLicense now c key st) = Failure status error ->
  admin_store (pauseLicense now c key st) = st.
Proof.
  unfold pauseLicense.
  repeat match goal with
         | |- context [if ?b then _ else _] => destruct b
         | |- context [match ?o with Some _ => _ | None => _ end] => destruct o
         end; simpl; intros; try reflexivity; discriminate.
Qed.

(** The pause handler refuses a found row that is inactive, banned, or
    limited and expired. *)
Lemma pause_refuses now c key st l :
  select_license st (is_admin c) (session_user c) key = Some l ->
  is_active l <> 1 \/ is_banned l = 1
  \/ (is_unlimited l <> 1 /\ exists e, expires_at l = Some e /\ e <= now) ->
  exists status error, pauseLicense now c key st = refuse st status error.
Proof.
  intros Hs Hbad. unfold pauseLicense.
  destruct (negb (JS.truthy_num (session_user c))); [eauto|].
  destruct (negb (is_admin c) && negb (may_pause c)); [eauto|].
  rewrite Hs.
  destruct (Z.eqb_spec (is_active l) 1) as [Ha|Ha]; simpl; [|eauto].
  destruct (Z.eqb_spec (is_banned l) 1) as [Hb|Hb]; [eauto|].
  destruct Hbad as [Hbad | [Hbad | (Hu & e & He & Hpast)]]; try contradiction.
  rewrite He. destruct (Z.eqb_spec (is_unlimited l) 1); [contradiction|].
  destruct (Z.leb_spec e now); [|lia]. simpl. eauto.
Qed.

(** The pause of all the licenses of an application leaves a row that is
    already paused as it is. *)
Lemma pauseAllForApp_skips_paused now c app st key l :
  licenses st !! key = Some l -> is_paused l = 1 ->
  licenses (admin_store (pauseAllForApp now c app st)) !! key = Some l.
Proof.
  intros Hl Hp. unfold pauseAllForApp.
  destruct (negb (JS.truthy_num (session_user c))); [exact Hl|].
  destruct (negb (is_admin c) && negb (may_pause c)); [exact Hl|].
  simpl. rewrite lookup_fmap, Hl. simpl.
  unfold bulk_pausable. rewrite Hp. simpl.
  rewrite !andb_false_r. reflexivity.
Qed.

End PauseFacts.



(** Pausing that license at [t0] and resuming it three days later, through
    the two handlers in turn, moves its expiration three days on. *)
Example pause_then_resume :
  let l := Sample.license 0 0 0 (Some (Sample.t0 + 20 * Sample.day)) None
             None None in
  let paused := admin_store (pauseLicense Sample.t0 Sample.owner "KEY-1"
                               (Sample.store (Some 1) l)) in
  let resumed := admin_store (unpauseLicense 0 (Sample.t0 + 3 * Sample.day)
                                Sample.owner "KEY-1" paused) in
  licenses resumed !! "KEY-1"%string
  = Some (with_expires_at (Some (Sample.t0 + 23 * Sample.day)) l).
Proof. vm_compute. reflexivity. Qed.

(** C3, at the failing input.  The pause handler does not read [is_paused]:
    a license paused ten days ago, otherwise eligible, is paused again.
    The request succeeds, the record changes ([paused_at] moves to the time
    of the second request), and a resume one day later gives back one day
    instead of eleven. *)
Theorem pause_of_paused_license_succeeds :
  let E := Sample.t0 + 20 * Sample.day in
  let l := Sample.license 0 0 1 (Some E) None
             (Some (Sample.t0 - 10 * Sample.day)) (Some E) in
  let st := Sample.store (Some 1) l in
  let again := pauseLicense Sample.t0 Sample.owner "KEY-1" st in
  let resumed := unpauseLicense 0 (Sample.t0 + Sample.day) Sample.owner "KEY-1"
                   (admin_store again) in
  is_paused l = 1
  /\ admin_response again = Success None
  /\ licenses (admin_store again) !! "KEY-1"%string
     = Some (with_pause 1 (Some Sample.t0) (Some E) l)
  /\ admin_store again <> st
  /\ (expires_at <$> licenses (admin_store resumed) !! "KEY-1"%string)
     = Some (Some (E + Sample.day))
  /\ (expires_at <$>
        licenses (admin_store
                    (unpauseLicense 0 (Sample.t0 + Sample.day) Sample.owner
                       "KEY-1" st)) !! "KEY-1"%string)
     = Some (Some (E + 11 * Sample.day)).
Proof.
  cbv zeta. split; [reflexivity|]. split; [vm_compute; reflexivity|].
  split; [vm_compute; reflexivity|]. split.
  - intros Heq.
    apply (f_equal (fun s => paused_at <$> licenses s !! "KEY-1"%string)) in Heq.
    vm_compute in Heq. discriminate.
  - split; vm_compute; reflexivity.
Qed.

(** ** Extend *)

Module ExtendFacts.

Opaque calculateExpirationDate setDate getDate.

(** [POST /api/licenses/extend] on a license without expiration: the
    license is first given its own duration from the activation instant,
    then the requested days are added.  The durations span at most
    8.64e15 ms and the instants they lead to are in the range of [Date]. *)
Lemma extendLicense_unactivated tz nowActivation now c key st l dv du days :
  JS.truthy_num (session_user c) = true ->
  may_extend c = true ->
  key <> ""%string -> days <> 0 ->
  select_license st false (session_user c) key = Some l ->
  is_unlimited l <> 1 ->
  expires_at l = None ->
  duration_value l = Some dv -> dv <> 0 ->
  duration_unit l = Some du -> du <> ""%string ->
  proper_zone tz -> valid_time nowActivation ->
  Z.abs (dv * unit_ms du) <= maxTime ->
  valid_time (add_duration tz nowActivation dv du) ->
  Z.abs (days * msPerDay) <= maxTime ->
  valid_time
    (add_duration tz (add_duration tz nowActivation dv du) days "days") ->
  now < add_duration tz nowActivation dv du ->
  let newExpiry :=
    add_duration tz (add_duration tz nowActivation dv du) days "days" in
  extendLicense tz nowActivation now c (Some key) (Some days) st
  = {| admin_response := Success (Some newExpiry);
       admin_store :=
         update_license
           (fun r =>
              with_duration_value
                (Some (JSNumber.add (default 0 (duration_value r)) days))
                (with_expires_at (Some newExpiry) r))
           key st |}.
Proof.
  intros Hsess Hperm Hkey Hdays Hsel Hunl He Hdv Hdv0 Hdu Hdu0
    Hzone Hnow Hspan Hrange Hspan' Hrange' Hlive newExpiry.
  subst newExpiry. unfold extendLicense.
  apply String.eqb_neq in Hkey, Hdu0. apply Z.eqb_neq in Hdays, Hunl, Hdv0.
  rewrite Hsess, Hperm. simpl. rewrite Hkey, Hdays. simpl.
  rewrite Hsel, Hunl, He, Hdv, Hdu. simpl. rewrite Hdv0, Hdu0. simpl.
  rewrite (DateFacts.calculateExpirationDate_add _ _ _ _ Hzone Hnow Hspan Hrange).
  destruct (Z.leb_spec (add_duration tz nowActivation dv du) now); [lia|].
  destruct (Z.ltb_spec now (add_duration tz nowActivation dv du)); [|lia].
  unfold parseInt.
  rewrite (NumberFacts.parseInt_exact days
             (DateFacts.duration_below_two53 days "days" Hspan')).
  rewrite (DateFacts.setDate_add tz Hzone _ _ Hrange Hspan' Hrange').
  reflexivity.
Qed.

Transparent calculateExpirationDate setDate getDate.

End ExtendFacts.

(** C5.  Both extend handlers refuse every request on a license that is
    unlimited or whose expiration lies in the past, whoever the caller is
    and whatever duration is asked for: the answer is an error and the
    store, hence [expires_at], is the one before the request. *)
Theorem extend_refuses_unlimited_and_expired :
  forall (tz : TimeZone) (c : Caller) (key : string) (st : Store) (l : License)
         (now : Z),
    licenses st !! key = Some l ->
    is_unlimited l = 1 \/ (exists e, expires_at l = Some e /\ e < now) ->
    (forall nowActivation additional_days,
        exists status error,
          extendLicense tz nowActivation now c (Some key) additional_days st
          = refuse st status error)
    /\ (forall nowCalc nowDiff duration_value duration_unit,
        exists status error,
          extendLicenseByKey tz now nowCalc nowDiff c key duration_value
            duration_unit st
          = refuse st status error).
Proof.
  intros tz c key st l now Hl Hdead. split.
  - intros nowActivation additional_days. unfold extendLicense.
    destruct (negb (JS.truthy_num (session_user c))); [eauto|].
    destruct (negb (may_extend c)); [eauto|].
    destruct (_ || _); [eauto|]. simpl.
    unfold select_license. rewrite Hl.
    destruct (false || same_user (created_by l) (session_user c)); [|eauto].
    destruct (Z.eqb_spec (is_unlimited l) 1) as [|Hu]; [eauto|].
    destruct Hdead as [Hdead | (e & He & Hpast)]; [contradiction|].
    rewrite He. destruct (Z.leb_spec e now); [eauto | lia].
  - intros nowCalc nowDiff dv du. unfold extendLicenseByKey.
    destruct (negb (JS.truthy_num (session_user c))); [eauto|].
    destruct (negb (is_admin c) && negb (may_extend c)); [eauto|].
    destruct (_ || _); [eauto|].
    unfold select_license. rewrite Hl.
    destruct (is_admin c || same_user (created_by l) (session_user c)); [|eauto].
    destruct (Z.eqb_spec (is_unlimited l) 1) as [|Hu]; [eauto|].
    destruct Hdead as [Hdead | (e & He & Hpast)]; [contradiction|].
    rewrite He. destruct (Z.leb_spec e now); [eauto | lia].
Qed.

(** The administrator asking for five more days on a license that expired
    a day ago. *)
Lemma extend_refuses_unlimited_and_expired_witness :
  exists status error,
    extendLicenseByKey Sample.utc Sample.t0 Sample.t0 Sample.t0
      Sample.administrator "KEY-1" (Some 5) (Some "days"%string)
      (Sample.store (Some 1)
         (Sample.license 0 0 0 (Some (Sample.t0 - Sample.day)) None None None))
    = refuse
        (Sample.store (Some 1)
           (Sample.license 0 0 0 (Some (Sample.t0 - Sample.day)) None None None))
        status error.
Proof.
  refine (proj2 (extend_refuses_unlimited_and_expired Sample.utc
            Sample.administrator "KEY-1"
            (Sample.store (Some 1)
               (Sample.license 0 0 0 (Some (Sample.t0 - Sample.day)) None None
                  None))
            (Sample.license 0 0 0 (Some (Sample.t0 - Sample.day)) None None None)
            Sample.t0 _ _) Sample.t0 Sample.t0 (Some 5) (Some "days"%string)).
  - vm_compute. reflexivity.
  - right. exists (Sample.t0 - Sample.day). split; [reflexivity|].
    vm_compute. reflexivity.
Defined.

(** C4, at the failing input.  [POST /api/licenses/:licenseKey/extend] on
    a thirty day license that was never activated, asked for one day:
    the request succeeds and the expiration becomes the current instant
    plus one day, the configured thirty days are not applied.  The owner
    route [POST /api/licenses/extend] on the same license gives the
    activation instant plus thirty days plus one day. *)
Theorem extend_by_key_skips_own_duration :
  let st := Sample.store (Some 1) Sample.fresh in
  let by_key :=
    extendLicenseByKey Sample.utc Sample.t0 Sample.t0 Sample.t0
      Sample.administrator "KEY-1" (Some 1) (Some "days"%string) st in
  let by_owner :=
    extendLicense Sample.utc Sample.t0 Sample.t0 Sample.owner
      (Some "KEY-1"%string) (Some 1) st in
  awaits_activation Sample.fresh = true
  /\ admin_response by_key = Success None
  /\ (expires_at <$> licenses (admin_store by_key) !! "KEY-1"%string)
     = Some (Some (Sample.t0 + 1 * Sample.day))
  /\ Sample.t0 + 1 * Sample.day <> (Sample.t0 + 30 * Sample.day) + 1 * Sample.day
  /\ (expires_at <$> licenses (admin_store by_owner) !! "KEY-1"%string)
     = Some (Some ((Sample.t0 + 30 * Sample.day) + 1 * Sample.day)).
Proof.
  cbv zeta. split; [reflexivity|]. split; [vm_compute; reflexivity|].
  split; [vm_compute; reflexivity|]. split; [vm_compute; discriminate|].
  vm_compute. reflexivity.
Qed.

(** ** End-to-end scenarios *)

Module Scenarios.

(** An unlimited license on an application with the hardware lock on: the
    first check, from [H1], succeeds and binds [H1].  The branch for
    unlimited licenses compares no hwid, so a second check from [H2] is
    accepted as well and the lock stays on [H1]. *)
Example unlimited_then_other_hardware :
  let st := Sample.store (Some 1) (Sample.license 1 0 0 None None None None) in
  let first := checkLicense Sample.utc Sample.t0 Sample.t0 st
                 (Sample.request (Some "H1"%string) None) in
  let second := checkLicense Sample.utc Sample.t0 Sample.t0 (store_after first)
                  (Sample.request (Some "H2"%string) None) in
  response first
  = Accepted {| ok_app_id := "app-1"; ok_app_name := "Demo";
                ok_app_version := Some "1.0.0"%string; ok_expires_at := None;
                ok_is_unlimited := true; ok_is_activated := true;
                ok_days_remaining := None |}
  /\ (locked_hwid <$> licenses (store_after first) !! "KEY-1"%string)
     = Some (Some "H1"%string)
  /\ response second = response first
  /\ (locked_hwid <$> licenses (store_after second) !! "KEY-1"%string)
     = Some (Some "H1"%string).
Proof. cbv zeta. repeat split; vm_compute; reflexivity. Qed.

(** A thirty day license: the first check activates it, a check thirty-one
    days later is rejected as expired, and both extend routes then refuse
    it. *)
Example activate_expire_extend :
  let st := Sample.store (Some 1) Sample.fresh in
  let first := checkLicense Sample.utc Sample.t0 Sample.t0 st
                 (Sample.request (Some "H1"%string) None) in
  let later := Sample.t0 + 31 * Sample.day in
  let second := checkLicense Sample.utc later later (store_after first)
                  (Sample.request (Some "H1"%string) None) in
  (expires_at <$> licenses (store_after first) !! "KEY-1"%string)
  = Some (Some (Sample.t0 + 30 * Sample.day))
  /\ response second
     = Rejected license_expired (plain "License has expired")
  /\ extendLicense Sample.utc later later Sample.owner (Some "KEY-1"%string)
       (Some 5) (store_after second)
     = refuse (store_after second) 400 "Cannot extend expired license"
  /\ extendLicenseByKey Sample.utc later later later Sample.administrator
       "KEY-1" (Some 5) (Some "days"%string) (store_after second)
     = refuse (store_after second) 400 "Cannot extend expired license".
Proof. cbv zeta. repeat split; vm_compute; reflexivity. Qed.

(** A span above [2 ^ 53] ms is not added exactly, although the clock
    reading and the result are in the range of [Date]: 1.7e16 ms added one
    millisecond after the first instant of the range lose that
    millisecond. *)
Example span_above_two53_is_rounded :
  calculateExpirationDate Sample.utc (1 - maxTime) 17000000000000 "seconds"
    false
  = Some (TimeValue (1 - maxTime + 17000000000000 * 1000 - 1)).
Proof. vm_compute. reflexivity. Qed.

End Scenarios.

(** * Further properties of the routes *)

(** ** What a check may write *)

Module FrameFacts.

Lemma same_refl l : same_but_expiry_and_lock l l.
Proof. destruct l; reflexivity. Qed.

Lemma same_lock h l : same_but_expiry_and_lock l (with_locked_hwid h l).
Proof. destruct l; reflexivity. Qed.

Lemma same_both h e l :
  same_but_expiry_and_lock l (with_locked_hwid h (with_expires_at e l)).
Proof. destruct l; reflexivity. Qed.

Lemma reached_frame key st st' :
  reached key st st' ->
  applications st' = applications st
  /\ custom_messages st' = custom_messages st
  /\ (forall k, k <> key -> licenses st' !! k = licenses st !! k)
  /\ (forall l, licenses st !! key = Some l ->
        exists l', licenses st' !! key = Some l'
                   /\ same_but_expiry_and_lock l l')
  /\ (licenses st !! key = None -> licenses st' !! key = None).
Proof.
  induction 1 as [|f Hf|st' row _ IH].
  - repeat split; auto. intros l Hl. exists l. split; [exact Hl | apply same_refl].
  - simpl. split; [reflexivity|]. split; [reflexivity|]. split; [|split].
    + intros k Hk. apply lookup_alter_ne. congruence.
    + intros l Hl. exists (f l). rewrite lookup_alter_eq, Hl. split; [reflexivity | apply Hf].
    + intros Hl. rewrite lookup_alter_eq, Hl. reflexivity.
  - exact IH.
Qed.

Lemma check_row_reached tz now nowActivation st req key l a :
  reached key st
    (store_after (check_row tz now nowActivation st req key l a)).
Proof.
  unfold check_row, reject, accept, lock_activated, lock_unlimited.
  repeat match goal with
         | |- context [if ?b then _ else _] => destruct b
         | |- context [match expires_at l with Some _ => _ | None => _ end] =>
             destruct (expires_at l)
         | |- context [?d ≫= toISOString] => destruct (d ≫= toISOString)
         end; simpl;
    repeat first
      [ apply reached_same
      | apply reached_usage
      | apply reached_update; intros r;
        first [apply same_both | apply same_lock] ].
Qed.

Lemma checkLicense_reached tz now nowActivation st req :
  reached (default ""%string (body_license_key req)) st
    (store_after (checkLicense tz now nowActivation st req)).
Proof.
  unfold checkLicense.
  destruct (_ || _); [apply reached_same|].
  destruct (find_license_for_check st _ _) as [[l a]|].
  - apply check_row_reached.
  - apply reached_same.
Qed.

End FrameFacts.

(** X1.  A check never touches the applications, the custom messages or
    any license other than the one named by the request, and of that one it
    changes at most [expires_at] and [locked_hwid]. *)
Theorem check_touches_one_license :
  forall (tz : TimeZone) (now nowActivation : Z) (st : Store)
         (req : CheckRequest),
    let out := checkLicense tz now nowActivation st req in
    let key := default ""%string (body_license_key req) in
    applications (store_after out) = applications st
    /\ custom_messages (store_after out) = custom_messages st
    /\ (forall k, k <> key -> licenses (store_after out) !! k = licenses st !! k)
    /\ (forall l, licenses st !! key = Some l ->
          exists l', licenses (store_after out) !! key = Some l'
                     /\ same_but_expiry_and_lock l l')
    /\ (licenses st !! key = None -> licenses (store_after out) !! key = None).
Proof.
  intros. apply FrameFacts.reached_frame, FrameFacts.checkLicense_reached.
Qed.

Module CheckMore.

Lemma lock_activated_usage st key l lock hwid st1 :
  lock_activated st key l lock hwid = Some st1 ->
  license_usage st1 = license_usage st.
Proof.
  unfold lock_activated.
  repeat match goal with
         | |- context [if ?b then _ else _] => destruct b
         end; intros H; inversion H; reflexivity.
Qed.

Lemma lock_unlimited_usage st key l lock hwid :
  license_usage (lock_unlimited st key l lock hwid) = license_usage st.
Proof.
  unfold lock_unlimited.
  repeat match goal with
         | |- context [if ?b then _ else _] => destruct b
         end; reflexivity.
Qed.

(** The response and the usage table of a check of a found row, branch by
    branch: a usage row is added exactly on the accepting branches. *)
Lemma check_row_usage tz now nowActivation st req l a :
  let out := check_row tz now nowActivation st req
               (default ""%string (body_license_key req)) l a in
  license_usage (store_after out)
  = if is_accepted (response out)
    then license_usage st ++ [usage_row_of req]
    else license_usage st.
Proof.
  unfold check_row. cbv zeta.
  destruct (version_mismatched req a); [reflexivity|].
  destruct (is_banned l =? 1); [reflexivity|].
  destruct (is_paused l =? 1); [reflexivity|].
  destruct (is_active l =? 0); [reflexivity|].
  destruct (awaits_activation l).
  - destruct (hwid_lock_on a && JS.missing_or_blank (body_hwid req));
      [reflexivity|].
    destruct (calculateExpirationDate _ _ _ _ _ ≫= toISOString);
      [|reflexivity].
    destruct (hwid_lock_on a && JS.truthy_str (body_hwid req)); reflexivity.
  - destruct (expires_at l) as [e|].
    + destruct (lock_activated st _ l (hwid_lock_on a) (body_hwid req))
        as [st1|] eqn:Hlock; [|reflexivity].
      apply lock_activated_usage in Hlock.
      destruct (e <? now); simpl; rewrite Hlock; reflexivity.
    + destruct (negb (is_unlimited l =? 0)); [|reflexivity].
      simpl. rewrite lock_unlimited_usage. reflexivity.
Qed.

Lemma check_row_never_inactive tz now nowActivation st req key l a msg :
  is_active l = 1 ->
  response (check_row tz now nowActivation st req key l a)
  <> Rejected license_inactive msg.
Proof.
  intros Hact. unfold check_row, reject, accept. rewrite Hact. simpl.
  repeat match goal with
         | |- context [if ?b then _ else _] => destruct b
         | |- context [match ?o with Some _ => _ | None => _ end] => destruct o
         end; simpl; discriminate.
Qed.

Lemma not_found_response tz now nowActivation st req :
  JS.truthy_str (body_app_id req) = true ->
  JS.truthy_str (body_license_key req) = true ->
  row_found st req = None ->
  exists msg,
    response (checkLicense tz now nowActivation st req)
    = Rejected invalid_license msg
    /\ store_after (checkLicense tz now nowActivation st req) = st.
Proof.
  intros Ha Hk. unfold row_found, checkLicense. rewrite Ha, Hk. simpl.
  intros ->. eauto.
Qed.

End CheckMore.

(** X2.  A check adds a usage row exactly when it accepts: on acceptance
    the table gains one row with the key and the hwid of the request (no
    hwid when the request has none), on every other answer the table is
    unchanged. *)
Theorem check_usage_iff_accepted :
  forall (tz : TimeZone) (now nowActivation : Z) (st : Store)
         (req : CheckRequest),
    let out := checkLicense tz now nowActivation st req in
    license_usage (store_after out)
    = if is_accepted (response out)
      then license_usage st ++ [usage_row_of req]
      else license_usage st.
Proof.
  intros tz now nowActivation st req out. subst out.
  destruct (row_found st req) as [[l a]|] eqn:Hfound.
  - rewrite (CheckFacts.checkLicense_found _ _ _ _ _ _ _ Hfound).
    apply CheckMore.check_row_usage.
  - unfold checkLicense, row_found in *.
    destruct (JS.truthy_str (body_app_id req)); [|reflexivity].
    destruct (JS.truthy_str (body_license_key req)); [|reflexivity].
    simpl in *. rewrite Hfound. reflexivity.
Qed.

(** X3.  The inactive reason is never answered: the lookup already requires
    [is_active = 1].  A request with both fields whose lookup finds nothing
    (unknown key, key of another application, license with [is_active]
    other than 1, or unknown application) is answered with the
    invalid-license reason and writes nothing. *)
Theorem check_inactive_is_not_found :
  forall (tz : TimeZone) (now nowActivation : Z) (st : Store)
         (req : CheckRequest),
    let out := checkLicense tz now nowActivation st req in
    (forall msg, response out <> Rejected license_inactive msg)
    /\ (forall key app l,
          body_license_key req = Some key -> key <> ""%string ->
          body_app_id req = Some app -> app <> ""%string ->
          (licenses st !! key = None
           \/ (licenses st !! key = Some l
               /\ (app_id l <> app \/ is_active l <> 1
                   \/ applications st !! app = None))) ->
          (exists msg, response out = Rejected invalid_license msg)
          /\ store_after out = st).
Proof.
  intros tz now nowActivation st req out. subst out. split.
  - intros msg. destruct (row_found st req) as [[l a]|] eqn:Hfound.
    + rewrite (CheckFacts.checkLicense_found _ _ _ _ _ _ _ Hfound).
      apply CheckMore.check_row_never_inactive.
      apply (CheckFacts.row_found_lookup _ _ _ _ Hfound).
    + unfold checkLicense, row_found in *.
      destruct (JS.truthy_str (body_app_id req)); [|discriminate].
      destruct (JS.truthy_str (body_license_key req)); [|discriminate].
      simpl in *. rewrite Hfound. discriminate.
  - intros key app l Hkey Hkey0 Happ Happ0 Hmiss.
    apply String.eqb_neq in Hkey0, Happ0.
    destruct (CheckMore.not_found_response tz now nowActivation st req)
      as (msg & Hresp & Hstore).
    + rewrite Happ. simpl. now rewrite Happ0.
    + rewrite Hkey. simpl. now rewrite Hkey0.
    + unfold row_found, find_license_for_check. rewrite Hkey, Happ. simpl.
      rewrite Hkey0, Happ0. simpl.
      destruct Hmiss as [-> | (-> & Hbad)]; [reflexivity|].
      destruct (String.eqb_spec (app_id l) app) as [Heq|]; [|reflexivity].
      destruct (Z.eqb_spec (is_active l) 1) as [Hact|]; [|reflexivity].
      simpl. destruct Hbad as [Hbad | [Hbad | ->]]; try contradiction.
      reflexivity.
    + split; [eauto | exact Hstore].
Qed.

(** A license switched off ([is_active = 0]) checked with its own key. *)
Lemma check_inactive_is_not_found_witness :
  exists msg,
    response
      (checkLicense Sample.utc Sample.t0 Sample.t0
         (Sample.store (Some 1)
            {| app_id := "app-1"; duration_value := Some 30;
               duration_unit := Some "days"%string; is_unlimited := 0;
               expires_at := None; is_active := 0; locked_hwid := None;
               is_banned := 0; is_paused := 0; paused_at := None;
               paused_expires_at := None; created_by := Some 7 |})
         (Sample.request (Some "H1"%string) None))
    = Rejected invalid_license msg.
Proof.
  refine (proj1 (proj2 (check_inactive_is_not_found Sample.utc Sample.t0
            Sample.t0 _ (Sample.request (Some "H1"%string) None))
            "KEY-1"%string "app-1"%string _ _ _ _ _ _)).
  - reflexivity.
  - discriminate.
  - reflexivity.
  - discriminate.
  - right. split; [vm_compute; reflexivity|]. right. left. discriminate.
Defined.

Module CheckBranches.

Lemma activated_not_awaiting l e :
  expires_at l = Some e -> awaits_activation l = false.
Proof.
  intros He. unfold awaits_activation. rewrite He.
  destruct (is_unlimited l =? 0); reflexivity.
Qed.

(** The check of a found row that has an expiration and passes the early
    tests: the hardware lock, then the comparison with the clock. *)
Lemma check_row_activated tz now nowActivation st req key l a e :
  gates_pass req l a -> is_active l = 1 -> expires_at l = Some e ->
  check_row tz now nowActivation st req key l a
  = let owner := JS.or_num (JS.or_num (created_by l) (app_created_by a)) None in
    match lock_activated st key l (hwid_lock_on a) (body_hwid req) with
    | None => reject st a owner hwid_mismatch (or_na (body_hwid req)) None
    | Some st1 =>
        if e <? now then
          reject st1 a owner license_expired (or_na (body_hwid req)) (Some e)
        else accept st1 key l a owner (body_hwid req) now (Some e)
    end.
Proof.
  intros (Hver & Hban & Hpause) Hact He. unfold check_row.
  apply Z.eqb_neq in Hban, Hpause.
  rewrite Hver, Hban, Hpause, Hact, (activated_not_awaiting l e He), He.
  reflexivity.
Qed.

(** The check of a found unlimited row without expiration that passes the
    early tests. *)
Lemma check_row_unlimited tz now nowActivation st req key l a :
  gates_pass req l a -> is_active l = 1 ->
  is_unlimited l <> 0 -> expires_at l = None ->
  check_row tz now nowActivation st req key l a
  = accept (lock_unlimited st key l (hwid_lock_on a) (body_hwid req)) key l a
      (JS.or_num (JS.or_num (created_by l) (app_created_by a)) None)
      (body_hwid req) now None.
Proof.
  intros (Hver & Hban & Hpause) Hact Hunl He. unfold check_row.
  apply Z.eqb_neq in Hban, Hpause, Hunl.
  assert (Hawait : awaits_activation l = false)
    by (unfold awaits_activation; rewrite Hunl; reflexivity).
  rewrite Hver, Hban, Hpause, Hact, Hawait, He, Hunl. reflexivity.
Qed.

Lemma ceiling_days e now :
  (days_remaining e now - 1) * 86400000 < e - now
  <= days_remaining e now * 86400000.
Proof.
  unfold days_remaining, msPerDay. Z.to_euclidean_division_equations. lia.
Qed.

Lemma check_row_days tz now nowActivation st req key l a data d :
  response (check_row tz now nowActivation st req key l a) = Accepted data ->
  ok_days_remaining data = Some d ->
  exists e, ok_expires_at data = Some e /\ d = days_remaining e now.
Proof.
  unfold check_row, reject, accept. cbv zeta.
  repeat match goal with
         | |- context [if ?b then _ else _] => destruct b
         | |- context [match ?o with Some _ => _ | None => _ end] =>
             destruct o eqn:?
         end; simpl; intros H Hd; try discriminate;
    injection H as <-; simpl in *; try discriminate;
    injection Hd as <-; eauto.
Qed.

End CheckBranches.

(** X4.  A check never moves an expiration that is set: every license that
    has an [expires_at] before a check has the same one after it, so the
    activation instant is fixed by the first accepted check. *)
Theorem check_keeps_expiration :
  forall (tz : TimeZone) (now nowActivation : Z) (st : Store)
         (req : CheckRequest) (k : string) (l : License) (e : Z),
    licenses st !! k = Some l ->
    expires_at l = Some e ->
    exists l',
      licenses (store_after (checkLicense tz now nowActivation st req)) !! k
      = Some l'
      /\ expires_at l' = Some e.
Proof.
  intros tz now nowActivation st req k l e Hl He.
  destruct (check_touches_one_license tz now nowActivation st req)
    as (_ & _ & Hother & Hsame & _).
  destruct (decide (k = default ""%string (body_license_key req))) as [->|Hk].
  2:{ exists l. rewrite (Hother k Hk). auto. }
  destruct (row_found st req) as [[l0 a]|] eqn:Hfound.
  - destruct (CheckFacts.row_found_lookup _ _ _ _ Hfound) as [Hl0 Hact].
    assert (l0 = l) as -> by congruence.
    rewrite (CheckFacts.checkLicense_found _ _ _ _ _ _ _ Hfound).
    unfold check_row, reject, accept, lock_activated.
    rewrite (CheckBranches.activated_not_awaiting l e He), He.
    repeat match goal with
           | |- context [if ?b then _ else _] => destruct b
           end; simpl; rewrite ?lookup_alter_eq, Hl; simpl; eauto.
  - exists l. split; [|exact He].
    unfold checkLicense, row_found in *.
    destruct (JS.truthy_str (body_app_id req)); [|exact Hl].
    destruct (JS.truthy_str (body_license_key req)); [|exact Hl].
    simpl in *. rewrite Hfound. exact Hl.
Qed.

(** A license activated until thirty days after [t0], checked a day later
    from another hwid. *)
Lemma check_keeps_expiration_witness :
  exists l',
    licenses
      (store_after
         (checkLicense Sample.utc (Sample.t0 + Sample.day) Sample.t0
            (Sample.store (Some 1)
               (Sample.license 0 0 0 (Some (Sample.t0 + 30 * Sample.day))
                  (Some "H1"%string) None None))
            (Sample.request (Some "H2"%string) None))) !! "KEY-1"%string
    = Some l'
    /\ expires_at l' = Some (Sample.t0 + 30 * Sample.day).
Proof.
  apply (check_keeps_expiration Sample.utc (Sample.t0 + Sample.day) Sample.t0
           _ (Sample.request (Some "H2"%string) None) "KEY-1"%string
           (Sample.license 0 0 0 (Some (Sample.t0 + 30 * Sample.day))
              (Some "H1"%string) None None)).
  - vm_compute. reflexivity.
  - reflexivity.
Defined.

(** X5.  With the hardware lock on, a license that has an expiration and a
    locked hwid is accepted only from that hwid: whenever the check accepts,
    the hwid of the request is the locked one. *)
Theorem accepted_check_comes_from_locked_hwid :
  forall (tz : TimeZone) (now nowActivation : Z) (st : Store)
         (req : CheckRequest) (l : License) (a : Application) (e : Z),
    row_found st req = Some (l, a) ->
    hwid_lock_on a = true ->
    expires_at l = Some e ->
    JS.truthy_str (locked_hwid l) = true ->
    is_accepted (response (checkLicense tz now nowActivation st req)) = true ->
    body_hwid req = locked_hwid l.
Proof.
  intros tz now nowActivation st req l a e Hfound Hlock He Hlocked.
  rewrite (CheckFacts.checkLicense_found _ _ _ _ _ _ _ Hfound).
  unfold check_row, reject, accept, lock_activated.
  rewrite (CheckBranches.activated_not_awaiting l e He), He, Hlock, Hlocked.
  simpl.
  destruct (version_mismatched req a); [discriminate|].
  destruct (is_banned l =? 1); [discriminate|].
  destruct (is_paused l =? 1); [discriminate|].
  destruct (is_active l =? 0); [discriminate|].
  destruct (decide (locked_hwid l = body_hwid req)) as [Heq|Hne].
  - intros _. symmetry. exact Heq.
  - rewrite bool_decide_eq_false_2 by exact Hne. discriminate.
Qed.

(** The license locked to [H1], checked from [H1]. *)
Lemma accepted_check_comes_from_locked_hwid_witness :
  body_hwid (Sample.request (Some "H1"%string) None) = Some "H1"%string.
Proof.
  apply (accepted_check_comes_from_locked_hwid Sample.utc Sample.t0 Sample.t0
           (Sample.store (Some 1)
              (Sample.license 0 0 0 (Some (Sample.t0 + 30 * Sample.day))
                 (Some "H1"%string) None None))
           (Sample.request (Some "H1"%string) None)
           (Sample.license 0 0 0 (Some (Sample.t0 + 30 * Sample.day))
              (Some "H1"%string) None None)
           (Sample.demo_app (Some 1)) (Sample.t0 + 30 * Sample.day)).
  - vm_compute. reflexivity.
  - reflexivity.
  - reflexivity.
  - reflexivity.
  - vm_compute. reflexivity.
Defined.

(** X6.  The hardware lock never rejects an unlimited license: a found
    unlimited license without expiration that passes the version gate and
    is neither banned nor paused is accepted whatever hwid the request
    carries, with no expiration and no remaining days in the answer; with
    the lock on, a hwid already locked stays locked. *)
Theorem unlimited_license_skips_hwid_comparison :
  forall (tz : TimeZone) (now nowActivation : Z) (st : Store)
         (req : CheckRequest) (l : License) (a : Application),
    row_found st req = Some (l, a) ->
    gates_pass req l a ->
    is_unlimited l <> 0 ->
    expires_at l = None ->
    let out := checkLicense tz now nowActivation st req in
    (exists data, response out = Accepted data
                  /\ ok_expires_at data = None
                  /\ ok_days_remaining data = None)
    /\ (hwid_lock_on a = true -> JS.truthy_str (locked_hwid l) = true ->
        licenses (store_after out) !! default ""%string (body_license_key req)
        = Some l).
Proof.
  intros tz now nowActivation st req l a Hfound Hgates Hunl He out. subst out.
  destruct (CheckFacts.row_found_lookup _ _ _ _ Hfound) as [Hl Hact].
  rewrite (CheckFacts.checkLicense_found _ _ _ _ _ _ _ Hfound).
  rewrite (CheckBranches.check_row_unlimited _ _ _ _ _ _ _ _ Hgates Hact Hunl He).
  split.
  - eexists. split; [reflexivity|]. split; reflexivity.
  - intros Hlock Hlocked. unfold lock_unlimited. rewrite Hlock, Hlocked.
    simpl. exact Hl.
Qed.

(** An unlimited license locked to [H1], checked from [H2]. *)
Lemma unlimited_license_skips_hwid_comparison_witness :
  exists data,
    response
      (checkLicense Sample.utc Sample.t0 Sample.t0
         (Sample.store (Some 1)
            (Sample.license 1 0 0 None (Some "H1"%string) None None))
         (Sample.request (Some "H2"%string) None))
    = Accepted data
    /\ ok_expires_at data = None /\ ok_days_remaining data = None.
Proof.
  refine (proj1 (unlimited_license_skips_hwid_comparison Sample.utc Sample.t0
            Sample.t0
            (Sample.store (Some 1)
               (Sample.license 1 0 0 None (Some "H1"%string) None None))
            (Sample.request (Some "H2"%string) None)
            (Sample.license 1 0 0 None (Some "H1"%string) None None)
            (Sample.demo_app (Some 1)) _ _ _ _)).
  - vm_compute. reflexivity.
  - split; [reflexivity|]. split; discriminate.
  - discriminate.
  - reflexivity.
Defined.

(** X7.  The remaining days of an accepted answer are the whole days from
    the clock reading of the handler to the expiration, rounded up: for
    [days_remaining = d] the answer carries an expiration [e] with
    [(d - 1) days < e - now <= d days]. *)
Theorem days_remaining_rounds_up :
  forall (tz : TimeZone) (now nowActivation : Z) (st : Store)
         (req : CheckRequest) (data : CheckSuccess) (d : Z),
    response (checkLicense tz now nowActivation st req) = Accepted data ->
    ok_days_remaining data = Some d ->
    exists e, ok_expires_at data = Some e
              /\ (d - 1) * 86400000 < e - now <= d * 86400000.
Proof.
  intros tz now nowActivation st req data d Hresp Hd.
  destruct (row_found st req) as [[l a]|] eqn:Hfound.
  - rewrite (CheckFacts.checkLicense_found _ _ _ _ _ _ _ Hfound) in Hresp.
    destruct (CheckBranches.check_row_days _ _ _ _ _ _ _ _ _ _ Hresp Hd)
      as (e & He & ->).
    exists e. split; [exact He | apply CheckBranches.ceiling_days].
  - unfold checkLicense, row_found in *.
    destruct (JS.truthy_str (body_app_id req)); [|discriminate].
    destruct (JS.truthy_str (body_license_key req)); [|discriminate].
    simpl in *. rewrite Hfound in Hresp. discriminate.
Qed.

(** Half a day after activation a thirty day license has thirty days
    left. *)
Lemma days_remaining_rounds_up_witness :
  exists e,
    Some (Sample.t0 + 30 * Sample.day) = Some e
    /\ (30 - 1) * 86400000 < e - (Sample.t0 + 43200000) <= 30 * 86400000.
Proof.
  apply (days_remaining_rounds_up Sample.utc (Sample.t0 + 43200000) Sample.t0
           (Sample.store (Some 1)
              (Sample.license 0 0 0 (Some (Sample.t0 + 30 * Sample.day))
                 (Some "H1"%string) None None))
           (Sample.request (Some "H1"%string) None)
           {| ok_app_id := "app-1"; ok_app_name := "Demo";
              ok_app_version := Some "1.0.0"%string;
              ok_expires_at := Some (Sample.t0 + 30 * Sample.day);
              ok_is_unlimited := false; ok_is_activated := true;
              ok_days_remaining := Some 30 |} 30).
  - vm_compute. reflexivity.
  - reflexivity.
Defined.

(** X8.  A check of a found row hands at most one event to the webhook, and
    only when the application has a webhook URL that is not blank.  With
    such a URL every answer that is sent, other than the configuration
    error, is notified: the event goes to that URL, its success flag tells
    whether the check accepted, and a rejection carries the reason of the
    answer. *)
Theorem check_notifies_configured_webhook :
  forall (tz : TimeZone) (now nowActivation : Z) (st : Store)
         (req : CheckRequest) (l : License) (a : Application),
    row_found st req = Some (l, a) ->
    let out := checkLicense tz now nowActivation st req in
    (JS.present_and_not_blank (webhook_url a) = false ->
     notification out = None)
    /\ (JS.present_and_not_blank (webhook_url a) = true ->
        response out <> ConfigurationError ->
        response out <> HandlerThrew ->
        exists n, notification out = Some n
                  /\ webhook_url a = Some (to_url n)
                  /\ event_success n = is_accepted (response out)
                  /\ (forall code msg, response out = Rejected code msg ->
                        event_reason n = Some msg)).
Proof.
  intros tz now nowActivation st req l a Hfound out. subst out.
  rewrite (CheckFacts.checkLicense_found _ _ _ _ _ _ _ Hfound).
  unfold check_row, reject, accept, notify. cbv zeta. split.
  - intros Hurl. rewrite Hurl.
    repeat match goal with
           | |- context [if ?b then _ else _] => destruct b
           | |- context [match ?o with Some _ => _ | None => _ end] =>
               destruct o
           end; reflexivity.
  - intros Hurl. rewrite Hurl.
    assert (Hsome : webhook_url a = Some (default ""%string (webhook_url a))).
    { destruct (webhook_url a); [reflexivity | discriminate]. }
    repeat match goal with
           | |- context [if ?b then _ else _] => destruct b
           | |- context [match ?o with Some _ => _ | None => _ end] =>
               destruct o
           end; simpl; intros Hcfg Hthrow; try congruence;
      (eexists; split; [reflexivity|]; simpl; split; [exact Hsome|];
       split; [reflexivity|]; intros code msg H;
       first [discriminate H | injection H as _ <-; reflexivity]).
Qed.

(** The banned license of an application that posts to a webhook. *)
Lemma check_notifies_configured_webhook_witness :
  exists n,
    notification
      (checkLicense Sample.utc Sample.t0 Sample.t0
         {| applications :=
              {[ "app-1"%string :=
                   {| name := "Demo"; version := None;
                      hwid_lock_enabled := Some 1;
                      webhook_url := Some "https://hooks.example/1"%string;
                      app_created_by := Some 7 |} ]};
            licenses :=
              {[ "KEY-1"%string := Sample.license 0 1 0 None None None None ]};
            license_usage := []; custom_messages := [] |}
         (Sample.request None None))
    = Some n
    /\ Some "https://hooks.example/1"%string = Some (to_url n)
    /\ event_success n = false.
Proof.
  destruct (check_notifies_configured_webhook Sample.utc Sample.t0 Sample.t0
              {| applications :=
                   {[ "app-1"%string :=
                        {| name := "Demo"; version := None;
                           hwid_lock_enabled := Some 1;
                           webhook_url := Some "https://hooks.example/1"%string;
                           app_created_by := Some 7 |} ]};
                 licenses :=
                   {[ "KEY-1"%string :=
                        Sample.license 0 1 0 None None None None ]};
                 license_usage := []; custom_messages := [] |}
              (Sample.request None None)
              (Sample.license 0 1 0 None None None None)
              {| name := "Demo"; version := None;
                 hwid_lock_enabled := Some 1;
                 webhook_url := Some "https://hooks.example/1"%string;
                 app_created_by := Some 7 |}) as [_ H].
  - vm_compute. reflexivity.
  - destruct H as (n & Hn & Hurl & Hflag & _).
    + vm_compute. reflexivity.
    + vm_compute. discriminate.
    + vm_compute. discriminate.
    + exists n. split; [exact Hn|]. split; [exact Hurl | exact Hflag].
Defined.

(** X9.  The expiry instant itself still counts as valid for a check but
    not for the mutators: a found license with expiration [e] that passes
    the early tests and the hardware lock is accepted exactly when the
    clock of the handler is not after [e], while the pause route and both
    extend routes refuse it as expired from [e] on. *)
Theorem expiry_instant_is_valid_for_check_only :
  forall (tz : TimeZone) (now nowActivation : Z) (st : Store)
         (req : CheckRequest) (l : License) (a : Application) (e : Z)
         (st1 : Store),
    row_found st req = Some (l, a) ->
    gates_pass req l a ->
    is_unlimited l <> 1 ->
    expires_at l = Some e ->
    lock_activated st (default ""%string (body_license_key req)) l
      (hwid_lock_on a) (body_hwid req) = Some st1 ->
    (is_accepted (response (checkLicense tz now nowActivation st req)) = true
     <-> now <= e)
    /\ (e <= now ->
        forall c nowCalc nowDiff dv du days,
          let key := default ""%string (body_license_key req) in
          (exists status error,
              pauseLicense now c key st = refuse st status error)
          /\ (exists status error,
                extendLicense tz nowActivation now c (Some key) days st
                = refuse st status error)
          /\ (exists status error,
                extendLicenseByKey tz now nowCalc nowDiff c key dv du st
                = refuse st status error)).
Proof.
  intros tz now nowActivation st req l a e st1 Hfound Hgates Hunl He Hlock.
  destruct (CheckFacts.row_found_lookup _ _ _ _ Hfound) as [Hl Hact].
  split.
  - rewrite (CheckFacts.checkLicense_found _ _ _ _ _ _ _ Hfound).
    rewrite (CheckBranches.check_row_activated _ _ _ _ _ _ _ _ _ Hgates Hact He).
    cbv zeta. rewrite Hlock.
    destruct (Z.ltb_spec e now); simpl; split; intros; try lia;
      try reflexivity; discriminate.
  - intros Hpast c nowCalc nowDiff dv du days key. subst key.
    apply Z.eqb_neq in Hunl. destruct Hgates as (_ & Hban & _).
    apply Z.eqb_neq in Hban.
    assert (Hle : (e <=? now) = true) by (apply Z.leb_le; exact Hpast).
    split; [|split].
    + unfold pauseLicense, select_license. rewrite Hl.
      destruct (negb (JS.truthy_num (session_user c))); [eauto|].
      destruct (negb (is_admin c) && negb (may_pause c)); [eauto|].
      destruct (is_admin c || same_user (created_by l) (session_user c));
        [|eauto].
      rewrite Hact, Hban, Hunl, He, Hle. simpl. eauto.
    + unfold extendLicense.
      destruct (negb (JS.truthy_num (session_user c))); [eauto|].
      destruct (negb (may_extend c)); [eauto|].
      destruct (_ || _); [eauto|]. simpl. unfold select_license. rewrite Hl.
      destruct (false || same_user (created_by l) (session_user c)); [|eauto].
      rewrite Hunl, He, Hle. eauto.
    + unfold extendLicenseByKey, select_license.
      destruct (negb (JS.truthy_num (session_user c))); [eauto|].
      destruct (negb (is_admin c) && negb (may_extend c)); [eauto|].
      destruct (_ || _); [eauto|]. rewrite Hl.
      destruct (is_admin c || same_user (created_by l) (session_user c));
        [|eauto].
      rewrite Hunl, He, Hle. eauto.
Qed.

(** A license checked from its locked hwid at the very instant it expires. *)
Lemma expiry_instant_is_valid_for_check_only_witness :
  is_accepted
    (response
       (checkLicense Sample.utc (Sample.t0 + 30 * Sample.day) Sample.t0
          (Sample.store (Some 1)
             (Sample.license 0 0 0 (Some (Sample.t0 + 30 * Sample.day))
                (Some "H1"%string) None None))
          (Sample.request (Some "H1"%string) None))) = true.
Proof.
  refine (proj2 (proj1 (expiry_instant_is_valid_for_check_only Sample.utc
            (Sample.t0 + 30 * Sample.day) Sample.t0
            (Sample.store (Some 1)
               (Sample.license 0 0 0 (Some (Sample.t0 + 30 * Sample.day))
                  (Some "H1"%string) None None))
            (Sample.request (Some "H1"%string) None)
            (Sample.license 0 0 0 (Some (Sample.t0 + 30 * Sample.day))
               (Some "H1"%string) None None)
            (Sample.demo_app (Some 1)) (Sample.t0 + 30 * Sample.day)
            (Sample.store (Some 1)
               (Sample.license 0 0 0 (Some (Sample.t0 + 30 * Sample.day))
                  (Some "H1"%string) None None))
            _ _ _ _ _)) _).
  - vm_compute. reflexivity.
  - split; [reflexivity|]. split; discriminate.
  - discriminate.
  - reflexivity.
  - vm_compute. reflexivity.
  - lia.
Defined.

(** ** Ban, reset, delete and the settings of an application *)

Module MutatorFacts.

Lemma store_eq st ls :
  ls = licenses st -> set_licenses st ls = st.
Proof. intros ->. destruct st; reflexivity. Qed.

Lemma row_found_intro st req key app l a :
  body_license_key req = Some key -> key <> ""%string ->
  body_app_id req = Some app -> app <> ""%string ->
  licenses st !! key = Some l -> app_id l = app -> is_active l = 1 ->
  applications st !! app = Some a ->
  row_found st req = Some (l, a).
Proof.
  intros Hkey Hkey0 Happ Happ0 Hl Hid Hact Ha.
  apply String.eqb_neq in Hkey0, Happ0.
  unfold row_found, find_license_for_check. rewrite Hkey, Happ. simpl.
  rewrite Hkey0, Happ0. simpl. rewrite Hl, Hid, String.eqb_refl, Hact. simpl.
  rewrite Ha. reflexivity.
Qed.

Lemma row_found_app st req l a :
  row_found st req = Some (l, a) ->
  applications st !! default ""%string (body_app_id req) = Some a.
Proof.
  unfold row_found, find_license_for_check. intros H.
  destruct (_ && _); [|discriminate].
  destruct (licenses st !! _) as [l0|]; [|discriminate].
  destruct (_ && _); [|discriminate].
  destruct (applications st !! _) as [a0|]; [|discriminate].
  congruence.
Qed.

End MutatorFacts.

(** X10.  After the administrator bans a license, every check that finds
    it and passes the version gate is rejected with the banned reason and
    writes nothing; the ban changes only [is_banned], and unbanning a
    license that was not banned before restores the store. *)
Theorem ban_rejects_checks_until_unban :
  forall (c : Caller) (key : string) (st : Store) (l : License),
    licenses st !! key = Some l ->
    admin_response (banLicenseByKey c key st) = Success None ->
    let banned := admin_store (banLicenseByKey c key st) in
    licenses banned !! key = Some (with_is_banned 1 l)
    /\ (forall tz now nowActivation req l' a,
          body_license_key req = Some key ->
          row_found banned req = Some (l', a) ->
          version_mismatched req a = false ->
          (exists msg,
              response (checkLicense tz now nowActivation banned req)
              = Rejected license_banned msg)
          /\ store_after (checkLicense tz now nowActivation banned req) = banned)
    /\ (is_banned l = 0 ->
        unbanLicenseByKey c key banned
        = {| admin_response := Success None; admin_store := st |}).
Proof.
  intros c key st l Hl. unfold banLicenseByKey, unbanLicenseByKey, setBanByKey.
  destruct (negb (JS.truthy_num (session_user c))); [discriminate|].
  destruct (negb (is_admin c)); [discriminate|].
  rewrite Hl. intros _. simpl.
  split; [|split].
  - rewrite lookup_alter_eq, Hl. reflexivity.
  - intros tz now nowActivation req l' a Hkey Hfound Hver.
    rewrite (CheckFacts.checkLicense_found _ _ _ _ _ _ _ Hfound).
    destruct (CheckFacts.row_found_lookup _ _ _ _ Hfound) as [Hl' _].
    rewrite Hkey in Hl'. simpl in Hl'. rewrite lookup_alter_eq, Hl in Hl'.
    injection Hl' as <-. unfold check_row. rewrite Hver. simpl. eauto.
  - intros Hfree. rewrite lookup_alter_eq, Hl. simpl. f_equal.
    unfold update_license. simpl. destruct st as [apps ls usage msgs]. simpl in *.
    unfold set_licenses. simpl. f_equal. apply map_eq. intros k.
    destruct (decide (key = k)) as [<-|Hne].
    + rewrite !lookup_alter_eq, Hl. simpl. f_equal.
      destruct l; simpl in *; subst; reflexivity.
    + rewrite !lookup_alter_ne by exact Hne. reflexivity.
Qed.

(** The administrator bans a running license; its next check is refused. *)
Lemma ban_rejects_checks_until_unban_witness :
  licenses
    (admin_store
       (banLicenseByKey Sample.administrator "KEY-1"
          (Sample.store (Some 1) Sample.fresh))) !! "KEY-1"%string
  = Some (with_is_banned 1 Sample.fresh).
Proof.
  refine (proj1 (ban_rejects_checks_until_unban Sample.administrator "KEY-1"
            (Sample.store (Some 1) Sample.fresh) Sample.fresh _ _)).
  - vm_compute. reflexivity.
  - vm_compute. reflexivity.
Defined.



(** X12.  After the administrator resets the HWID of a license, the usage
    table holds no row of that license, and the next check from any
    hardware binds it anew: for a license with the lock on that has not
    expired, is neither banned nor paused and passes the version gate, a
    check carrying hwid [H2] is accepted and locks the license to [H2]. *)
Theorem reset_hwid_lets_new_hardware_bind :
  forall (tz : TimeZone) (now nowActivation : Z) (c : Caller) (key : string)
         (st : Store) (l : License) (a : Application) (e : Z) (H2 : string)
         (req : CheckRequest),
    licenses st !! key = Some l ->
    applications st !! app_id l = Some a ->
    admin_response (resetHwidByKey c key st) = Success None ->
    is_active l = 1 -> is_banned l <> 1 -> is_paused l <> 1 ->
    expires_at l = Some e -> now <= e ->
    hwid_lock_on a = true ->
    body_license_key req = Some key -> key <> ""%string ->
    body_app_id req = Some (app_id l) -> app_id l <> ""%string ->
    body_hwid req = Some H2 -> H2 <> ""%string ->
    version_mismatched req a = false ->
    let reset := admin_store (resetHwidByKey c key st) in
    let out := checkLicense tz now nowActivation reset req in
    (forall row, In row (license_usage reset) -> usage_license_key row <> key)
    /\ licenses reset !! key = Some (with_locked_hwid None l)
    /\ is_accepted (response out) = true
    /\ licenses (store_after out) !! key
       = Some (with_locked_hwid (Some H2) l).
Proof.
  intros tz now nowActivation c key st l a e H2 req Hl Ha Hok Hact Hban Hpause
    He Hlive Hlock Hkey Hkey0 Happ Happ0 Hhwid Hhwid0 Hver reset out.
  subst out reset. revert Hok. unfold resetHwidByKey.
  destruct (negb (JS.truthy_num (session_user c))); [discriminate|].
  destruct (negb (is_admin c)); [discriminate|].
  rewrite Hl. intros _. simpl.
  set (st' := delete_usage key (update_license (with_locked_hwid None) key st)).
  assert (Hl' : licenses st' !! key = Some (with_locked_hwid None l)).
  { subst st'. simpl. rewrite lookup_alter_eq, Hl. reflexivity. }
  assert (Hfound : row_found st' req = Some (with_locked_hwid None l, a)).
  { eapply MutatorFacts.row_found_intro; eauto. }
  split; [|split; [exact Hl'|]].
  - intros row Hin. subst st'. simpl in Hin. apply filter_In in Hin.
    destruct Hin as [_ Hin]. apply negb_true_iff, String.eqb_neq in Hin.
    exact Hin.
  - rewrite (CheckFacts.checkLicense_found _ _ _ _ _ _ _ Hfound).
    rewrite Hkey. simpl.
    rewrite (CheckBranches.check_row_activated _ _ _ _ _ _ _ _ e);
      [|repeat split; assumption | exact Hact | exact He].
    cbv zeta. unfold lock_activated. rewrite Hlock, Hhwid. simpl.
    apply String.eqb_neq in Hhwid0. rewrite Hhwid0. simpl.
    destruct (Z.ltb_spec e now); [lia|]. simpl. split; [reflexivity|].
    rewrite !lookup_alter_eq, Hl. reflexivity.
Qed.

(** A license locked to [H1] is reset and then checked from [H2]. *)
Lemma reset_hwid_lets_new_hardware_bind_witness :
  licenses
    (store_after
       (checkLicense Sample.utc Sample.t0 Sample.t0
          (admin_store
             (resetHwidByKey Sample.administrator "KEY-1"
                (Sample.store (Some 1)
                   (Sample.license 0 0 0 (Some (Sample.t0 + Sample.day))
                      (Some "H1"%string) None None))))
          (Sample.request (Some "H2"%string) None))) !! "KEY-1"%string
  = Some (with_locked_hwid (Some "H2"%string)
            (Sample.license 0 0 0 (Some (Sample.t0 + Sample.day))
               (Some "H1"%string) None None)).
Proof.
  refine (proj2 (proj2 (proj2 (reset_hwid_lets_new_hardware_bind Sample.utc
            Sample.t0 Sample.t0 Sample.administrator "KEY-1"
            (Sample.store (Some 1)
               (Sample.license 0 0 0 (Some (Sample.t0 + Sample.day))
                  (Some "H1"%string) None None))
            (Sample.license 0 0 0 (Some (Sample.t0 + Sample.day))
               (Some "H1"%string) None None)
            (Sample.demo_app (Some 1)) (Sample.t0 + Sample.day) "H2"
            (Sample.request (Some "H2"%string) None)
            _ _ _ _ _ _ _ _ _ _ _ _ _ _ _ _)))).
  - vm_compute. reflexivity.
  - vm_compute. reflexivity.
  - vm_compute. reflexivity.
  - reflexivity.
  - discriminate.
  - discriminate.
  - reflexivity.
  - vm_compute. discriminate.
  - reflexivity.
  - reflexivity.
  - discriminate.
  - reflexivity.
  - discriminate.
  - reflexivity.
  - discriminate.
  - reflexivity.
Defined.



Module SettingFacts.

Lemma updateHwidLock_success c permitted allowed app enabled st :
  admin_response (updateHwidLock c permitted allowed app enabled st)
  = Success None ->
  exists b,
    enabled = Some b
    /\ admin_store (updateHwidLock c permitted allowed app enabled st)
       = set_applications st
           (alter (with_hwid_lock (Some (if b then 1 else 0))) app
              (applications st)).
Proof.
  unfold updateHwidLock.
  destruct (negb (JS.truthy_num (session_user c))); [discriminate|].
  destruct (negb permitted); [discriminate|].
  destruct (negb allowed); [discriminate|].
  destruct enabled as [b|]; [|discriminate].
  destruct (applications st !! app); [|discriminate].
  intros _. exists b. split; reflexivity.
Qed.

Lemma updateVersion_success c permitted allowed app v st :
  admin_response (updateVersion c permitted allowed app v st) = Success None ->
  JS.truthy_str v = true
  /\ admin_store (updateVersion c permitted allowed app v st)
     = set_applications st (alter (with_version v) app (applications st)).
Proof.
  unfold updateVersion.
  destruct (negb (JS.truthy_num (session_user c))); [discriminate|].
  destruct (negb permitted); [discriminate|].
  destruct (negb allowed); [discriminate|].
  destruct (JS.truthy_str v); [|discriminate]. simpl.
  destruct (applications st !! app); [|discriminate].
  intros _. split; reflexivity.
Qed.

End SettingFacts.

(** X14.  Turning the hardware lock of an application off unlocks its
    licenses on their next check: once the update succeeded, a check of a
    license of that application that has a locked hwid, passes the version
    gate and is neither banned nor paused leaves [locked_hwid] null when
    it is answered, whether the check accepts or rejects the license as
    expired. *)
Theorem disabling_lock_unlocks_on_next_check :
  forall (c : Caller) (permitted allowed : bool) (app : string) (st : Store)
         (tz : TimeZone) (now nowActivation : Z) (req : CheckRequest)
         (l : License) (a : Application),
    admin_response (updateHwidLock c permitted allowed app (Some false) st)
    = Success None ->
    let off := admin_store
                 (updateHwidLock c permitted allowed app (Some false) st) in
    let out := checkLicense tz now nowActivation off req in
    body_app_id req = Some app ->
    row_found off req = Some (l, a) ->
    gates_pass req l a ->
    JS.truthy_str (locked_hwid l) = true ->
    response out <> ConfigurationError ->
    response out <> HandlerThrew ->
    hwid_lock_on a = false
    /\ exists l',
         licenses (store_after out) !! default ""%string (body_license_key req)
         = Some l'
         /\ locked_hwid l' = None.
Proof.
  intros c permitted allowed app st tz now nowActivation req l a Hok off out
    Happ Hfound Hgates Hlocked Hcfg Hthrow.
  subst out off.
  destruct (SettingFacts.updateHwidLock_success _ _ _ _ _ _ Hok)
    as (b & Hb & Hstore).
  injection Hb as <-. rewrite Hstore in *. clear Hstore Hok.
  destruct (CheckFacts.row_found_lookup _ _ _ _ Hfound) as [Hl Hact].
  pose proof (MutatorFacts.row_found_app _ _ _ _ Hfound) as Ha.
  rewrite Happ in Ha. simpl in Ha. rewrite lookup_alter_eq in Ha.
  assert (Hoff : hwid_lock_on a = false).
  { destruct (applications st !! app) as [a0|]; [|discriminate].
    injection Ha as <-. reflexivity. }
  split; [exact Hoff|].
  rewrite (CheckFacts.checkLicense_found _ _ _ _ _ _ _ Hfound) in *.
  destruct Hgates as (Hver & Hban & Hpause).
  apply Z.eqb_neq in Hban, Hpause.
  revert Hcfg Hthrow.
  unfold check_row, reject, accept, lock_activated, lock_unlimited.
  set (activation := calculateExpirationDate _ _ _ _ _ ≫= toISOString).
  rewrite Hver, Hban, Hpause, Hact, Hoff, Hlocked. simpl.
  destruct (awaits_activation l).
  - destruct activation; [|intros _ H; contradiction H; reflexivity].
    intros _ _. simpl. rewrite lookup_alter_eq.
    simpl in Hl. rewrite Hl. simpl. eauto.
  - destruct (expires_at l) as [e|].
    + intros _ _. destruct (e <? now); simpl; rewrite lookup_alter_eq;
        simpl in Hl; rewrite Hl; simpl; eauto.
    + destruct (negb (is_unlimited l =? 0));
        [|intros H; contradiction H; reflexivity].
      intros _ _. simpl. rewrite lookup_alter_eq. simpl in Hl. rewrite Hl.
      simpl. eauto.
Qed.

(** The lock of the application is turned off, then a license locked to
    [H1] is checked from [H2]. *)
Lemma disabling_lock_unlocks_on_next_check_witness :
  hwid_lock_on (Sample.demo_app (Some 0)) = false
  /\ exists l',
       licenses
         (store_after
            (checkLicense Sample.utc Sample.t0 Sample.t0
               (admin_store
                  (updateHwidLock Sample.owner true true "app-1" (Some false)
                     (Sample.store (Some 1)
                        (Sample.license 0 0 0 (Some (Sample.t0 + Sample.day))
                           (Some "H1"%string) None None))))
               (Sample.request (Some "H2"%string) None))) !! "KEY-1"%string
       = Some l'
       /\ locked_hwid l' = None.
Proof.
  apply (disabling_lock_unlocks_on_next_check Sample.owner true true "app-1"
           (Sample.store (Some 1)
              (Sample.license 0 0 0 (Some (Sample.t0 + Sample.day))
                 (Some "H1"%string) None None))
           Sample.utc Sample.t0 Sample.t0
           (Sample.request (Some "H2"%string) None)
           (Sample.license 0 0 0 (Some (Sample.t0 + Sample.day))
              (Some "H1"%string) None None)
           (Sample.demo_app (Some 0))).
  - vm_compute. reflexivity.
  - reflexivity.
  - vm_compute. reflexivity.
  - split; [reflexivity|]. split; discriminate.
  - reflexivity.
  - vm_compute. discriminate.
  - vm_compute. discriminate.
Defined.

(** X15.  After the required version of an application is updated to [v],
    a check of one of its licenses that carries another non-empty version
    is rejected with the version-mismatch reason, naming both versions, and
    writes nothing, whatever the state of the license; a check that carries
    [v] or no version passes the version gate. *)
Theorem version_update_gates_checks :
  forall (c : Caller) (permitted allowed : bool) (app v : string) (st : Store)
         (tz : TimeZone) (now nowActivation : Z) (req : CheckRequest)
         (l : License) (a : Application),
    admin_response (updateVersion c permitted allowed app (Some v) st)
    = Success None ->
    let updated := admin_store
                     (updateVersion c permitted allowed app (Some v) st) in
    let out := checkLicense tz now nowActivation updated req in
    body_app_id req = Some app ->
    row_found updated req = Some (l, a) ->
    version a = Some v
    /\ (forall v', body_app_version req = Some v' -> v' <> ""%string ->
          v' <> v ->
          (exists t,
              response out
              = Rejected version_mismatch
                  {| text := t;
                     replacements :=
                       [("{current}"%string, v'); ("{required}"%string, v)] |})
          /\ store_after out = updated)
    /\ (body_app_version req = Some v \/ body_app_version req = None ->
        version_mismatched req a = false).
Proof.
  intros c permitted allowed app v st tz now nowActivation req l a Hok updated
    out Happ Hfound.
  subst out updated.
  destruct (SettingFacts.updateVersion_success _ _ _ _ _ _ Hok)
    as (Hv & Hstore).
  rewrite Hstore in *. clear Hstore Hok.
  pose proof (MutatorFacts.row_found_app _ _ _ _ Hfound) as Ha.
  rewrite Happ in Ha. simpl in Ha. rewrite lookup_alter_eq in Ha.
  assert (Hversion : version a = Some v).
  { destruct (applications st !! app) as [a0|]; [|discriminate].
    injection Ha as <-. reflexivity. }
  split; [exact Hversion|]. split.
  - intros v' Hv' Hne0 Hne.
    rewrite (CheckFacts.checkLicense_found _ _ _ _ _ _ _ Hfound).
    assert (Hmis : version_mismatched req a = true).
    { unfold version_mismatched. rewrite Hv', Hversion, Hv. simpl.
      apply String.eqb_neq in Hne0. rewrite Hne0. simpl.
      apply negb_true_iff, String.eqb_neq. congruence. }
    unfold check_row. rewrite Hmis, Hv', Hversion. simpl. eauto.
  - intros [Hsame | Hnone]; unfold version_mismatched.
    + rewrite Hsame, Hversion. simpl. rewrite String.eqb_refl.
      apply andb_false_r.
    + rewrite Hnone. reflexivity.
Qed.

(** The application moves to version 2.0.0; a client still on 1.0.0 checks
    its license. *)
Lemma version_update_gates_checks_witness :
  version (with_version (Some "2.0.0"%string) (Sample.demo_app (Some 1)))
  = Some "2.0.0"%string.
Proof.
  refine (proj1 (version_update_gates_checks Sample.owner true true "app-1"
            "2.0.0" (Sample.store (Some 1) Sample.fresh) Sample.utc Sample.t0
            Sample.t0
            (Sample.request (Some "H1"%string) (Some "1.0.0"%string))
            Sample.fresh
            (with_version (Some "2.0.0"%string) (Sample.demo_app (Some 1)))
            _ _ _)).
  - vm_compute. reflexivity.
  - reflexivity.
  - vm_compute. reflexivity.
Defined.

(** ** Pause and resume, one license and in bulk *)

Module BulkFacts.

Lemma bulk_pausable_earlier P P' l :
  P <= P' -> bulk_pausable P' l = true -> bulk_pausable P l = true.
Proof.
  intros Hle. unfold bulk_pausable.
  destruct (is_active l =? 1); [|discriminate].
  destruct (is_banned l =? 0); [|discriminate].
  destruct (is_paused l =? 0); [|discriminate]. simpl.
  destruct (is_unlimited l =? 1); [rewrite !orb_true_r; reflexivity|].
  rewrite !orb_false_r. destruct (expires_at l) as [e|]; [|discriminate].
  intros H. apply Z.ltb_lt in H. apply Z.ltb_lt. lia.
Qed.

Lemma paused_not_pausable now at_ snapshot l :
  bulk_pausable now (with_pause 1 at_ snapshot l) = false.
Proof.
  unfold bulk_pausable. simpl. rewrite !andb_false_r. reflexivity.
Qed.

End BulkFacts.

(** X16.  The pause route refuses a found license that is inactive, banned,
    or limited with an expiration not after the clock of the handler, and
    a refused pause, whatever the reason, leaves the store as it was. *)
Theorem pause_refuses_ineligible_license :
  forall (now : Z) (c : Caller) (key : string) (st : Store),
    (forall status error,
        admin_response (pauseLicense now c key st) = Failure status error ->
        admin_store (pauseLicense now c key st) = st)
    /\ (forall l,
          licenses st !! key = Some l ->
          is_active l <> 1 \/ is_banned l = 1
          \/ (is_unlimited l <> 1 /\ exists e, expires_at l = Some e /\ e <= now) ->
          exists status error, pauseLicense now c key st = refuse st status error).
Proof.
  intros now c key st. split.
  - intros status error. apply PauseFacts.pause_failure_keeps_store.
  - intros l Hl Hbad.
    destruct (select_license st (is_admin c) (session_user c) key) as [l0|] eqn:Hs.
    + pose proof (PauseFacts.select_license_lookup _ _ _ _ _ Hs) as Hl0.
      assert (l0 = l) as -> by congruence.
      eapply PauseFacts.pause_refuses; eauto.
    + unfold pauseLicense. rewrite Hs.
      destruct (negb (JS.truthy_num (session_user c))); [eauto|].
      destruct (negb (is_admin c) && negb (may_pause c)); eauto.
Qed.

(** The owner tries to pause a banned license. *)
Lemma pause_refuses_ineligible_license_witness :
  exists status error,
    pauseLicense Sample.t0 Sample.owner "KEY-1"
      (Sample.store (Some 1) (Sample.license 0 1 0 None None None None))
    = refuse (Sample.store (Some 1) (Sample.license 0 1 0 None None None None))
        status error.
Proof.
  refine (proj2 (pause_refuses_ineligible_license Sample.t0 Sample.owner "KEY-1"
            (Sample.store (Some 1) (Sample.license 0 1 0 None None None None)))
            (Sample.license 0 1 0 None None None None) _ _).
  - vm_compute. reflexivity.
  - right. left. reflexivity.
Defined.

(** X17.  The pause of all the licenses of an application does not pause
    twice: a second one at the same or a later instant changes nothing, so
    the [paused_at] and the snapshot written by the first one are kept. *)
Theorem bulk_pause_is_idempotent :
  forall (P P' : Z) (c : Caller) (app : string) (st : Store),
    P <= P' ->
    admin_store
      (pauseAllForApp P' c app (admin_store (pauseAllForApp P c app st)))
    = admin_store (pauseAllForApp P c app st).
Proof.
  intros P P' c app st Hle. unfold pauseAllForApp.
  destruct (negb (JS.truthy_num (session_user c))); [reflexivity|].
  destruct (negb (is_admin c) && negb (may_pause c)); [reflexivity|].
  unfold set_licenses. simpl. f_equal.
  apply map_eq. intros k. rewrite !lookup_fmap.
  destruct (licenses st !! k) as [l|]; [|reflexivity]. simpl. f_equal.
  destruct (String.eqb (app_id l) app) eqn:Happ; simpl.
  - destruct (bulk_pausable P l) eqn:Hfirst_row.
    + simpl. rewrite Happ, BulkFacts.paused_not_pausable. reflexivity.
    + rewrite Happ. simpl.
      destruct (bulk_pausable P' l) eqn:Hp'; [|reflexivity].
      rewrite (BulkFacts.bulk_pausable_earlier P P' l Hle Hp') in Hfirst_row.
      discriminate.
  - rewrite Happ. reflexivity.
Qed.

(** Two pauses of the application a day apart. *)
Lemma bulk_pause_is_idempotent_witness :
  admin_store
    (pauseAllForApp (Sample.t0 + Sample.day) Sample.owner "app-1"
       (admin_store
          (pauseAllForApp Sample.t0 Sample.owner "app-1"
             (Sample.store (Some 1)
                (Sample.license 0 0 0 (Some (Sample.t0 + 20 * Sample.day))
                   None None None)))))
  = admin_store
      (pauseAllForApp Sample.t0 Sample.owner "app-1"
         (Sample.store (Some 1)
            (Sample.license 0 0 0 (Some (Sample.t0 + 20 * Sample.day))
               None None None))).
Proof.
  apply (bulk_pause_is_idempotent Sample.t0 (Sample.t0 + Sample.day)).
  vm_compute. discriminate.
Defined.



(** X19.  The resume of one license does not test [is_paused]; on a
    license that is not paused and carries no pause fields it succeeds and
    changes nothing.  The resume of all the licenses of an application
    selects the paused rows and skips such a license. *)
Theorem resume_of_running_license_changes_nothing :
  forall (fallback now : Z) (fallbackAt nowAt : string -> Z) (c : Caller)
         (key app : string) (st : Store) (l : License),
    licenses st !! key = Some l ->
    is_paused l = 0 -> paused_at l = None -> paused_expires_at l = None ->
    (admin_response (unpauseLicense fallback now c key st) = Success None ->
     admin_store (unpauseLicense fallback now c key st) = st)
    /\ licenses (admin_store (unpauseAllForApp fallbackAt nowAt c app st))
       !! key
       = Some l.
Proof.
  intros fallback now fallbackAt nowAt c key app st l Hl Hp Hat Hsnap. split.
  - unfold unpauseLicense.
    destruct (negb (JS.truthy_num (session_user c))); [discriminate|].
    destruct (negb (is_admin c) && negb (may_pause c)); [discriminate|].
    destruct (select_license st (is_admin c) (session_user c) key) as [l0|] eqn:Hs;
      [|discriminate].
    apply PauseFacts.select_license_lookup in Hs.
    assert (l0 = l) as -> by congruence.
    intros _. simpl. unfold update_license.
    apply MutatorFacts.store_eq. apply map_eq. intros k.
    destruct (decide (key = k)) as [<-|Hne].
    + rewrite lookup_alter_eq, Hl. simpl. f_equal. rewrite Hsnap.
      destruct l; simpl in *; subst; reflexivity.
    + rewrite lookup_alter_ne by exact Hne. reflexivity.
  - unfold unpauseAllForApp.
    destruct (negb (JS.truthy_num (session_user c))); [exact Hl|].
    destruct (negb (is_admin c) && negb (may_pause c)); [exact Hl|].
    simpl. rewrite map_lookup_imap, Hl. simpl. rewrite Hp.
    rewrite andb_false_r. reflexivity.
Qed.

(** The owner resumes a license that was never paused. *)
Lemma resume_of_running_license_changes_nothing_witness :
  admin_store
    (unpauseLicense 0 Sample.t0 Sample.owner "KEY-1"
       (Sample.store (Some 1)
          (Sample.license 0 0 0 (Some (Sample.t0 + Sample.day)) None None None)))
  = Sample.store (Some 1)
      (Sample.license 0 0 0 (Some (Sample.t0 + Sample.day)) None None None).
Proof.
  refine (proj1 (resume_of_running_license_changes_nothing 0 Sample.t0
            (fun _ => 0) (fun _ => 0) Sample.owner "KEY-1" "app-1"
            (Sample.store (Some 1)
               (Sample.license 0 0 0 (Some (Sample.t0 + Sample.day)) None None
                  None))
            (Sample.license 0 0 0 (Some (Sample.t0 + Sample.day)) None None None)
            _ _ _ _) _).
  - vm_compute. reflexivity.
  - reflexivity.
  - reflexivity.
  - reflexivity.
  - vm_compute. reflexivity.
Defined.



(** ** Extending an activated license *)

Opaque calculateExpirationDate setDate getDate.

(** X21.  What the two extend routes add to a license that has an
    expiration [e] after the clock of the handler.  The route of the owner
    moves [e] by the requested days on the local clock of the server and
    adds them to [duration_value].  The route by key adds the span from
    the clock read after [calculateExpirationDate] to its result: on a
    server whose zone keeps one offset this is the requested duration less
    the time between the two clock readings.  The requested durations span
    at most 8.64e15 ms and the instants are in the range of [Date]. *)
Theorem extend_moves_expiration_of_activated_license :
  forall (tz : TimeZone) (now : Z) (c : Caller) (key : string) (st : Store)
         (l : License) (e : Z),
    select_license st (is_admin c) (session_user c) key = Some l ->
    JS.truthy_num (session_user c) = true ->
    may_extend c = true ->
    is_unlimited l <> 1 ->
    expires_at l = Some e -> now < e ->
    proper_zone tz -> valid_time e ->
    (forall nowActivation days,
        is_admin c = false -> key <> ""%string -> days <> 0 ->
        Z.abs (days * msPerDay) <= maxTime ->
        valid_time (add_duration tz e days "days") ->
        extendLicense tz nowActivation now c (Some key) (Some days) st
        = {| admin_response := Success (Some (add_duration tz e days "days"));
             admin_store :=
               update_license
                 (fun r =>
                    with_duration_value
                      (Some (JSNumber.add (default 0 (duration_value r)) days))
                      (with_expires_at (Some (add_duration tz e days "days")) r))
                 key st |})
    /\ (forall nowCalc nowDiff v u,
          v <> 0 -> u <> ""%string ->
          valid_time nowCalc -> Z.abs (v * unit_ms u) <= maxTime ->
          valid_time (add_duration tz nowCalc v u) ->
          Z.abs (add_duration tz nowCalc v u - nowDiff) < JSNumber.two53 ->
          valid_time (e + (add_duration tz nowCalc v u - nowDiff)) ->
          extendLicenseByKey tz now nowCalc nowDiff c key (Some v) (Some u) st
          = {| admin_response := Success None;
               admin_store :=
                 update_license
                   (with_expires_at
                      (Some (e + (add_duration tz nowCalc v u - nowDiff))))
                   key st |}
          /\ (fixed_offset tz ->
              e + (add_duration tz nowCalc v u - nowDiff)
              = e + v * unit_ms u - (nowDiff - nowCalc))).
Proof.
  intros tz now c key st l e Hsel Hsess Hperm Hunl He Hlive Hzone Hvalid.
  apply Z.eqb_neq in Hunl. split.
  - intros nowActivation days Hadmin Hkey Hdays Hspan Hrange.
    apply String.eqb_neq in Hkey. apply Z.eqb_neq in Hdays.
    rewrite Hadmin in Hsel.
    unfold extendLicense. rewrite Hsess, Hperm. simpl. rewrite Hkey, Hdays.
    simpl. rewrite Hsel, Hunl, He.
    destruct (Z.leb_spec e now); [lia|].
    destruct (Z.ltb_spec now e); [|lia].
    unfold parseInt.
    rewrite (NumberFacts.parseInt_exact days
               (DateFacts.duration_below_two53 days "days" Hspan)).
    rewrite (DateFacts.setDate_add tz Hzone _ _ Hvalid Hspan Hrange).
    reflexivity.
  - intros nowCalc nowDiff v u Hv Hu Hnow Hspan Hrange Hdiff Hnew.
    apply String.eqb_neq in Hu. apply Z.eqb_neq in Hv.
    split.
    + unfold extendLicenseByKey. rewrite Hsess, Hperm. simpl.
      rewrite andb_false_r, Hv, Hu. simpl. rewrite Hsel, Hunl, He.
      destruct (Z.leb_spec e now); [lia|].
      unfold parseInt.
      rewrite (NumberFacts.parseInt_exact v
                 (DateFacts.duration_below_two53 v u Hspan)).
      rewrite (DateFacts.calculateExpirationDate_add _ _ _ _ Hzone Hnow Hspan
                 Hrange).
      cbn [default from_option id].
      rewrite (NumberFacts.sub_exact _ _ Hdiff).
      rewrite NumberFacts.add_exact
        by (unfold valid_time, maxTime, JSNumber.two53 in *; lia).
      rewrite (DateFacts.TimeClip_valid _ Hnew). reflexivity.
    + intros Hfixed. rewrite (DateFacts.add_duration_fixed _ _ _ _ Hfixed). lia.
Qed.

Transparent calculateExpirationDate setDate getDate.

(** The owner asks for five more days on a license that expires in twenty
    days, on a server running in UTC. *)
Lemma extend_moves_expiration_of_activated_license_witness :
  extendLicense Sample.utc Sample.t0 Sample.t0 Sample.owner
    (Some "KEY-1"%string) (Some 5)
    (Sample.store (Some 1)
       (Sample.license 0 0 0 (Some (Sample.t0 + 20 * Sample.day)) None None
          None))
  = {| admin_response :=
         Success
           (Some (add_duration Sample.utc (Sample.t0 + 20 * Sample.day) 5 "days"));
       admin_store :=
         update_license
           (fun r =>
              with_duration_value
                (Some (JSNumber.add (default 0 (duration_value r)) 5))
                (with_expires_at
                   (Some (add_duration Sample.utc (Sample.t0 + 20 * Sample.day)
                            5 "days")) r))
           "KEY-1"
           (Sample.store (Some 1)
              (Sample.license 0 0 0 (Some (Sample.t0 + 20 * Sample.day)) None
                 None None)) |}.
Proof.
  refine (proj1 (extend_moves_expiration_of_activated_license Sample.utc
            Sample.t0 Sample.owner "KEY-1"
            (Sample.store (Some 1)
               (Sample.license 0 0 0 (Some (Sample.t0 + 20 * Sample.day)) None
                  None None))
            (Sample.license 0 0 0 (Some (Sample.t0 + 20 * Sample.day)) None
               None None)
            (Sample.t0 + 20 * Sample.day) _ _ _ _ _ _ _ _)
            Sample.t0 5 _ _ _ _ _).
  - vm_compute. reflexivity.
  - reflexivity.
  - reflexivity.
  - discriminate.
  - reflexivity.
  - vm_compute. reflexivity.
  - apply DateFacts.fixed_zone_proper. vm_compute. discriminate.
  - vm_compute. discriminate.
  - reflexivity.
  - discriminate.
  - discriminate.
  - vm_compute. discriminate.
  - vm_compute. discriminate.
Defined.

(** ** The other key generators *)

Module FormatFacts.

Lemma get_some_lt (s : string) : forall (n : nat) (c : ascii),
  String.get n s = Some c -> (n < String.length s)%nat.
Proof.
  induction s as [|x s IH]; intros [|n] c H; simpl in *; try discriminate.
  - lia.
  - apply IH in H. lia.
Qed.

Lemma includes_wildcard_nonempty (s : string) :
  includes_wildcard s = true -> s <> ""%string.
Proof. destruct s; [discriminate | intros _; discriminate]. Qed.

Lemma test_character_set_nonempty o : test_character_set o <> ""%string.
Proof. destruct o as [[[|] [|] [|]]|]; discriminate. Qed.

(** The characters of the test route are those of the generator with the
    digits turned on. *)
Lemma test_character_set_allowed (o : FormatOptions) (k : ascii) :
  existsb (Ascii.eqb k) (list_ascii_of_string (test_character_set (Some o)))
  = allowed {| bigLetters := bigLetters o; digits := true;
               specialChars := specialChars o |} k.
Proof.
  destruct o as [[|] [|] [|]];
    destruct k as [[|] [|] [|] [|] [|] [|] [|] [|]]; reflexivity.
Qed.

Lemma test_character_set_In (o : FormatOptions) (k : ascii) :
  In k (list_ascii_of_string (test_character_set (Some o)))
  <-> allowed {| bigLetters := bigLetters o; digits := true;
                 specialChars := specialChars o |} k = true.
Proof.
  rewrite <- test_character_set_allowed, existsb_exists. split.
  - intros H. exists k. split; [assumption | apply Ascii.eqb_refl].
  - intros (x & Hx & Heq). apply Ascii.eqb_eq in Heq. now subst.
Qed.

Lemma default_characters_alphanumeric (k : ascii) :
  In k
    (list_ascii_of_string
       "ABCDEFGHIJKLMNOPQRSTUVWXYZabcdefghijklmnopqrstuvwxyz0123456789") ->
  is_alphanumeric k = true.
Proof.
  intros H.
  assert (forallb is_alphanumeric
            (list_ascii_of_string
               "ABCDEFGHIJKLMNOPQRSTUVWXYZabcdefghijklmnopqrstuvwxyz0123456789")
          = true) as Hall by (vm_compute; reflexivity).
  rewrite forallb_forall in Hall. apply Hall, H.
Qed.

Lemma nine_wildcards (j : nat) (c : ascii) :
  String.get j "*********" = Some c -> c = "*"%char.
Proof.
  do 9 (destruct j as [|j]; [simpl; congruence|]). discriminate.
Qed.

End FormatFacts.

(** X22.  The fallback generator [generateDefaultLicenseKey] returns nine
    characters, each a letter or a digit, whatever the random bytes. *)
Theorem default_key_is_nine_alphanumerics :
  forall (source : nat -> Byte.byte),
    String.length (generateDefaultLicenseKey source) = 9%nat
    /\ forall (j : nat) (k : ascii),
         String.get j (generateDefaultLicenseKey source) = Some k ->
         is_alphanumeric k = true.
Proof.
  intros source. unfold generateDefaultLicenseKey. cbv zeta.
  set (chars :=
         "ABCDEFGHIJKLMNOPQRSTUVWXYZabcdefghijklmnopqrstuvwxyz0123456789"%string).
  assert (chars <> ""%string) as Hne by discriminate.
  destruct (KeyFacts.fill_format_shape chars (randomBytes source 9) Hne
              "*********" 0) as [Hlen Hpos].
  split; [exact Hlen|].
  intros j k Hk.
  pose proof (FormatFacts.get_some_lt _ _ _ Hk) as Hj. rewrite Hlen in Hj.
  destruct (KeyFacts.get_lt "*********" j Hj) as [c Hc].
  destruct (Hpos j c Hc) as (k' & Hk' & _ & Hwild).
  assert (k' = k) as -> by congruence.
  apply FormatFacts.default_characters_alphanumeric, Hwild.
  exact (FormatFacts.nine_wildcards j c Hc).
Qed.

(** X23.  The test route of the license format answers the administrator
    with a key of the shape of the format: the length of the format, its
    literal characters in place, and at each wildcard a lowercase letter
    or a digit, or an uppercase letter or a special character when that
    class is turned on.  The digits toggle is not read: the test key is
    the same with it on or off, while the generator leaves the digits out
    when it is off. *)
Theorem test_key_ignores_digits_toggle :
  forall (session : option UserId) (fmt : string) (o : FormatOptions)
         (source : nat -> Byte.byte),
    JS.truthy_num session = true -> fmt <> ""%string ->
    exists key,
      testLicenseFormat session true (Some fmt) (Some o) source
      = FormatTestKey key
      /\ String.length key = String.length fmt
      /\ (forall (j : nat) (c : ascii),
            String.get j fmt = Some c ->
            exists k, String.get j key = Some k
                      /\ (c <> "*"%char -> k = c)
                      /\ (c = "*"%char ->
                          allowed {| bigLetters := bigLetters o; digits := true;
                                     specialChars := specialChars o |} k = true))
      /\ testLicenseFormat session true (Some fmt)
           (Some {| bigLetters := bigLetters o; digits := negb (digits o);
                    specialChars := specialChars o |}) source
         = FormatTestKey key.
Proof.
  intros session fmt o source Hs Hfmt.
  unfold testLicenseFormat. rewrite Hs. simpl.
  apply String.eqb_neq in Hfmt. rewrite Hfmt. simpl.
  eexists. split; [reflexivity|].
  destruct (KeyFacts.fill_format_shape (test_character_set (Some o))
              (randomBytes source (String.length fmt))
              (FormatFacts.test_character_set_nonempty (Some o)) fmt 0)
    as [Hlen Hpos].
  split; [exact Hlen|]. split; [|reflexivity].
  intros j c Hc. destruct (Hpos j c Hc) as (k & Hk & Hlit & Hwild).
  exists k. split; [exact Hk|]. split; [exact Hlit|].
  intros Hstar. apply FormatFacts.test_character_set_In, Hwild, Hstar.
Qed.

(** The administrator tests the format [AB-**] with the digits off and the
    bytes 26 and 27: the test key carries the digits 0 and 1, a key of the
    generator under the same format, options and bytes carries letters. *)
Lemma test_key_ignores_digits_toggle_witness :
  exists key,
    testLicenseFormat (Some 1) true (Some "AB-**"%string)
      (Some {| bigLetters := false; digits := false; specialChars := false |})
      (fun i => if Nat.eqb i 3 then Byte.x1a else Byte.x1b)
    = FormatTestKey key.
Proof.
  destruct (test_key_ignores_digits_toggle (Some 1) "AB-**"
              {| bigLetters := false; digits := false; specialChars := false |}
              (fun i => if Nat.eqb i 3 then Byte.x1a else Byte.x1b))
    as (key & Hkey & _).
  - reflexivity.
  - discriminate.
  - exists key. exact Hkey.
Defined.

Example test_key_and_generated_key :
  testLicenseFormat (Some 1) true (Some "AB-**"%string)
    (Some {| bigLetters := false; digits := false; specialChars := false |})
    (fun i => if Nat.eqb i 3 then Byte.x1a else Byte.x1b)
  = FormatTestKey "AB-01"
  /\ generateLicenseKey
       (Some {| format := "AB-**";
                options := Some {| bigLetters := false; digits := false;
                                   specialChars := false |} |})
       (fun i => if Nat.eqb i 3 then Byte.x1a else Byte.x1b)
     = "AB-ab"%string.
Proof. vm_compute. split; reflexivity. Qed.

(** X24.  A format saved by the administrator is the one the generator
    uses from then on: the save succeeds exactly for a format that holds a
    wildcard, and every key generated afterwards has the length of that
    format, its literal characters in place, and at each wildcard a
    character of the classes of the saved options (lowercase letters and
    digits when the request carried none).  A save that is refused leaves
    the stored format as it was. *)
Theorem saved_format_shapes_generated_keys :
  forall (session : option UserId) (admin : bool) (fmt : option string)
         (o : option FormatOptions) (stored : option FormatConfig),
    let saved := saveLicenseFormat session admin fmt o stored in
    (saved.1 <> FormatSaved -> saved.2 = stored)
    /\ (saved.1 = FormatSaved ->
        exists f,
          fmt = Some f /\ includes_wildcard f = true
          /\ forall (source : nat -> Byte.byte),
               let key := generateLicenseKey saved.2 source in
               String.length key = String.length f
               /\ forall (j : nat) (c : ascii),
                    String.get j f = Some c ->
                    exists k, String.get j key = Some k
                              /\ (c <> "*"%char -> k = c)
                              /\ (c = "*"%char ->
                                  allowed (default default_options o) k = true)).
Proof.
  intros session admin fmt o stored. cbv zeta. unfold saveLicenseFormat.
  destruct (negb (JS.truthy_num session)); [split; [reflexivity | discriminate]|].
  destruct (negb admin); [split; [reflexivity | discriminate]|].
  destruct (negb (JS.truthy_str fmt)) eqn:Hfmt;
    [split; [reflexivity | discriminate]|].
  destruct (includes_wildcard (default ""%string fmt)) eqn:Hwild; simpl;
    [|split; [reflexivity | discriminate]].
  split; [intros H; contradiction H; reflexivity|]. intros _.
  destruct fmt as [f|]; [|discriminate]. simpl in Hwild.
  exists f. split; [reflexivity|]. split; [exact Hwild|].
  intros source. unfold generateLicenseKey, effective_format, effective_options.
  simpl.
  pose proof (FormatFacts.includes_wildcard_nonempty f Hwild) as Hne.
  apply String.eqb_neq in Hne. rewrite Hne.
  destruct (KeyFacts.fill_format_shape
              (character_set (default default_options o))
              (randomBytes source (String.length f))
              (KeyFacts.character_set_nonempty _) f 0) as [Hlen Hpos].
  split; [exact Hlen|].
  intros j c Hc. destruct (Hpos j c Hc) as (k & Hk & Hlit & Hin).
  exists k. split; [exact Hk|]. split; [exact Hlit|].
  intros Hstar. apply KeyFacts.character_set_In, Hin, Hstar.
Qed.

(** The administrator saves [VARP-****] without options. *)
Lemma saved_format_shapes_generated_keys_witness :
  exists f,
    Some "VARP-****"%string = Some f /\ includes_wildcard f = true.
Proof.
  destruct (saved_format_shapes_generated_keys (Some 1) true
              (Some "VARP-****"%string) None None) as [_ H].
  destruct H as (f & Hf & Hwild & _).
  - reflexivity.
  - exists f. split; [exact Hf | exact Hwild].
Defined.

(** ** Custom messages *)

Module MessageFacts.

Section Lookup.
Variables (user : UserId) (key : string).

Let own (r : MessageRow) : bool :=
  same_user (msg_user_id r) (Some user) && String.eqb (message_key r) key.





Lemma same_user_refl : same_user (Some user) (Some user) = true.
Proof. simpl. apply Z.eqb_refl. Qed.





End Lookup.



End MessageFacts.



(** The check of a banned license of user 7 then answers with that
    text. *)
Example saved_message_reaches_the_check :
  let st := Sample.store (Some 1) (Sample.license 0 1 0 None None None None) in
  let saved :=
    saveMessages Sample.owner true
      (Some {[ "license-banned"%string := "No access"%string ]}) st in
  response (checkLicense Sample.utc Sample.t0 Sample.t0 st
              (Sample.request None None))
  = Rejected license_banned (plain "License has been banned")
  /\ response (checkLicense Sample.utc Sample.t0 Sample.t0 (admin_store saved)
                 (Sample.request None None))
     = Rejected license_banned (plain "No access").
Proof. cbv zeta. split; vm_compute; reflexivity. Qed.

(** ** Generating licenses *)

Module GenerateFacts.

Lemma tryInsert_fresh config random table : forall attempts calls k calls',
  tryInsert attempts config random calls table = (Some k, calls') ->
  table !! k = None.
Proof.
  induction attempts as [|attempts IH]; intros calls k calls' H; simpl in H.
  - discriminate.
  - destruct (table !! generateLicenseKey config (random calls)) eqn:Hk.
    + apply IH in H. exact H.
    + injection H as <- _. exact Hk.
Qed.

Lemma numLicenses_range quantity : 1 <= numLicenses quantity <= 100.
Proof. unfold numLicenses. lia. Qed.

Lemma generateNextLicense_step config random row n calls acc st :
  generateNextLicense (S n) config random calls row acc st
  = match tryInsert 10 config random calls (licenses st) with
    | (None, _) =>
        {| generate_response :=
             GenerateFailure 500
               "Failed to generate unique license key after multiple attempts";
           generate_store := st |}
    | (Some licenseKey, calls') =>
        generateNextLicense n config random calls' row (acc ++ [licenseKey])
          (set_licenses st (<[licenseKey := row]> (licenses st)))
    end.
Proof. reflexivity. Qed.

(** The loop of the route: the keys it adds are new to the table, differ
    from one another and all map to the row of the request; nothing else
    is written. *)
Lemma generateNextLicense_spec config random row : forall n calls acc st keys,
  generate_response (generateNextLicense n config random calls row acc st)
  = Generated keys ->
  let st' :=
    generate_store (generateNextLicense n config random calls row acc st) in
  exists new,
    keys = acc ++ new /\ length new = n /\ NoDup new
    /\ (forall k, k ∈ new ->
          licenses st !! k = None /\ licenses st' !! k = Some row)
    /\ (forall k, k ∉ new -> licenses st' !! k = licenses st !! k)
    /\ applications st' = applications st
    /\ license_usage st' = license_usage st
    /\ custom_messages st' = custom_messages st.
Proof.
  induction n as [|n IH]; intros calls acc st keys H; cbv zeta.
  - simpl in *. injection H as <-. exists []. rewrite app_nil_r.
    repeat split; auto using NoDup_nil_2.
    + inversion H.
    + inversion H.
  - rewrite generateNextLicense_step in *.
    destruct (tryInsert 10 config random calls (licenses st))
      as [[k|] calls'] eqn:Htry; [|discriminate].
    apply tryInsert_fresh in Htry.
    destruct (IH _ _ _ _ H)
      as (new & -> & Hlen & Hnd & Hnew & Hold & Happs & Husage & Hmsgs).
    cbn [licenses applications license_usage custom_messages set_licenses]
      in *.
    assert (k ∉ new) as Hk.
    { intros Hin. destruct (Hnew k Hin) as [Hnone _].
      rewrite lookup_insert_eq in Hnone. discriminate. }
    exists (k :: new). rewrite <- app_assoc. simpl.
    split; [reflexivity|]. split; [now rewrite Hlen|].
    split; [apply NoDup_cons; split; assumption|].
    split; [|split; [|auto]].
    + intros k' Hin. apply elem_of_cons in Hin as [-> | Hin].
      * split; [exact Htry|]. rewrite (Hold k Hk). apply lookup_insert_eq.
      * destruct (Hnew k' Hin) as [Hnone Hsome]. split; [|exact Hsome].
        destruct (decide (k = k')) as [<-|Hne]; [contradiction|].
        rewrite lookup_insert_ne in Hnone by exact Hne. exact Hnone.
    + intros k' Hnot. apply not_elem_of_cons in Hnot as [Hne Hnot].
      rewrite (Hold k' Hnot). apply lookup_insert_ne. congruence.
Qed.

End GenerateFacts.

(** X26.  When [POST /api/licenses/generate] answers with keys, it has
    inserted exactly the number asked for, between 1 and 100: the keys
    differ from one another, none of them was in the table before, each
    now names a license of the requested application that is active, not
    banned, not paused and without expiration, so that its time starts at
    the first check, and every other license and table is as before. *)
Theorem generated_licenses_are_new :
  forall (c : Caller) (permitted allowed : bool) (config : option FormatConfig)
         (random : nat -> nat -> Byte.byte) (req : GenerateRequest) (st : Store)
         (keys : list string),
    generate_response (generateLicenses c permitted allowed config random req st)
    = Generated keys ->
    let st' :=
      generate_store (generateLicenses c permitted allowed config random req st)
    in
    Z.of_nat (length keys) = numLicenses (gen_quantity req)
    /\ (1 <= length keys <= 100)%nat
    /\ NoDup keys
    /\ (forall k, k ∈ keys ->
          licenses st !! k = None
          /\ exists l, licenses st' !! k = Some l
                       /\ Some (app_id l) = gen_app_id req
                       /\ created_by l = session_user c
                       /\ expires_at l = None /\ locked_hwid l = None
                       /\ is_active l = 1 /\ is_banned l = 0 /\ is_paused l = 0)
    /\ (forall k, k ∉ keys -> licenses st' !! k = licenses st !! k)
    /\ applications st' = applications st
    /\ license_usage st' = license_usage st
    /\ custom_messages st' = custom_messages st.
Proof.
  intros c permitted allowed config random req st keys. unfold generateLicenses.
  destruct (negb (JS.truthy_num (session_user c))); [discriminate|].
  destruct (negb permitted); [discriminate|].
  destruct (negb (JS.truthy_str (gen_app_id req))) eqn:Happ; [discriminate|].
  destruct (_ && _); [discriminate|].
  destruct (negb allowed); [discriminate|].
  destruct (applications st !! default ""%string (gen_app_id req));
    [|discriminate].
  intros H. cbv zeta.
  destruct (GenerateFacts.generateNextLicense_spec _ _ _ _ _ _ _ _ H)
    as (new & -> & Hlen & Hnd & Hnew & Hold & Hrest).
  pose proof (GenerateFacts.numLicenses_range (gen_quantity req)) as Hrange.
  simpl. rewrite Hlen.
  split; [lia|]. split; [lia|]. split; [exact Hnd|].
  split; [|split; [exact Hold | exact Hrest]].
  intros k Hin. destruct (Hnew k Hin) as [Hnone Hsome].
  split; [exact Hnone|]. eexists. split; [exact Hsome|]. simpl.
  destruct (gen_app_id req); [|discriminate]. repeat split; reflexivity.
Qed.

(** User 7 asks for two thirty day licenses of [app-1]; no format is
    stored, and the random bytes of the [n]-th key are [n], [n + 1], ... *)
Lemma generated_licenses_are_new_witness :
  NoDup ["abcdefghij"; "bcdefghijk"]%string.
Proof.
  refine (proj1 (proj2 (proj2 (generated_licenses_are_new Sample.owner true true
            None (fun call i => default Byte.x00 (Byte.of_nat (call + i)))
            {| gen_app_id := Some "app-1"%string; gen_duration_value := Some 30;
               gen_duration_unit := Some "days"%string;
               gen_is_unlimited := false; gen_quantity := Some 2 |}
            (Sample.store (Some 1) Sample.fresh)
            ["abcdefghij"; "bcdefghijk"]%string _)))).
  vm_compute. reflexivity.
Defined.

(** A generation that fails keeps what it inserted before: with a random
    source that always gives the same bytes, the second key of a request
    for two collides ten times, the answer is the error, and the first
    license stays in the table. *)
Example failed_generation_keeps_first_license :
  let out :=
    generateLicenses Sample.owner true true None (fun _ _ => Byte.x00)
      {| gen_app_id := Some "app-1"%string; gen_duration_value := Some 30;
         gen_duration_unit := Some "days"%string;
         gen_is_unlimited := false; gen_quantity := Some 2 |}
      (Sample.store (Some 1) Sample.fresh) in
  generate_response out
  = GenerateFailure 500
      "Failed to generate unique license key after multiple attempts"
  /\ licenses (Sample.store (Some 1) Sample.fresh) !! "aaaaaaaaaa"%string = None
  /\ (created_by <$> licenses (generate_store out) !! "aaaaaaaaaa"%string)
     = Some (Some 7).
Proof. cbv zeta. repeat split; vm_compute; reflexivity. Qed.

(** The quantity goes through [parseInt] and is kept between 1 and 100. *)
Example numLicenses_examples :
  numLicenses None = 1 /\ numLicenses (Some 0) = 1
  /\ numLicenses (Some (-3)) = 1 /\ numLicenses (Some 7) = 7
  /\ numLicenses (Some 500) = 100 /\ numLicenses (Some (10 ^ 21)) = 1.
Proof. vm_compute. repeat split; reflexivity. Qed.
